(** * zdns: the Resolver orchestrator and the MX lookup module

    A shallow embedding of [pkg/zdns/resolver.go] (both revisions that the
    file carries), of [src/modules/mxlookup/mx_lookup.go] and of the older
    [modules] MX lookup, followed by the properties of the resolver's
    construction, server selection and of the MX module's address cache.

    Go code is embedded as follows.
    - A function that touches the outside world (network, logger, random
      source, heap-allocated arrays) is a computation in the monad [M]: it
      takes the [World] and finishes with a value and a new world, with
      [log.Fatal] (the process exits), or with a run-time panic.
    - A slice is a header (array, offset, length) into the heap of string
      arrays, so that copying and aliasing are visible.
    - Results of network calls, of the OS resolver file and of the random
      source are read from the world's [Oracle].
    - Declarations that live in other files of the package (mode constants
      and their validity checks, the root server table, ...) are the fields
      of the class [Declared]. *)

From Stdlib Require Import Strings.Byte.
From stdpp Require Import base numbers option list strings pretty.

Set Default Proof Using "Type".

(** ** Go values *)

(** [net.IP] is a byte slice. *)
Definition IP : Type := list Byte.byte.

(** [error]: [None] is Go's [nil] error. *)
Definition error : Type := option string.

(** [time.Duration]: nanoseconds in an [int64]. *)
Definition Duration : Type := Z.
Definition Second : Duration := 1000000000%Z.

(** The heap of string arrays; an array's address is its index. *)
Abbreviation Heap := (list (list string)).

(** A [[]string]: [nil], or a window into an array of the heap. *)
Inductive slice : Type :=
| nil_slice
| mk_slice (arr off len : nat).

Definition slice_len (s : slice) : nat :=
  match s with
  | nil_slice => 0
  | mk_slice _ _ n => n
  end.

Definition slice_is_nil (s : slice) : bool :=
  match s with
  | nil_slice => true
  | mk_slice _ _ _ => false
  end.

(** The elements a slice shows, read from the heap. *)
Definition slice_elems (h : Heap) (s : slice) : list string :=
  match s with
  | nil_slice => []
  | mk_slice a o n => take n (drop o (default [] (h !! a)))
  end.

(** The array a slice points into exists and covers the window. *)
Definition slice_wf (h : Heap) (s : slice) : Prop :=
  match s with
  | nil_slice => True
  | mk_slice a o n => ∃ arr, h !! a = Some arr ∧ o + n ≤ length arr
  end.

(** [s[i] = v]; [None] is the index-out-of-range panic. *)
Definition slice_store (h : Heap) (s : slice) (i : nat) (v : string) : option Heap :=
  match s with
  | nil_slice => None
  | mk_slice a o n =>
      if decide (i < n)
      then arr ← h !! a; Some (<[a := <[o + i := v]> arr]> h)
      else None
  end.

(** [make([]string, n)]: a new zeroed array at the next free address. *)
Definition make_strings (n : nat) (h : Heap) : slice * Heap :=
  (mk_slice (length h) 0 n, h ++ [replicate n ""]).

(** A slice over a newly allocated array holding [l]. *)
Definition alloc_strings (l : list string) (h : Heap) : slice * Heap :=
  (mk_slice (length h) 0 (length l), h ++ [l]).

(** Writes [vs] into the window of [dst], element by element. *)
Fixpoint store_all (h : Heap) (a : nat) (o : nat) (vs : list string) : Heap :=
  match vs with
  | [] => h
  | v :: vs' =>
      store_all (<[a := <[o := v]> (default [] (h !! a))]> h) a (S o) vs'
  end.

(** [copy(dst, src)]: copies [min(len(dst), len(src))] elements and returns
    that count. *)
Definition copy_strings (dst src : slice) (h : Heap) : nat * Heap :=
  let n := slice_len dst `min` slice_len src in
  match dst with
  | nil_slice => (n, h)
  | mk_slice a o _ => (n, store_all h a o (take n (slice_elems h src)))
  end.

(** [strings.HasSuffix] and [strings.TrimSuffix]. *)
Definition HasSuffix (s suffix : string) : bool :=
  bool_decide (String.length suffix ≤ String.length s) &&
  bool_decide (String.substring (String.length s - String.length suffix)
                         (String.length suffix) s = suffix).

Definition TrimSuffix (s suffix : string) : string :=
  if HasSuffix s suffix
  then String.substring 0 (String.length s - String.length suffix) s
  else s.

(** ** Package zdns: declarations *)

(** [Question]: the triple DoSingleDstServerLookup receives.  The methods
    take a [*Question] and dereference it at once; the embedding takes the
    question itself. *)
Record Question := {
  Type_ : Z;
  Class : Z;
  Name : string;
}.

(** [dns.TypeMX] and [dns.ClassINET] of the DNS library. *)
Definition TypeMX : Z := 15.
Definition ClassINET : Z := 1.

(** [type Status string]; the module compares it with [StatusNoError] only.
    The literal is the one of the DNS rcode; no property below depends on
    it. *)
Definition Status : Type := string.
Definition StatusNoError : Status := "NOERROR".

(** Modelled from the spec: the declaration of [Trace] is in another file.
    A trace is an ordered sequence of steps, one per wire query; a step
    records the depth, the queried server and the name. *)
Record TraceStep := {
  step_depth : Z;
  step_server : string;
  step_name : string;
}.
Abbreviation Trace := (list TraceStep).

(** Answers of a [SingleQueryResult] are interface values; the MX module
    tells [PrefAnswer] from the rest with a type assertion. *)
Record Answer := {
  ans_TTL : Z;
  ans_Type : string;
  ans_Class : string;
  ans_Name : string;
  ans_Answer : string;
}.

Record PrefAnswer := {
  pref_Answer : Answer;
  Preference : Z;
}.

Inductive AnswerValue : Type :=
| IsPrefAnswer (a : PrefAnswer)
| IsOtherAnswer (a : Answer).

Record SingleQueryResult := {
  Answers : list AnswerValue;
  Additional : list AnswerValue;
  Authorities : list AnswerValue;
}.

(** What a lookup returns: result pointer ([None] is nil), trace, status and
    error. *)
Definition LookupReturn : Type :=
  option SingleQueryResult * Trace * Status * error.

(** [IPResult] of a targeted lookup. *)
Record IPResult := {
  res_IPv4Addresses : list string;
  res_IPv6Addresses : list string;
}.

Definition TargetedReturn : Type := option IPResult * Trace * Status * error.

(** Declarations of the package that are in other files: the transport and
    IP-version modes with their validity checks, the root server table, and
    [GetIPVersionMode].  The source comments on the table as the set of 13
    root name servers. *)
Class Declared := {
  UDPOrTCP : Z;
  UDPOnly : Z;
  TCPOnly : Z;
  transportMode_isValid : Z → bool * string;
  IPv4OrIPv6 : Z;
  IPVersionMode_IsValid : Z → bool * string;
  RootServers : list string;
  RootServers_count : length RootServers = 13;
  GetIPVersionMode : bool → bool → Z;
}.

(** Constants of resolver.go. *)
Definition googleDNSResolverAddr : string := "8.8.8.8:53".
Definition defaultTimeout : Duration := (15 * Second)%Z.
Definition defaultIterativeTimeout : Duration := (4 * Second)%Z.
Definition defaultShouldRecycleSockets : bool := true.
Definition defaultLogVerbosity : Z := 3.
Definition defaultRetries : Z := 1.
Definition defaultMaxDepth : Z := 10.
Definition defaultCheckingDisabledBit : bool := false.
Definition defaultCacheSize : Z := 10000.
Definition defaultDNSSECEnabled : bool := false.
Definition defaultNameServerConfigFile : string := "/etc/resolv.conf".

(** A [Lookuper] value is known by its identity; what it answers is the
    oracle's. *)
Definition Lookuper : Type := nat.
Definition LookupClient : Lookuper := 0.

(** [*Cache] and [*blacklist.SafeBlacklist]: [None] is the nil pointer. *)
Definition CachePtr : Type := option nat.
Definition BlacklistPtr : Type := option nat.

Record ResolverConfig := {
  cfg_Cache : CachePtr;
  CacheSize : Z;
  cfg_LookupClient : Lookuper;
  cfg_Blacklist : BlacklistPtr;
  LocalAddrs : list IP;
  Retries : Z;
  LogLevel : Z;
  TransportMode : Z;
  IPVersionMode : Z;
  ShouldRecycleSockets : bool;
  IsIterative : bool;
  IterativeTimeout : Duration;
  Timeout : Duration;
  MaxDepth : Z;
  ExternalNameServers : slice;
  DNSSecEnabled : bool;
  EdnsOptions : list Z;
  CheckingDisabledBit : bool;
}.

(** [dns.Client] with its [net.Dialer]. *)
Record Client := {
  Net : string;
  client_Timeout : Duration;
  Dialer_Timeout : Duration;
  Dialer_LocalAddr : IP;
}.

(** A network connection: its identity and the local address it is bound
    to. *)
Record Conn := {
  conn_id : nat;
  conn_LocalAddr : IP;
}.

Record Resolver := {
  cache : CachePtr;
  lookupClient : Lookuper;
  blacklist : BlacklistPtr;
  udpClient : option Client;
  tcpClient : option Client;
  conn : option Conn;
  localAddr : IP;
  retries : Z;
  logLevel : Z;
  transportMode : Z;
  ipVersionMode : Z;
  shouldRecycleSockets : bool;
  iterativeTimeout : Duration;
  timeout : Duration;
  maxDepth : Z;
  externalNameServers : slice;
  rootNameServers : slice;
  lookupAllNameServers : bool;
  dnsSecEnabled : bool;
  ednsOptions : list Z;
  checkingDisabledBit : bool;
}.

(** Field assignments [r.f = v] used by InitResolver. *)
Definition set_localAddr (v : IP) (r : Resolver) : Resolver :=
  {| cache := cache r; lookupClient := lookupClient r; blacklist := blacklist r;
     udpClient := udpClient r; tcpClient := tcpClient r; conn := conn r;
     localAddr := v; retries := retries r; logLevel := logLevel r;
     transportMode := transportMode r; ipVersionMode := ipVersionMode r;
     shouldRecycleSockets := shouldRecycleSockets r;
     iterativeTimeout := iterativeTimeout r; timeout := timeout r;
     maxDepth := maxDepth r; externalNameServers := externalNameServers r;
     rootNameServers := rootNameServers r;
     lookupAllNameServers := lookupAllNameServers r;
     dnsSecEnabled := dnsSecEnabled r; ednsOptions := ednsOptions r;
     checkingDisabledBit := checkingDisabledBit r |}.

Definition set_conn (v : option Conn) (r : Resolver) : Resolver :=
  {| cache := cache r; lookupClient := lookupClient r; blacklist := blacklist r;
     udpClient := udpClient r; tcpClient := tcpClient r; conn := v;
     localAddr := localAddr r; retries := retries r; logLevel := logLevel r;
     transportMode := transportMode r; ipVersionMode := ipVersionMode r;
     shouldRecycleSockets := shouldRecycleSockets r;
     iterativeTimeout := iterativeTimeout r; timeout := timeout r;
     maxDepth := maxDepth r; externalNameServers := externalNameServers r;
     rootNameServers := rootNameServers r;
     lookupAllNameServers := lookupAllNameServers r;
     dnsSecEnabled := dnsSecEnabled r; ednsOptions := ednsOptions r;
     checkingDisabledBit := checkingDisabledBit r |}.

Definition set_udpClient (v : option Client) (r : Resolver) : Resolver :=
  {| cache := cache r; lookupClient := lookupClient r; blacklist := blacklist r;
     udpClient := v; tcpClient := tcpClient r; conn := conn r;
     localAddr := localAddr r; retries := retries r; logLevel := logLevel r;
     transportMode := transportMode r; ipVersionMode := ipVersionMode r;
     shouldRecycleSockets := shouldRecycleSockets r;
     iterativeTimeout := iterativeTimeout r; timeout := timeout r;
     maxDepth := maxDepth r; externalNameServers := externalNameServers r;
     rootNameServers := rootNameServers r;
     lookupAllNameServers := lookupAllNameServers r;
     dnsSecEnabled := dnsSecEnabled r; ednsOptions := ednsOptions r;
     checkingDisabledBit := checkingDisabledBit r |}.

Definition set_tcpClient (v : option Client) (r : Resolver) : Resolver :=
  {| cache := cache r; lookupClient := lookupClient r; blacklist := blacklist r;
     udpClient := udpClient r; tcpClient := v; conn := conn r;
     localAddr := localAddr r; retries := retries r; logLevel := logLevel r;
     transportMode := transportMode r; ipVersionMode := ipVersionMode r;
     shouldRecycleSockets := shouldRecycleSockets r;
     iterativeTimeout := iterativeTimeout r; timeout := timeout r;
     maxDepth := maxDepth r; externalNameServers := externalNameServers r;
     rootNameServers := rootNameServers r;
     lookupAllNameServers := lookupAllNameServers r;
     dnsSecEnabled := dnsSecEnabled r; ednsOptions := ednsOptions r;
     checkingDisabledBit := checkingDisabledBit r |}.

Definition set_servers (ext root : slice) (it : Duration) (depth : Z)
    (r : Resolver) : Resolver :=
  {| cache := cache r; lookupClient := lookupClient r; blacklist := blacklist r;
     udpClient := udpClient r; tcpClient := tcpClient r; conn := conn r;
     localAddr := localAddr r; retries := retries r; logLevel := logLevel r;
     transportMode := transportMode r; ipVersionMode := ipVersionMode r;
     shouldRecycleSockets := shouldRecycleSockets r;
     iterativeTimeout := it; timeout := timeout r;
     maxDepth := depth; externalNameServers := ext;
     rootNameServers := root;
     lookupAllNameServers := lookupAllNameServers r;
     dnsSecEnabled := dnsSecEnabled r; ednsOptions := ednsOptions r;
     checkingDisabledBit := checkingDisabledBit r |}.

Definition set_externalNameServers (ext : slice) (r : Resolver) : Resolver :=
  set_servers ext (rootNameServers r) (iterativeTimeout r) (maxDepth r) r.

(** ** The world: heap, logger, network and random source *)

(** What the program does to the outside, in order. *)
Inductive Event : Type :=
| EvSetLevel (level : Z)
| EvDial (network address : string)
| EvClose (c : nat)
| EvListenUDP (ip : IP)
| EvLogError (msg : string)
| EvLogWarn (msg : string)
| EvLogInfo (msg : string)
| EvGetDNSServers (path : string)
| EvSingleDstServerLookup (lc : Lookuper) (q : Question) (dstServer : string)
    (isIterative : bool)
| EvTargetedLookup (name nameServer : string)
    (isIterative lookupIPv4 lookupIPv6 : bool)
| EvModulesTargetedLookup (name nameServer : string)
    (lookupIpv4 lookupIpv6 : bool)
| EvSingleNameserverLookup (lc : Lookuper) (q : Question) (nameServer : string)
| EvLookupAllNameservers (q : Question) (nameServer : string).

(** What the outside answers.  The lookups at the bottom are code of the
    package in other files ([Lookuper.DoSingleDstServerLookup],
    [Resolver.DoTargetedLookup] and the older [DoTargetedLookup]): they are
    taken to return, and what they return may depend on everything that
    happened before. *)
Record Oracle := {
  rand_draw : nat → nat;
  Dial_result : string → string → IP + string;
  Close_result : nat → error;
  ListenUDP_result : IP → error;
  GetDNSServers_result : string → list string * error;
  GetDefaultResolvers_result : list string;
  DoSingleDstServerLookup_result :
    list Event → Lookuper → Resolver → Question → string → bool → LookupReturn;
  DoTargetedLookup_result :
    list Event → Resolver → string → string → bool → bool → bool →
    TargetedReturn;
  modules_DoTargetedLookup_result :
    list Event → Resolver → string → string → bool → bool → TargetedReturn;
}.

Record World := {
  oracle : Oracle;
  heap : Heap;
  caches : list Z;      (* the Cache objects, by capacity *)
  rand_pos : nat;       (* draws made from the random source *)
  next_conn : nat;      (* connections opened *)
  events : list Event;
}.

Definition with_heap (h : Heap) (w : World) : World :=
  {| oracle := oracle w; heap := h; caches := caches w;
     rand_pos := rand_pos w; next_conn := next_conn w; events := events w |}.

Definition with_caches (c : list Z) (w : World) : World :=
  {| oracle := oracle w; heap := heap w; caches := c;
     rand_pos := rand_pos w; next_conn := next_conn w; events := events w |}.

Definition with_rand_pos (n : nat) (w : World) : World :=
  {| oracle := oracle w; heap := heap w; caches := caches w;
     rand_pos := n; next_conn := next_conn w; events := events w |}.

Definition with_next_conn (n : nat) (w : World) : World :=
  {| oracle := oracle w; heap := heap w; caches := caches w;
     rand_pos := rand_pos w; next_conn := n; events := events w |}.

Definition with_events (e : list Event) (w : World) : World :=
  {| oracle := oracle w; heap := heap w; caches := caches w;
     rand_pos := rand_pos w; next_conn := next_conn w; events := e |}.

(** How a computation ends. *)
Inductive Outcome (A : Type) : Type :=
| Done (a : A) (w : World)
| Fatal (msg : string)     (* log.Fatal: the process exits *)
| Panic (msg : string).    (* run-time panic *)
Arguments Done {A} a w.
Arguments Fatal {A} msg.
Arguments Panic {A} msg.

Definition M (A : Type) : Type := World → Outcome A.

#[global] Instance M_ret : MRet M := λ A a w, Done a w.

#[global] Instance M_bind : MBind M := λ A B f m w,
  match m w with
  | Done a w' => f a w'
  | Fatal msg => Fatal msg
  | Panic msg => Panic msg
  end.

Definition log_Fatal {A : Type} (msg : string) : M A := λ _, Fatal msg.
Definition panic {A : Type} (msg : string) : M A := λ _, Panic msg.

Definition emit (e : Event) : M unit :=
  λ w, Done () (with_events (events w ++ [e]) w).

Definition when (b : bool) (m : M unit) : M unit :=
  if b then m else mret ().

(** [rand.Intn(n)]: panics unless [n > 0], else the next draw reduced to
    [[0, n)]. *)
Definition rand_Intn (n : nat) : M nat := λ w,
  if decide (n = 0) then Panic "invalid argument to Intn"
  else Done (rand_draw (oracle w) (rand_pos w) `mod` n)
            (with_rand_pos (S (rand_pos w)) w).

(** [s[i]] on a slice of strings. *)
Definition index_strings (s : slice) (i : nat) : M string := λ w,
  match slice_elems (heap w) s !! i with
  | Some v => Done v w
  | None => Panic "index out of range"
  end.

(** [l[i]] on a Go slice held as a list. *)
Definition index_list {A : Type} (l : list A) (i : nat) : M A :=
  match l !! i with
  | Some v => mret v
  | None => panic "index out of range"
  end.

Definition go_make_strings (n : nat) : M slice := λ w,
  let '(s, h) := make_strings n (heap w) in Done s (with_heap h w).

Definition go_alloc_strings (l : list string) : M slice := λ w,
  let '(s, h) := alloc_strings l (heap w) in Done s (with_heap h w).

Definition go_copy_strings (dst src : slice) : M nat := λ w,
  let '(n, h) := copy_strings dst src (heap w) in Done n (with_heap h w).

(** [c := new(Cache); c.Init(size)]. *)
Definition new_Cache (size : Z) : M CachePtr := λ w,
  Done (Some (length (caches w))) (with_caches (caches w ++ [size]) w).

(** [net.Dial]: the connection, or the error. *)
Definition net_Dial (network address : string) : M (Conn + string) := λ w,
  let w' := with_events (events w ++ [EvDial network address]) w in
  match Dial_result (oracle w) network address with
  | inl ip =>
      Done (inl {| conn_id := next_conn w; conn_LocalAddr := ip |})
           (with_next_conn (S (next_conn w)) w')
  | inr err => Done (inr err) w'
  end.

(** [conn.Close()]. *)
Definition Conn_Close (c : Conn) : M error := λ w,
  Done (Close_result (oracle w) (conn_id c))
       (with_events (events w ++ [EvClose (conn_id c)]) w).

(** [net.ListenUDP("udp", &net.UDPAddr{IP: ip})]. *)
Definition net_ListenUDP (ip : IP) : M (Conn + string) := λ w,
  let w' := with_events (events w ++ [EvListenUDP ip]) w in
  match ListenUDP_result (oracle w) ip with
  | None =>
      Done (inl {| conn_id := next_conn w; conn_LocalAddr := ip |})
           (with_next_conn (S (next_conn w)) w')
  | Some err => Done (inr err) w'
  end.

(** [GetDNSServers(path)] reads the OS resolver file. *)
Definition GetDNSServers (path : string) : M (slice * error) :=
  _ ← emit (EvGetDNSServers path);
  w ← (λ w, Done w w);
  let '(ns, err) := GetDNSServers_result (oracle w) path in
  s ← go_alloc_strings ns;
  mret (s, err).

(** [util.GetDefaultResolvers()]. *)
Definition GetDefaultResolvers : M slice :=
  w ← (λ w, Done w w);
  go_alloc_strings (GetDefaultResolvers_result (oracle w)).

(** [strings.Join(s, sep)] on a slice of the heap. *)
Definition strings_Join (s : slice) (sep : string) : M string := λ w,
  Done (String.concat sep (slice_elems (heap w) s)) w.

(** [lookupClient.DoSingleDstServerLookup(r, q, dstServer, isIterative)].
    The client's code is in another file: it is given the Resolver to read,
    and what it returns is the oracle's. *)
Definition DoSingleDstServerLookup (lc : Lookuper) (r : Resolver)
    (q : Question) (dstServer : string) (isIterative : bool) : M LookupReturn :=
  λ w,
  Done (DoSingleDstServerLookup_result (oracle w) (events w) lc r q dstServer
          isIterative)
       (with_events
          (events w ++ [EvSingleDstServerLookup lc q dstServer isIterative]) w).

(** [r.DoTargetedLookup(name, nameServer, isIterative, ipv4, ipv6)]. *)
Definition DoTargetedLookup (r : Resolver) (name nameServer : string)
    (isIterative lookupIPv4 lookupIPv6 : bool) : M TargetedReturn := λ w,
  Done (DoTargetedLookup_result (oracle w) (events w) r name nameServer
          isIterative lookupIPv4 lookupIPv6)
       (with_events
          (events w ++
           [EvTargetedLookup name nameServer isIterative lookupIPv4 lookupIPv6])
          w).

(** The package-level [DoTargetedLookup(r, name, nameServer, ipv4, ipv6)] of
    the older [modules] package. *)
Definition modules_DoTargetedLookup (r : Resolver) (name nameServer : string)
    (lookupIpv4 lookupIpv6 : bool) : M TargetedReturn := λ w,
  Done (modules_DoTargetedLookup_result (oracle w) (events w) r name
          nameServer lookupIpv4 lookupIpv6)
       (with_events
          (events w ++
           [EvModulesTargetedLookup name nameServer lookupIpv4 lookupIpv6]) w).

(** The package-level array [RootServers] lives at the first address of the
    heap. *)
Definition RootServers_addr : nat := 0.

(** ** pkg/zdns/resolver.go *)

Module zdns.
Section resolver.
Context `{D : Declared}.

(** [ResolverConfig.isValid]. *)
Definition isValid (rc : ResolverConfig) : bool * string :=
  let '(ok, reason) := transportMode_isValid (TransportMode rc) in
  if negb ok then (false, reason)
  else
    let '(ok, reason) := IPVersionMode_IsValid (IPVersionMode rc) in
    if negb ok then (false, reason)
    else if bool_decide (cfg_Cache rc ≠ None) && bool_decide (CacheSize rc ≠ 0%Z)
    then (false, "cannot use both cache and cacheSize")
    else (true, "").

(** Lines 150-159: the cache. *)
Definition choose_cache (config : ResolverConfig) : M CachePtr :=
  if bool_decide (CacheSize config ≠ 0%Z) then new_Cache (CacheSize config)
  else match cfg_Cache config with
       | Some p => mret (Some p)
       | None => new_Cache defaultCacheSize
       end.

(** The composite literal [&Resolver{...}] of InitResolver; the fields it
    does not name have their zero value, [localAddr] among them. *)
Definition Resolver_literal (config : ResolverConfig) (c : CachePtr) : Resolver :=
  {| cache := c;
     lookupClient := cfg_LookupClient config;
     blacklist := cfg_Blacklist config;
     udpClient := None;
     tcpClient := None;
     conn := None;
     localAddr := [];
     retries := Retries config;
     logLevel := LogLevel config;
     transportMode := TransportMode config;
     ipVersionMode := IPVersionMode config;
     shouldRecycleSockets := ShouldRecycleSockets config;
     iterativeTimeout := 0%Z;
     timeout := Timeout config;
     maxDepth := 0%Z;
     externalNameServers := nil_slice;
     rootNameServers := nil_slice;
     lookupAllNameServers := false;
     dnsSecEnabled := DNSSecEnabled config;
     ednsOptions := EdnsOptions config;
     checkingDisabledBit := CheckingDisabledBit config |}.

(** Lines 181-195: the local address.  [inr] is the early [return nil, err]. *)
Definition find_localAddr (config : ResolverConfig) (r : Resolver)
    : M (Resolver + string) :=
  if bool_decide (length (localAddr r) = 0) then
    d ← net_Dial "udp" googleDNSResolverAddr;
    match d with
    | inr err =>
        mret (inr ("unable to find default IP address to open socket: " +:+ err))
    | inl c =>
        let r := set_localAddr (conn_LocalAddr c) r in
        cerr ← Conn_Close c;
        _ ← match cerr with
            | Some err =>
                emit (EvLogError
                  ("unable to close test connection to Google public DNS: " +:+ err))
            | None => mret ()
            end;
        mret (inl r)
    end
  else
    i ← rand_Intn (length (LocalAddrs config));
    a ← index_list (LocalAddrs config) i;
    mret (inl (set_localAddr a r)).

(** Lines 196-204: the persistent connection. *)
Definition recycle_socket (r : Resolver) : M (Resolver + string) :=
  if shouldRecycleSockets r then
    l ← net_ListenUDP (localAddr r);
    match l with
    | inr err => mret (inr ("unable to create UDP connection: " +:+ err))
    | inl c => mret (inl (set_conn (Some c) r))
    end
  else mret (inl r).

(** Lines 206-224: the clients. *)
Definition make_clients (config : ResolverConfig) (r : Resolver) : Resolver :=
  let usingUDP :=
    bool_decide (transportMode r = UDPOrTCP) || bool_decide (transportMode r = UDPOnly) in
  let r :=
    if usingUDP then
      set_udpClient
        (Some {| Net := ""; client_Timeout := timeout r;
                 Dialer_Timeout := timeout r;
                 Dialer_LocalAddr := localAddr r |}) r
    else r in
  let usingTCP :=
    bool_decide (transportMode r = UDPOrTCP) || bool_decide (transportMode r = TCPOnly) in
  if usingTCP then
    set_tcpClient
      (Some {| Net := "tcp"; client_Timeout := timeout r;
               Dialer_Timeout := Timeout config;
               Dialer_LocalAddr := localAddr r |}) r
  else r.

(** Lines 237-244: the client named no server, the OS's are used. *)
Definition default_name_servers (r : Resolver) : M Resolver :=
  '(ns, err) ← GetDNSServers defaultNameServerConfigFile;
  ns ← match err with
       | Some e =>
           ns ← GetDefaultResolvers;
           joined ← strings_Join ns ", ";
           _ ← emit (EvLogWarn
                 ("Unable to parse resolvers file with error %w. Using ZDNS defaults: "
                  +:+ e +:+ joined));
           mret ns
       | None => mret ns
       end;
  let r := set_externalNameServers ns r in
  joined ← strings_Join (externalNameServers r) ", ";
  _ ← emit (EvLogInfo ("No name servers specified. will use: " +:+ joined));
  mret r.

(** Lines 225-245: the server lists. *)
Definition set_name_servers (config : ResolverConfig) (r : Resolver) : M Resolver :=
  ext ← go_make_strings (slice_len (ExternalNameServers config));
  elemsCopied ← go_copy_strings ext (ExternalNameServers config);
  _ ← when (bool_decide (elemsCopied ≠ slice_len (ExternalNameServers config)))
        (log_Fatal "failed to copy entire name servers list from config");
  let r :=
    set_servers ext (mk_slice RootServers_addr 0 (length RootServers))
      (IterativeTimeout config) (MaxDepth config) r in
  if slice_is_nil (externalNameServers r)
     || bool_decide (slice_len (externalNameServers r) = 0)
  then default_name_servers r
  else mret r.

(** [InitResolver]: the Resolver pointer ([None] is nil) and the error. *)
Definition InitResolver (config : ResolverConfig) : M (option Resolver * error) :=
  let '(ok, notValidReason) := isValid config in
  if negb ok
  then mret (None, Some ("invalid resolver config: " +:+ notValidReason))
  else
    c ← choose_cache config;
    let r := Resolver_literal config c in
    _ ← emit (EvSetLevel (logLevel r));
    x ← find_localAddr config r;
    match x with
    | inr err => mret (None, Some err)
    | inl r =>
        x ← recycle_socket r;
        match x with
        | inr err => mret (None, Some err)
        | inl r =>
            r ← set_name_servers config (make_clients config r);
            mret (Some r, None)
        end
    end.

(** [Resolver.randomExternalNameServer]. *)
Definition randomExternalNameServer (r : Resolver) : M string :=
  let l := slice_len (externalNameServers r) in
  _ ← when (slice_is_nil (externalNameServers r) || bool_decide (l = 0))
        (log_Fatal "no external name servers specified");
  i ← rand_Intn l;
  index_strings (externalNameServers r) i.

(** [Resolver.randomRootNameServer]. *)
Definition randomRootNameServer (r : Resolver) : M string :=
  let l := slice_len (rootNameServers r) in
  _ ← when (slice_is_nil (rootNameServers r) || bool_decide (l = 0))
        (log_Fatal "no root name servers specified");
  i ← rand_Intn l;
  index_strings (rootNameServers r) i.

(** [Resolver.ExternalLookup]. *)
Definition ExternalLookup (r : Resolver) (q : Question) (dstServer : string)
    : M LookupReturn :=
  dstServer ← (if bool_decide (dstServer = "")
               then randomExternalNameServer r
               else mret dstServer);
  DoSingleDstServerLookup (lookupClient r) r q dstServer false.

(** [Resolver.IterativeLookup]. *)
Definition IterativeLookup (r : Resolver) (q : Question) : M LookupReturn :=
  dstServer ← randomRootNameServer r;
  DoSingleDstServerLookup (lookupClient r) r q dstServer true.

(** [Resolver.Close]. *)
Definition Close (r : Resolver) : M unit :=
  match conn r with
  | Some c =>
      cerr ← Conn_Close c;
      match cerr with
      | Some err => emit (EvLogError ("error closing connection: " +:+ err))
      | None => mret ()
      end
  | None => mret ()
  end.

End resolver.
End zdns.

(** ** pkg/zdns/resolver.go, the earlier revision

    One server list ([nameServers]) and one entry point ([Lookup]). *)

Module zdns_prev.

Record Resolver := {
  lookupClient : Lookuper;
  nameServers : slice;
  lookupAllNameServers : bool;
  isIterative : bool;
}.

Record Result := {
  Data : option SingleQueryResult;
  res_Trace : Trace;
  res_Status : string;
}.

Section resolver.
(** [Resolver.doLookupAllNameservers] and [Lookuper.DoSingleNameserverLookup]
    are in other files: what they answer, given what happened so far. *)
Variable doLookupAllNameservers_result :
  list Event → Resolver → Question → string → LookupReturn.
Variable DoSingleNameserverLookup_result :
  list Event → Lookuper → Resolver → Question → string → LookupReturn.

Definition doLookupAllNameservers (r : Resolver) (q : Question) (ns : string)
    : M LookupReturn := λ w,
  Done (doLookupAllNameservers_result (events w) r q ns)
       (with_events (events w ++ [EvLookupAllNameservers q ns]) w).

Definition DoSingleNameserverLookup (lc : Lookuper) (r : Resolver)
    (q : Question) (ns : string) : M LookupReturn := λ w,
  Done (DoSingleNameserverLookup_result (events w) lc r q ns)
       (with_events (events w ++ [EvSingleNameserverLookup lc q ns]) w).

(** [Resolver.randomNameServer]. *)
Definition randomNameServer (r : Resolver) : M string :=
  _ ← when (slice_is_nil (nameServers r) || bool_decide (slice_len (nameServers r) = 0))
        (log_Fatal "No name servers specified");
  let l := slice_len (nameServers r) in
  _ ← when (bool_decide (l = 0)) (log_Fatal "No name servers specified");
  i ← rand_Intn l;
  index_strings (nameServers r) i.

(** [Resolver.Lookup]. *)
Definition Lookup (r : Resolver) (q : Question) : M (option Result * error) :=
  ns ← randomNameServer r;
  if lookupAllNameServers r then
    '(res, fullTrace, status, err) ← doLookupAllNameservers r q ns;
    match err with
    | Some e =>
        mret (None,
              Some ("error resolving name " +:+ Name q +:+
                    " for all name servers based on initial server " +:+ ns +:+
                    ": " +:+ e))
    | None =>
        mret (Some {| Data := res; res_Trace := fullTrace; res_Status := status |},
              None)
    end
  else
    '(res, fullTrace, status, err) ← DoSingleNameserverLookup (lookupClient r) r q ns;
    match err with
    | Some e =>
        mret (None,
              Some ("error resolving name " +:+ Name q +:+
                    " for a single name server " +:+ ns +:+ ": " +:+ e))
    | None =>
        mret (Some {| Data := res; res_Trace := fullTrace; res_Status := status |},
              None)
    end.

End resolver.
End zdns_prev.

(** ** The module's name-to-address cache *)

Module cachehash.
Section cache.
Context {V : Type}.

(** Modelled from the spec: package [cachehash] is not among the sources.
    The specification asks a consumer such as the MX module for a bounded
    name-to-result cache of its own; for the engine's cache it describes a
    fixed maximum capacity, where an insertion beyond capacity evicts in
    least-recently-used order and a fresh value overwrites the entry of its
    key.  The same is taken here, with no expiry of entries: the module
    passes none.  The entries are kept most recently used first. *)
Record CacheHash := {
  maxLen : Z;
  entries : list (string * V);
}.

Definition Init (size : Z) : CacheHash :=
  {| maxLen := size; entries := [] |}.

Fixpoint assoc (k : string) (es : list (string * V)) : option V :=
  match es with
  | [] => None
  | (k', v) :: es' => if decide (k' = k) then Some v else assoc k es'
  end.

Definition find (k : string) (c : CacheHash) : option V := assoc k (entries c).

Definition remove (k : string) (es : list (string * V)) : list (string * V) :=
  filter (λ e, fst e ≠ k) es.

(** Modelled from the spec: [Get] returns the value of the key, and the
    entry becomes the most recently used one. *)
Definition Get (k : string) (c : CacheHash) : option V * CacheHash :=
  match find k c with
  | Some v =>
      (Some v, {| maxLen := maxLen c; entries := (k, v) :: remove k (entries c) |})
  | None => (None, c)
  end.

(** Modelled from the spec: [Upsert] (and [Add] of the older revision)
    puts the entry at the front, over any entry of its key; what exceeds
    the capacity falls off the least recently used end. *)
Definition Upsert (k : string) (v : V) (c : CacheHash) : CacheHash :=
  {| maxLen := maxLen c;
     entries := take (Z.to_nat (maxLen c)) ((k, v) :: remove k (entries c)) |}.

Definition Add (k : string) (v : V) (c : CacheHash) : CacheHash := Upsert k v c.

End cache.
Arguments CacheHash V : clear implicits.
End cachehash.

(** ** src/modules/mxlookup/mx_lookup.go *)

Record CachedAddresses := {
  IPv4Addresses : list string;
  IPv6Addresses : list string;
}.

Record MXRecord := {
  mx_Name : string;
  mx_Type : string;
  mx_Class : string;
  mx_Preference : Z;
  mx_IPv4Addresses : list string;
  mx_IPv6Addresses : list string;
  mx_TTL : Z;
}.

Record MXResult := {
  Servers : list MXRecord;
}.

(** [retv] of the two address lookups: the zero value [CachedAddresses{}],
    filled in when [status == StatusNoError && result != nil]. *)
Definition addresses_of (status : Status) (result : option IPResult)
    : CachedAddresses :=
  match result with
  | Some res =>
      if bool_decide (status = StatusNoError)
      then {| IPv4Addresses := res_IPv4Addresses res;
              IPv6Addresses := res_IPv6Addresses res |}
      else {| IPv4Addresses := []; IPv6Addresses := [] |}
  | None => {| IPv4Addresses := []; IPv6Addresses := [] |}
  end.

Module mxlookup.

(** [cli.BasicLookupModule] is embedded in the module; the MX code reads its
    [IsIterative]. *)
Record BasicLookupModule := {
  mod_IsIterative : bool;
  mod_LookupAllNameServers : bool;
}.

(** [CacheHash] is a pointer: [None] until [Init] has run.  The mutex
    [CHmu] brackets each cache access; calls are sequential here. *)
Record MXLookupModule := {
  IPv4Lookup : bool;
  IPv6Lookup : bool;
  MXCacheSize : Z;
  CacheHash : option (cachehash.CacheHash CachedAddresses);
  Basic : BasicLookupModule;
}.

Definition set_IPv4Lookup (b : bool) (m : MXLookupModule) : MXLookupModule :=
  {| IPv4Lookup := b; IPv6Lookup := IPv6Lookup m; MXCacheSize := MXCacheSize m;
     CacheHash := CacheHash m; Basic := Basic m |}.

Definition set_CacheHash (c : option (cachehash.CacheHash CachedAddresses))
    (m : MXLookupModule) : MXLookupModule :=
  {| IPv4Lookup := IPv4Lookup m; IPv6Lookup := IPv6Lookup m;
     MXCacheSize := MXCacheSize m; CacheHash := c; Basic := Basic m |}.

Definition set_Basic (b : BasicLookupModule) (m : MXLookupModule) : MXLookupModule :=
  {| IPv4Lookup := IPv4Lookup m; IPv6Lookup := IPv6Lookup m;
     MXCacheSize := MXCacheSize m; CacheHash := CacheHash m; Basic := b |}.

Section module.
Context `{D : Declared}.
(** [cli.CLIConf] and [BasicLookupModule.CLIInit] are in package cli. *)
Variable CLIConf : Type.
Variable BasicLookupModule_CLIInit :
  CLIConf → ResolverConfig → BasicLookupModule → BasicLookupModule * error.

(** [MXLookupModule.Init]. *)
Definition Init (mxMod : MXLookupModule) : M MXLookupModule :=
  _ ← when (negb (IPv4Lookup mxMod) && negb (IPv6Lookup mxMod))
        (log_Fatal "At least one of ipv4-lookup or ipv6-lookup must be true");
  _ ← when (bool_decide (MXCacheSize mxMod ≤ 0)%Z)
        (log_Fatal ("mxCacheSize must be greater than 0, got " +:+
                    pretty (MXCacheSize mxMod)));
  mret (set_CacheHash (Some (cachehash.Init (MXCacheSize mxMod))) mxMod).

(** [MXLookupModule.CLIInit]. *)
Definition CLIInit (gc : CLIConf) (rc : ResolverConfig) (mxMod : MXLookupModule)
    : M (MXLookupModule * error) :=
  let mxMod :=
    if negb (IPv4Lookup mxMod) && negb (IPv6Lookup mxMod)
    then set_IPv4Lookup true mxMod
    else mxMod in
  mxMod ← Init mxMod;
  let '(b, err) := BasicLookupModule_CLIInit gc rc (Basic mxMod) in
  let mxMod := set_Basic b mxMod in
  match err with
  | Some e => mret (mxMod, Some ("failed to initialize BasicLookupModule: " +:+ e))
  | None => mret (mxMod, None)
  end.

(** [MXLookupModule.lookupIPs]: the addresses, the trace, and the module
    with its cache as the call leaves it. *)
Definition lookupIPs (mxMod : MXLookupModule) (r : Resolver)
    (name nameServer : string) (ipMode : Z)
    : M (CachedAddresses * Trace * MXLookupModule) :=
  match CacheHash mxMod with
  | None => panic "invalid memory address or nil pointer dereference"
  | Some c =>
      let '(res, c) := cachehash.Get name c in
      let mxMod := set_CacheHash (Some c) mxMod in
      match res with
      | Some found => mret (found, [], mxMod)
      | None =>
          '(result, trace, status, _) ←
            DoTargetedLookup r name nameServer (mod_IsIterative (Basic mxMod))
              (IPv4Lookup mxMod) (IPv6Lookup mxMod);
          let retv := addresses_of status result in
          let mxMod := set_CacheHash (Some (cachehash.Upsert name retv c)) mxMod in
          mret (retv, trace, mxMod)
      end
  end.

(** The body of the loop of [Lookup] over [res.Answers]. *)
Fixpoint lookup_answers (mxMod : MXLookupModule) (r : Resolver)
    (nameServer : string) (ipMode : Z) (answers : list AnswerValue)
    (servers : list MXRecord) (trace : Trace)
    : M (list MXRecord * Trace * MXLookupModule) :=
  match answers with
  | [] => mret (servers, trace, mxMod)
  | IsPrefAnswer mxAns :: rest =>
      let lookupName := TrimSuffix (ans_Answer (pref_Answer mxAns)) "." in
      '(ips, secondTrace, mxMod) ← lookupIPs mxMod r lookupName nameServer ipMode;
      let rec :=
        {| mx_Name := lookupName;
           mx_Type := ans_Type (pref_Answer mxAns);
           mx_Class := ans_Class (pref_Answer mxAns);
           mx_Preference := Preference mxAns;
           mx_IPv4Addresses := IPv4Addresses ips;
           mx_IPv6Addresses := IPv6Addresses ips;
           mx_TTL := ans_TTL (pref_Answer mxAns) |} in
      lookup_answers mxMod r nameServer ipMode rest (servers ++ [rec])
        (trace ++ secondTrace)
  | IsOtherAnswer _ :: rest =>
      lookup_answers mxMod r nameServer ipMode rest servers trace
  end.

(** [MXLookupModule.Lookup]. *)
Definition Lookup (mxMod : MXLookupModule) (r : Resolver)
    (lookupName nameServer : string)
    : M (option MXResult * Trace * Status * error * MXLookupModule) :=
  let ipMode := GetIPVersionMode (IPv4Lookup mxMod) (IPv6Lookup mxMod) in
  let q := {| Type_ := TypeMX; Class := ClassINET; Name := lookupName |} in
  '(res, trace, status, err) ←
    (if mod_IsIterative (Basic mxMod)
     then zdns.IterativeLookup r q
     else zdns.ExternalLookup r q nameServer);
  if bool_decide (status ≠ StatusNoError) || bool_decide (err ≠ None)
  then mret (None, trace, status, err, mxMod)
  else
    match res with
    | None => panic "invalid memory address or nil pointer dereference"
    | Some res =>
        '(servers, trace, mxMod) ←
          lookup_answers mxMod r nameServer ipMode (Answers res) [] trace;
        mret (Some {| Servers := servers |}, trace, StatusNoError, None, mxMod)
    end.

End module.
End mxlookup.

(** ** The older MX lookup of package modules *)

Module modules.

Record MXLookup := {
  IPv4Lookup : bool;
  IPv6Lookup : bool;
  MXCacheSize : Z;
  CacheHash : option (cachehash.CacheHash CachedAddresses);
}.

Definition set_CacheHash (c : option (cachehash.CacheHash CachedAddresses))
    (m : MXLookup) : MXLookup :=
  {| IPv4Lookup := IPv4Lookup m; IPv6Lookup := IPv6Lookup m;
     MXCacheSize := MXCacheSize m; CacheHash := c |}.

(** [MXLookup.LookupIPs]; the receiver is a pointer, [None] when nil. *)
Definition LookupIPs (mxLookup : option MXLookup) (r : Resolver)
    (name nameServer : string) (lookupIpv4 lookupIpv6 : bool)
    : M (CachedAddresses * Trace * MXLookup) :=
  match mxLookup with
  | None => log_Fatal "mxLookup is not initialized"
  | Some mxLookup =>
      match CacheHash mxLookup with
      | None => panic "invalid memory address or nil pointer dereference"
      | Some c =>
          let '(res, c) := cachehash.Get name c in
          let mxLookup := set_CacheHash (Some c) mxLookup in
          match res with
          | Some found => mret (found, [], mxLookup)
          | None =>
              '(result, trace, status, _) ←
                modules_DoTargetedLookup r name nameServer lookupIpv4 lookupIpv6;
              let retv := addresses_of status result in
              let mxLookup :=
                set_CacheHash (Some (cachehash.Add name retv c)) mxLookup in
              mret (retv, trace, mxLookup)
          end
      end
  end.

Section lookup.
Context `{D : Declared}.

(** The loop of [DoLookup] over [res.Answers]. *)
Fixpoint lookup_answers (mxLookup : MXLookup) (r : Resolver)
    (nameServer : string) (lookupIpv4 lookupIpv6 : bool)
    (answers : list AnswerValue) (servers : list MXRecord) (trace : Trace)
    : M (list MXRecord * Trace * MXLookup) :=
  match answers with
  | [] => mret (servers, trace, mxLookup)
  | IsPrefAnswer mxAns :: rest =>
      let name := TrimSuffix (ans_Answer (pref_Answer mxAns)) "." in
      '(ips, secondTrace, mxLookup) ←
        LookupIPs (Some mxLookup) r name nameServer lookupIpv4 lookupIpv6;
      let rec :=
        {| mx_Name := name;
           mx_Type := ans_Type (pref_Answer mxAns);
           mx_Class := ans_Class (pref_Answer mxAns);
           mx_Preference := Preference mxAns;
           mx_IPv4Addresses := IPv4Addresses ips;
           mx_IPv6Addresses := IPv6Addresses ips;
           mx_TTL := ans_TTL (pref_Answer mxAns) |} in
      lookup_answers mxLookup r nameServer lookupIpv4 lookupIpv6 rest
        (servers ++ [rec]) (trace ++ secondTrace)
  | IsOtherAnswer _ :: rest =>
      lookup_answers mxLookup r nameServer lookupIpv4 lookupIpv6 rest servers trace
  end.

(** [MXLookup.DoLookup]. *)
Definition DoLookup (mxLookup : MXLookup) (r : Resolver) (name nameServer : string)
    : M (option MXResult * Trace * Status * error * MXLookup) :=
  let q := {| Type_ := TypeMX; Class := ClassINET; Name := name |} in
  '(res, trace, status, err) ← zdns.ExternalLookup r q nameServer;
  if bool_decide (status ≠ StatusNoError) || bool_decide (err ≠ None)
  then mret (None, trace, status, err, mxLookup)
  else
    let lookupIpv4 := IPv4Lookup mxLookup || negb (IPv6Lookup mxLookup) in
    let lookupIpv6 := IPv6Lookup mxLookup in
    match res with
    | None => panic "invalid memory address or nil pointer dereference"
    | Some res =>
        '(servers, trace, mxLookup) ←
          lookup_answers mxLookup r nameServer lookupIpv4 lookupIpv6
            (Answers res) [] trace;
        mret (Some {| Servers := servers |}, trace, StatusNoError, None, mxLookup)
    end.

End lookup.
End modules.

(** ** The life of a constructed Resolver *)

Section evolution.
Context `{D : Declared}.

(** The operations of a Resolver. *)
Inductive Op : Type :=
| OpExternalLookup (q : Question) (dstServer : string)
| OpIterativeLookup (q : Question)
| OpClose
| OpRandomExternalNameServer
| OpRandomRootNameServer.

Definition run_op (r : Resolver) (op : Op) : M unit :=
  match op with
  | OpExternalLookup q dst => _ ← zdns.ExternalLookup r q dst; mret ()
  | OpIterativeLookup q => _ ← zdns.IterativeLookup r q; mret ()
  | OpClose => zdns.Close r
  | OpRandomExternalNameServer => _ ← zdns.randomExternalNameServer r; mret ()
  | OpRandomRootNameServer => _ ← zdns.randomRootNameServer r; mret ()
  end.

(** After construction the world moves on by operations of the Resolver that
    return, and by the caller's assignments [config.ExternalNameServers[i] = v]. *)
Inductive evolves (config : ResolverConfig) (r : Resolver) : World → World → Prop :=
| evolves_refl w : evolves config r w w
| evolves_op w1 w2 w3 op :
    evolves config r w1 w2 →
    run_op r op w2 = Done () w3 →
    evolves config r w1 w3
| evolves_config_store w1 w2 i v h :
    evolves config r w1 w2 →
    slice_store (heap w2) (ExternalNameServers config) i v = Some h →
    evolves config r w1 (with_heap h w2).

(** The array a slice points into. *)
Definition slice_array (s : slice) : option nat :=
  match s with
  | nil_slice => None
  | mk_slice a _ _ => Some a
  end.

(** Before construction: the package's root server table holds its declared
    value, and the configuration's server slice is a slice of the heap. *)
Definition starts_ok (w : World) (config : ResolverConfig) : Prop :=
  heap w !! RootServers_addr = Some RootServers ∧
  slice_wf (heap w) (ExternalNameServers config).

(** [r] is a Resolver that InitResolver returned for [config], seen in a
    later world [w]. *)
Definition constructed (config : ResolverConfig) (r : Resolver) (w : World) : Prop :=
  ∃ w0 w1 err,
    starts_ok w0 config ∧
    zdns.InitResolver config w0 = Done (Some r, err) w1 ∧
    evolves config r w1 w.

End evolution.

(** ** Vocabulary of the properties *)

Section vocabulary.
Context `{D : Declared}.
Implicit Types (mxMod : mxlookup.MXLookupModule).

(** What the configuration check rejects. *)
Definition config_invalid (rc : ResolverConfig) : Prop :=
  fst (transportMode_isValid (TransportMode rc)) = false ∨
  fst (IPVersionMode_IsValid (IPVersionMode rc)) = false ∨
  (cfg_Cache rc ≠ None ∧ CacheSize rc ≠ 0%Z).

(** The server list the OS provides: the resolver file's, or the built-in
    defaults when the file cannot be read. *)
Definition os_servers (o : Oracle) : list string :=
  match GetDNSServers_result o defaultNameServerConfigFile with
  | (ns, None) => ns
  | (_, Some _) => GetDefaultResolvers_result o
  end.

(** The Resolver [r] and the world [w'] that a successful InitResolver
    leaves, when the test dial learned the address [ip]. *)
Record built (config : ResolverConfig) (w : World) (ip : IP)
    (r : Resolver) (w' : World) : Prop := {
  built_localAddr : localAddr r = ip;
  built_conn :
    conn r = if ShouldRecycleSockets config
             then Some {| conn_id := S (next_conn w); conn_LocalAddr := ip |}
             else None;
  built_udpClient :
    udpClient r =
      if bool_decide (TransportMode config = UDPOrTCP)
         || bool_decide (TransportMode config = UDPOnly)
      then Some {| Net := ""; client_Timeout := Timeout config;
                   Dialer_Timeout := Timeout config; Dialer_LocalAddr := ip |}
      else None;
  built_tcpClient :
    tcpClient r =
      if bool_decide (TransportMode config = UDPOrTCP)
         || bool_decide (TransportMode config = TCPOnly)
      then Some {| Net := "tcp"; client_Timeout := Timeout config;
                   Dialer_Timeout := Timeout config; Dialer_LocalAddr := ip |}
      else None;
  built_modes :
    transportMode r = TransportMode config ∧ ipVersionMode r = IPVersionMode config;
  built_lookupClient : lookupClient r = cfg_LookupClient config;
  built_root :
    rootNameServers r = mk_slice RootServers_addr 0 (length RootServers);
  built_external :
    ∃ (a : nat) (l : list string) (t : Heap),
      externalNameServers r = mk_slice a 0 (length l) ∧
      length (heap w) ≤ a ∧
      heap w' = heap w ++ t ∧
      heap w' !! a = Some l ∧
      l = (if decide (slice_len (ExternalNameServers config) = 0)
           then os_servers (oracle w)
           else slice_elems (heap w) (ExternalNameServers config));
  built_oracle : oracle w' = oracle w;
  built_rand : rand_pos w' = rand_pos w;
  built_events :
    ∃ evs,
      events w' =
        events w ++
        [EvSetLevel (LogLevel config); EvDial "udp" googleDNSResolverAddr;
         EvClose (next_conn w)] ++ evs;
}.

(** A computation that returns leaves the heap and the oracle as they were. *)
Definition keeps_heap {A : Type} (m : M A) : Prop :=
  ∀ w a w', m w = Done a w' → heap w' = heap w ∧ oracle w' = oracle w.

(** The common body of the two random selections. *)
Definition pick_server (s : slice) (msg : string) : M string :=
  let l := slice_len s in
  _ ← when (slice_is_nil s || bool_decide (l = 0)) (log_Fatal msg);
  i ← rand_Intn l;
  index_strings s i.

(** The parts of what a targeted lookup returns. *)
Definition ret_result (ret : TargetedReturn) : option IPResult := ret.1.1.1.
Definition ret_trace (ret : TargetedReturn) : Trace := ret.1.1.2.
Definition ret_status (ret : TargetedReturn) : Status := ret.1.2.

(** The secondary lookup did not succeed. *)
Definition failed (ret : TargetedReturn) : Prop :=
  ret_status ret ≠ StatusNoError ∨ ret_result ret = None.

Definition no_addresses : CachedAddresses :=
  {| IPv4Addresses := []; IPv6Addresses := [] |}.






(** The exchange names among the answers, in order. *)
Fixpoint exchange_names (answers : list AnswerValue) : list string :=
  match answers with
  | [] => []
  | IsPrefAnswer a :: rest =>
      TrimSuffix (ans_Answer (pref_Answer a)) "." :: exchange_names rest
  | IsOtherAnswer _ :: rest => exchange_names rest
  end.

(** What the module asks the Resolver for [name] in the world [w]. *)
Definition asked mxMod (name nameServer : string) : Event :=
  EvTargetedLookup name nameServer (mxlookup.mod_IsIterative (mxlookup.Basic mxMod))
    (mxlookup.IPv4Lookup mxMod) (mxlookup.IPv6Lookup mxMod).

Definition told mxMod (r : Resolver) (name nameServer : string) (w : World)
    : TargetedReturn :=
  DoTargetedLookup_result (oracle w) (events w) r name nameServer
    (mxlookup.mod_IsIterative (mxlookup.Basic mxMod))
    (mxlookup.IPv4Lookup mxMod) (mxlookup.IPv6Lookup mxMod).

(** The primary query of [Lookup]. *)
Definition primary mxMod (r : Resolver) (lookupName nameServer : string)
    : M LookupReturn :=
  let q := {| Type_ := TypeMX; Class := ClassINET; Name := lookupName |} in
  if mxlookup.mod_IsIterative (mxlookup.Basic mxMod)
  then zdns.IterativeLookup r q
  else zdns.ExternalLookup r q nameServer.

(** [n] further calls of lookupIPs on the module, for any names. *)
Inductive later_calls (r : Resolver) :
    nat → mxlookup.MXLookupModule → World → mxlookup.MXLookupModule → World → Prop :=
| later_now mxMod w : later_calls r 0 mxMod w mxMod w
| later_call n mxMod w mxMod1 w1 name nameServer ipMode ips trace mxMod2 w2 :
    later_calls r n mxMod w mxMod1 w1 →
    mxlookup.lookupIPs mxMod1 r name nameServer ipMode w1 =
      Done (ips, trace, mxMod2) w2 →
    later_calls r (S n) mxMod w mxMod2 w2.

(** How many entries of the cache were used more recently than [k]'s. *)
Fixpoint rank {V : Type} (k : string) (es : list (string * V)) : option nat :=
  match es with
  | [] => None
  | (k', _) :: es' => if decide (k' = k) then Some 0 else S <$> rank k es'
  end.

End vocabulary.

(** ** Sample data *)

Module Sample.

Definition decls : Declared :=
  {| UDPOrTCP := 0; UDPOnly := 1; TCPOnly := 2;
     transportMode_isValid := λ m,
       if bool_decide (0 ≤ m ≤ 2)%Z then (true, "") else (false, "invalid transport mode");
     IPv4OrIPv6 := 2;
     IPVersionMode_IsValid := λ m,
       if bool_decide (0 ≤ m ≤ 2)%Z then (true, "") else (false, "invalid ip version mode");
     RootServers :=
       ["a.root:53"; "b.root:53"; "c.root:53"; "d.root:53"; "e.root:53";
        "f.root:53"; "g.root:53"; "h.root:53"; "i.root:53"; "j.root:53";
        "k.root:53"; "l.root:53"; "m.root:53"];
     RootServers_count := eq_refl;
     GetIPVersionMode := λ v4 v6, if v4 then (if v6 then 2 else 0) else 1 |}%Z.

Definition noResult : LookupReturn := (None, [], "ERROR", Some "no network").
Definition noAddresses : TargetedReturn := (None, [], "SERVFAIL", None).

(** The outside: the test dial learns 192.168.1.5, the resolver file names
    one server, every draw of the random source is its own index. *)
Definition outside : Oracle :=
  {| rand_draw := λ k, k;
     Dial_result := λ _ _, inl [Byte.xc0; Byte.xa8; Byte.x01; Byte.x05];
     Close_result := λ _, None;
     ListenUDP_result := λ _, None;
     GetDNSServers_result := λ _, (["192.0.2.53:53"], None);
     GetDefaultResolvers_result := ["8.8.8.8:53"; "1.1.1.1:53"];
     DoSingleDstServerLookup_result := λ _ _ _ _ _ _, noResult;
     DoTargetedLookup_result := λ _ _ _ _ _ _ _, noAddresses;
     modules_DoTargetedLookup_result := λ _ _ _ _ _ _, noAddresses |}.

(** As [outside], with no route for the test dial. *)
Definition outside_no_route : Oracle :=
  {| rand_draw := λ k, k;
     Dial_result := λ _ _, inr "dial udp 8.8.8.8:53: connect: network is unreachable";
     Close_result := λ _, None;
     ListenUDP_result := λ _, None;
     GetDNSServers_result := λ _, (["192.0.2.53:53"], None);
     GetDefaultResolvers_result := ["8.8.8.8:53"; "1.1.1.1:53"];
     DoSingleDstServerLookup_result := λ _ _ _ _ _ _, noResult;
     DoTargetedLookup_result := λ _ _ _ _ _ _ _, noAddresses;
     modules_DoTargetedLookup_result := λ _ _ _ _ _ _, noAddresses |}.

(** As [outside], with a resolver file that names no server. *)
Definition outside_empty_resolv_conf : Oracle :=
  {| rand_draw := λ k, k;
     Dial_result := λ _ _, inl [Byte.xc0; Byte.xa8; Byte.x01; Byte.x05];
     Close_result := λ _, None;
     ListenUDP_result := λ _, None;
     GetDNSServers_result := λ _, ([], None);
     GetDefaultResolvers_result := ["8.8.8.8:53"; "1.1.1.1:53"];
     DoSingleDstServerLookup_result := λ _ _ _ _ _ _, noResult;
     DoTargetedLookup_result := λ _ _ _ _ _ _ _, noAddresses;
     modules_DoTargetedLookup_result := λ _ _ _ _ _ _, noAddresses |}.

(** The heap at start: the root server table, then the caller's array of
    two servers. *)
Definition world (o : Oracle) : World :=
  {| oracle := o;
     heap := [RootServers (Declared := decls); ["203.0.113.1:53"; "203.0.113.2:53"]];
     caches := [];
     rand_pos := 0;
     next_conn := 0;
     events := [] |}.

(** A configuration as NewResolverConfig fills it, with the servers [ext]. *)
Definition config (ext : slice) (addrs : list IP) : ResolverConfig :=
  {| cfg_Cache := Some 0;
     CacheSize := 0;
     cfg_LookupClient := LookupClient;
     cfg_Blacklist := Some 0;
     LocalAddrs := addrs;
     Retries := defaultRetries;
     LogLevel := defaultLogVerbosity;
     TransportMode := 0;
     IPVersionMode := 2;
     ShouldRecycleSockets := defaultShouldRecycleSockets;
     IsIterative := false;
     IterativeTimeout := defaultIterativeTimeout;
     Timeout := defaultTimeout;
     MaxDepth := defaultMaxDepth;
     ExternalNameServers := ext;
     DNSSecEnabled := defaultDNSSECEnabled;
     EdnsOptions := [];
     CheckingDisabledBit := defaultCheckingDisabledBit |}.

Definition callers_servers : slice := mk_slice 1 0 2.

Definition question : Question :=
  {| Type_ := TypeMX; Class := ClassINET; Name := "example.com" |}.

Definition resolver_of (o : Outcome (option Resolver * error)) (d : Resolver)
    : Resolver :=
  match o with
  | Done (Some r, _) _ => r
  | _ => d
  end.

Definition world_of {A : Type} (o : Outcome A) (d : World) : World :=
  match o with
  | Done _ w => w
  | _ => d
  end.

(** The Resolver for the caller's two servers, and the world it is born in. *)
Definition config2 : ResolverConfig := config callers_servers [].

Definition init2 : Outcome (option Resolver * error) :=
  Eval vm_compute in zdns.InitResolver (D := decls) config2 (world outside).

Definition resolver2 : Resolver :=
  resolver_of init2 (zdns.Resolver_literal config2 None).
Definition world2 : World := world_of init2 (world outside).

(** The Resolver for a configuration that names no server, on a machine
    whose resolver file names none either. *)
Definition config0 : ResolverConfig := config nil_slice [].

Definition init0 : Outcome (option Resolver * error) :=
  Eval vm_compute in
    zdns.InitResolver (D := decls) config0 (world outside_empty_resolv_conf).

Definition resolver0 : Resolver :=
  resolver_of init0 (zdns.Resolver_literal config0 None).
Definition world0 : World := world_of init0 (world outside_empty_resolv_conf).

(** A configuration that asks for the local address 10.0.0.1. *)
Definition config_local : ResolverConfig :=
  config callers_servers [[Byte.x0a; Byte.x00; Byte.x00; Byte.x01]].

(** An MX module as Init leaves it, with room for one name. *)
Definition mx : mxlookup.MXLookupModule :=
  {| mxlookup.IPv4Lookup := true;
     mxlookup.IPv6Lookup := false;
     mxlookup.MXCacheSize := 1;
     mxlookup.CacheHash := Some (cachehash.Init 1);
     mxlookup.Basic :=
       {| mxlookup.mod_IsIterative := false;
          mxlookup.mod_LookupAllNameServers := false |} |}.


(** A module as the command line leaves it when no lookup flag is given. *)
Definition mx_unset : mxlookup.MXLookupModule :=
  {| mxlookup.IPv4Lookup := false;
     mxlookup.IPv6Lookup := false;
     mxlookup.MXCacheSize := 1000;
     mxlookup.CacheHash := None;
     mxlookup.Basic :=
       {| mxlookup.mod_IsIterative := false;
          mxlookup.mod_LookupAllNameServers := false |} |}.

(** A configuration with both a Cache and a CacheSize. *)
Definition config_both : ResolverConfig :=
  {| cfg_Cache := Some 0;
     CacheSize := 500;
     cfg_LookupClient := LookupClient;
     cfg_Blacklist := Some 0;
     LocalAddrs := [];
     Retries := defaultRetries;
     LogLevel := defaultLogVerbosity;
     TransportMode := 0;
     IPVersionMode := 2;
     ShouldRecycleSockets := defaultShouldRecycleSockets;
     IsIterative := false;
     IterativeTimeout := defaultIterativeTimeout;
     Timeout := defaultTimeout;
     MaxDepth := defaultMaxDepth;
     ExternalNameServers := callers_servers;
     DNSSecEnabled := defaultDNSSECEnabled;
     EdnsOptions := [];
     CheckingDisabledBit := defaultCheckingDisabledBit |}.

End Sample.

(** ** More of pkg/zdns/resolver.go *)

(** [blacklist.New()]: a new blacklist, never nil.  The package is not
    among the sources and the Resolver only carries the pointer along; it is
    numbered after the caches made so far. *)
Definition blacklist_New : M BlacklistPtr := λ w,
  Done (Some (length (caches w))) w.

Module zdns_config.
Section config.
Context `{D : Declared}.

(** [NewResolverConfig]; the fields the literal does not name have their
    zero value. *)
Definition NewResolverConfig : M ResolverConfig :=
  c ← new_Cache defaultCacheSize;
  b ← blacklist_New;
  mret {| cfg_Cache := c;
          CacheSize := 0;
          cfg_LookupClient := LookupClient;
          cfg_Blacklist := b;
          LocalAddrs := [];
          Retries := defaultRetries;
          LogLevel := defaultLogVerbosity;
          TransportMode := UDPOrTCP;
          IPVersionMode := IPv4OrIPv6;
          ShouldRecycleSockets := defaultShouldRecycleSockets;
          IsIterative := false;
          IterativeTimeout := defaultIterativeTimeout;
          Timeout := defaultTimeout;
          MaxDepth := defaultMaxDepth;
          ExternalNameServers := nil_slice;
          DNSSecEnabled := defaultDNSSECEnabled;
          EdnsOptions := [];
          CheckingDisabledBit := defaultCheckingDisabledBit |}.

(** The assignment [config.CacheSize = n] by the caller. *)
Definition with_CacheSize (n : Z) (c : ResolverConfig) : ResolverConfig :=
  {| cfg_Cache := cfg_Cache c; CacheSize := n;
     cfg_LookupClient := cfg_LookupClient c; cfg_Blacklist := cfg_Blacklist c;
     LocalAddrs := LocalAddrs c; Retries := Retries c; LogLevel := LogLevel c;
     TransportMode := TransportMode c; IPVersionMode := IPVersionMode c;
     ShouldRecycleSockets := ShouldRecycleSockets c; IsIterative := IsIterative c;
     IterativeTimeout := IterativeTimeout c; Timeout := Timeout c;
     MaxDepth := MaxDepth c; ExternalNameServers := ExternalNameServers c;
     DNSSecEnabled := DNSSecEnabled c; EdnsOptions := EdnsOptions c;
     CheckingDisabledBit := CheckingDisabledBit c |}.

End config.
End zdns_config.

(** ** pkg/zdns/resolver.go, the earlier revision: construction *)

Module zdns_prev_init.

Record ResolverConfig := {
  cfg_Cache : CachePtr;
  CacheSize : Z;
  cfg_LookupClient : Lookuper;
  cfg_Blacklist : BlacklistPtr;
  BlMutex : option nat;
  LocalAddr : IP;
  Retries : Z;
  ShouldTrace : bool;
  LogLevel : Z;
  TransportMode : Z;
  IPVersionMode : Z;
  ShouldRecycleSockets : bool;
  IsIterative : bool;
  IterativeTimeout : Duration;
  Timeout : Duration;
  MaxDepth : Z;
  NameServers : slice;
  LookupAllNameServers : bool;
  DNSSecEnabled : bool;
  EdnsOptions : list Z;
  CheckingDisabledBit : bool;
}.

Record Resolver := {
  cache : CachePtr;
  lookupClient : Lookuper;
  blacklist : BlacklistPtr;
  blMutex : option nat;
  udpClient : option Client;
  tcpClient : option Client;
  conn : option Conn;
  localAddr : IP;
  retries : Z;
  shouldTrace : bool;
  logLevel : Z;
  transportMode : Z;
  ipVersionMode : Z;
  shouldRecycleSockets : bool;
  isIterative : bool;
  iterativeTimeout : Duration;
  timeout : Duration;
  maxDepth : Z;
  nameServers : slice;
  lookupAllNameServers : bool;
  dnsSecEnabled : bool;
  ednsOptions : list Z;
  checkingDisabledBit : bool;
}.

(** Field assignments [r.f = v] used by InitResolver. *)
Definition set_localAddr (v : IP) (r : Resolver) : Resolver :=
  {| cache := cache r;
     lookupClient := lookupClient r;
     blacklist := blacklist r;
     blMutex := blMutex r;
     udpClient := udpClient r;
     tcpClient := tcpClient r;
     conn := conn r;
     localAddr := v;
     retries := retries r;
     shouldTrace := shouldTrace r;
     logLevel := logLevel r;
     transportMode := transportMode r;
     ipVersionMode := ipVersionMode r;
     shouldRecycleSockets := shouldRecycleSockets r;
     isIterative := isIterative r;
     iterativeTimeout := iterativeTimeout r;
     timeout := timeout r;
     maxDepth := maxDepth r;
     nameServers := nameServers r;
     lookupAllNameServers := lookupAllNameServers r;
     dnsSecEnabled := dnsSecEnabled r;
     ednsOptions := ednsOptions r;
     checkingDisabledBit := checkingDisabledBit r |}.

Definition set_conn (v : option Conn) (r : Resolver) : Resolver :=
  {| cache := cache r;
     lookupClient := lookupClient r;
     blacklist := blacklist r;
     blMutex := blMutex r;
     udpClient := udpClient r;
     tcpClient := tcpClient r;
     conn := v;
     localAddr := localAddr r;
     retries := retries r;
     shouldTrace := shouldTrace r;
     logLevel := logLevel r;
     transportMode := transportMode r;
     ipVersionMode := ipVersionMode r;
     shouldRecycleSockets := shouldRecycleSockets r;
     isIterative := isIterative r;
     iterativeTimeout := iterativeTimeout r;
     timeout := timeout r;
     maxDepth := maxDepth r;
     nameServers := nameServers r;
     lookupAllNameServers := lookupAllNameServers r;
     dnsSecEnabled := dnsSecEnabled r;
     ednsOptions := ednsOptions r;
     checkingDisabledBit := checkingDisabledBit r |}.

Definition set_udpClient (v : option Client) (r : Resolver) : Resolver :=
  {| cache := cache r;
     lookupClient := lookupClient r;
     blacklist := blacklist r;
     blMutex := blMutex r;
     udpClient := v;
     tcpClient := tcpClient r;
     conn := conn r;
     localAddr := localAddr r;
     retries := retries r;
     shouldTrace := shouldTrace r;
     logLevel := logLevel r;
     transportMode := transportMode r;
     ipVersionMode := ipVersionMode r;
     shouldRecycleSockets := shouldRecycleSockets r;
     isIterative := isIterative r;
     iterativeTimeout := iterativeTimeout r;
     timeout := timeout r;
     maxDepth := maxDepth r;
     nameServers := nameServers r;
     lookupAllNameServers := lookupAllNameServers r;
     dnsSecEnabled := dnsSecEnabled r;
     ednsOptions := ednsOptions r;
     checkingDisabledBit := checkingDisabledBit r |}.

Definition set_tcpClient (v : option Client) (r : Resolver) : Resolver :=
  {| cache := cache r;
     lookupClient := lookupClient r;
     blacklist := blacklist r;
     blMutex := blMutex r;
     udpClient := udpClient r;
     tcpClient := v;
     conn := conn r;
     localAddr := localAddr r;
     retries := retries r;
     shouldTrace := shouldTrace r;
     logLevel := logLevel r;
     transportMode := transportMode r;
     ipVersionMode := ipVersionMode r;
     shouldRecycleSockets := shouldRecycleSockets r;
     isIterative := isIterative r;
     iterativeTimeout := iterativeTimeout r;
     timeout := timeout r;
     maxDepth := maxDepth r;
     nameServers := nameServers r;
     lookupAllNameServers := lookupAllNameServers r;
     dnsSecEnabled := dnsSecEnabled r;
     ednsOptions := ednsOptions r;
     checkingDisabledBit := checkingDisabledBit r |}.

Definition set_iterative (it : Duration) (depth : Z) (all : bool) (r : Resolver) : Resolver :=
  {| cache := cache r;
     lookupClient := lookupClient r;
     blacklist := blacklist r;
     blMutex := blMutex r;
     udpClient := udpClient r;
     tcpClient := tcpClient r;
     conn := conn r;
     localAddr := localAddr r;
     retries := retries r;
     shouldTrace := shouldTrace r;
     logLevel := logLevel r;
     transportMode := transportMode r;
     ipVersionMode := ipVersionMode r;
     shouldRecycleSockets := shouldRecycleSockets r;
     isIterative := isIterative r;
     iterativeTimeout := it;
     timeout := timeout r;
     maxDepth := depth;
     nameServers := nameServers r;
     lookupAllNameServers := all;
     dnsSecEnabled := dnsSecEnabled r;
     ednsOptions := ednsOptions r;
     checkingDisabledBit := checkingDisabledBit r |}.

Definition set_nameServers (v : slice) (r : Resolver) : Resolver :=
  {| cache := cache r;
     lookupClient := lookupClient r;
     blacklist := blacklist r;
     blMutex := blMutex r;
     udpClient := udpClient r;
     tcpClient := tcpClient r;
     conn := conn r;
     localAddr := localAddr r;
     retries := retries r;
     shouldTrace := shouldTrace r;
     logLevel := logLevel r;
     transportMode := transportMode r;
     ipVersionMode := ipVersionMode r;
     shouldRecycleSockets := shouldRecycleSockets r;
     isIterative := isIterative r;
     iterativeTimeout := iterativeTimeout r;
     timeout := timeout r;
     maxDepth := maxDepth r;
     nameServers := v;
     lookupAllNameServers := lookupAllNameServers r;
     dnsSecEnabled := dnsSecEnabled r;
     ednsOptions := ednsOptions r;
     checkingDisabledBit := checkingDisabledBit r |}.

(** What [Lookup] and [randomNameServer] read of the Resolver. *)
Definition lookup_view (r : Resolver) : zdns_prev.Resolver :=
  {| zdns_prev.lookupClient := lookupClient r;
     zdns_prev.nameServers := nameServers r;
     zdns_prev.lookupAllNameServers := lookupAllNameServers r;
     zdns_prev.isIterative := isIterative r |}.

Section resolver.
Context `{D : Declared}.

(** [ResolverConfig.isValid]; the IP version mode's check is spelled
    [isValid] in this revision. *)
Definition isValid (rc : ResolverConfig) : bool * string :=
  let '(ok, reason) := transportMode_isValid (TransportMode rc) in
  if negb ok then (false, reason)
  else
    let '(ok, reason) := IPVersionMode_IsValid (IPVersionMode rc) in
    if negb ok then (false, reason)
    else if bool_decide (cfg_Cache rc ≠ None) && bool_decide (CacheSize rc ≠ 0%Z)
    then (false, "cannot use both cache and cacheSize")
    else (true, "").

(** The cache: as in the later revision. *)
Definition choose_cache (config : ResolverConfig) : M CachePtr :=
  if bool_decide (CacheSize config ≠ 0%Z) then new_Cache (CacheSize config)
  else match cfg_Cache config with
       | Some p => mret (Some p)
       | None => new_Cache defaultCacheSize
       end.

(** The composite literal [&Resolver{...}]: here it names [localAddr],
    [isIterative] and [nameServers]. *)
Definition Resolver_literal (config : ResolverConfig) (c : CachePtr) : Resolver :=
  {| cache := c;
     lookupClient := cfg_LookupClient config;
     blacklist := cfg_Blacklist config;
     blMutex := BlMutex config;
     udpClient := None;
     tcpClient := None;
     conn := None;
     localAddr := LocalAddr config;
     retries := Retries config;
     shouldTrace := ShouldTrace config;
     logLevel := LogLevel config;
     transportMode := TransportMode config;
     ipVersionMode := IPVersionMode config;
     shouldRecycleSockets := ShouldRecycleSockets config;
     isIterative := IsIterative config;
     iterativeTimeout := 0%Z;
     timeout := Timeout config;
     maxDepth := 0%Z;
     nameServers := NameServers config;
     lookupAllNameServers := false;
     dnsSecEnabled := DNSSecEnabled config;
     ednsOptions := EdnsOptions config;
     checkingDisabledBit := CheckingDisabledBit config |}.

(** The local address: the test dial runs only when none was given. *)
Definition find_localAddr (r : Resolver) : M (Resolver + string) :=
  if bool_decide (length (localAddr r) = 0) then
    d ← net_Dial "udp" googleDNSResolverAddr;
    match d with
    | inr err =>
        mret (inr ("unable to find default IP address to open socket: " +:+ err))
    | inl c =>
        let r := set_localAddr (conn_LocalAddr c) r in
        cerr ← Conn_Close c;
        _ ← match cerr with
            | Some err =>
                emit (EvLogError
                  ("unable to close test connection to Google public DNS: " +:+ err))
            | None => mret ()
            end;
        mret (inl r)
    end
  else mret (inl r).

Definition recycle_socket (r : Resolver) : M (Resolver + string) :=
  if shouldRecycleSockets r then
    l ← net_ListenUDP (localAddr r);
    match l with
    | inr err => mret (inr ("unable to create UDP connection: " +:+ err))
    | inl c => mret (inl (set_conn (Some c) r))
    end
  else mret (inl r).

Definition make_clients (config : ResolverConfig) (r : Resolver) : Resolver :=
  let usingUDP :=
    bool_decide (transportMode r = UDPOrTCP) || bool_decide (transportMode r = UDPOnly) in
  let r :=
    if usingUDP then
      set_udpClient
        (Some {| Net := ""; client_Timeout := timeout r;
                 Dialer_Timeout := timeout r;
                 Dialer_LocalAddr := localAddr r |}) r
    else r in
  let usingTCP :=
    bool_decide (transportMode r = UDPOrTCP) || bool_decide (transportMode r = TCPOnly) in
  if usingTCP then
    set_tcpClient
      (Some {| Net := "tcp"; client_Timeout := timeout r;
               Dialer_Timeout := Timeout config;
               Dialer_LocalAddr := localAddr r |}) r
  else r.

(** The name servers: the roots for an iterative Resolver that was given
    none, the OS's for a non-iterative one that was given none. *)
Definition set_name_servers (config : ResolverConfig) (r : Resolver) : M Resolver :=
  if isIterative r then
    let r :=
      set_iterative (IterativeTimeout config) (MaxDepth config)
        (LookupAllNameServers config) r in
    if slice_is_nil (nameServers r) || bool_decide (slice_len (nameServers r) = 0)
    then mret (set_nameServers (mk_slice RootServers_addr 0 (length RootServers)) r)
    else mret r
  else if slice_is_nil (nameServers r) || bool_decide (slice_len (nameServers r) = 0)
  then
    '(ns, err) ← GetDNSServers defaultNameServerConfigFile;
    ns ← match err with
         | Some e =>
             ns ← GetDefaultResolvers;
             joined ← strings_Join ns ", ";
             _ ← emit (EvLogWarn
                   ("Unable to parse resolvers file with error %w. Using ZDNS defaults: "
                    +:+ e +:+ joined));
             mret ns
         | None => mret ns
         end;
    let r := set_nameServers ns r in
    joined ← strings_Join (nameServers r) ", ";
    _ ← emit (EvLogInfo ("No name servers specified. will use: " +:+ joined));
    mret r
  else mret r.

(** [InitResolver] of the earlier revision. *)
Definition InitResolver (config : ResolverConfig) : M (option Resolver * error) :=
  let '(ok, notValidReason) := isValid config in
  if negb ok
  then mret (None, Some ("invalid resolver: " +:+ notValidReason))
  else
    c ← choose_cache config;
    let r := Resolver_literal config c in
    _ ← emit (EvSetLevel (logLevel r));
    x ← find_localAddr r;
    match x with
    | inr err => mret (None, Some err)
    | inl r =>
        x ← recycle_socket r;
        match x with
        | inr err => mret (None, Some err)
        | inl r =>
            r ← set_name_servers config (make_clients config r);
            mret (Some r, None)
        end
    end.

End resolver.
End zdns_prev_init.

(** ** The older MX lookup: construction from the flags *)

Module modules_init.



End modules_init.

(** ** Vocabulary of the further properties *)

Section construction_vocabulary.
Context `{D : Declared}.

(** The cache a Resolver gets, and the caches that exist after its
    construction. *)
Definition cache_of (config : ResolverConfig) (w : World) : CachePtr :=
  if bool_decide (CacheSize config ≠ 0%Z) then Some (length (caches w))
  else match cfg_Cache config with
       | Some p => Some p
       | None => Some (length (caches w))
       end.

Definition caches_after (config : ResolverConfig) (w : World) : list Z :=
  if bool_decide (CacheSize config ≠ 0%Z) then caches w ++ [CacheSize config]
  else match cfg_Cache config with
       | Some _ => caches w
       | None => caches w ++ [defaultCacheSize]
       end.

(** What the test dial shows to the outside, [k] being the connection. *)
Definition dial_events (o : Oracle) (k : nat) : list Event :=
  [EvDial "udp" googleDNSResolverAddr; EvClose k] ++
  match Close_result o k with
  | Some e =>
      [EvLogError ("unable to close test connection to Google public DNS: " +:+ e)]
  | None => []
  end.

(** What asking the OS for its servers shows, and the arrays it allocates. *)
Definition os_events (o : Oracle) : list Event :=
  EvGetDNSServers defaultNameServerConfigFile ::
  match GetDNSServers_result o defaultNameServerConfigFile with
  | (_, Some e) =>
      [EvLogWarn
         ("Unable to parse resolvers file with error %w. Using ZDNS defaults: "
          +:+ e +:+ String.concat ", " (GetDefaultResolvers_result o))]
  | (_, None) => []
  end ++
  [EvLogInfo ("No name servers specified. will use: "
              +:+ String.concat ", " (os_servers o))].

Definition os_arrays (o : Oracle) : Heap :=
  match GetDNSServers_result o defaultNameServerConfigFile with
  | (ns, None) => [ns]
  | (ns, Some _) => [ns; GetDefaultResolvers_result o]
  end.

Definition names_no_server (config : ResolverConfig) : bool :=
  bool_decide (slice_len (ExternalNameServers config) = 0).

(** The events of a successful InitResolver, in order. *)
Definition init_events (config : ResolverConfig) (w : World) (ip : IP) : list Event :=
  EvSetLevel (LogLevel config) ::
  dial_events (oracle w) (next_conn w) ++
  (if ShouldRecycleSockets config then [EvListenUDP ip] else []) ++
  (if names_no_server config then os_events (oracle w) else []).

(** The arrays a successful InitResolver allocates, and the slice it keeps
    as its external server list. *)
Definition init_arrays (config : ResolverConfig) (w : World) : Heap :=
  slice_elems (heap w) (ExternalNameServers config) ::
  (if names_no_server config then os_arrays (oracle w) else []).

Definition init_servers (config : ResolverConfig) (w : World) : slice :=
  if names_no_server config
  then mk_slice (length (heap w) + length (os_arrays (oracle w))) 0
         (length (os_servers (oracle w)))
  else mk_slice (length (heap w)) 0 (slice_len (ExternalNameServers config)).

(** The Resolver and the world of a successful InitResolver. *)
Definition init_resolver (config : ResolverConfig) (w : World) (ip : IP) : Resolver :=
  let r := set_localAddr ip (zdns.Resolver_literal config (cache_of config w)) in
  let r :=
    if ShouldRecycleSockets config
    then set_conn (Some {| conn_id := S (next_conn w); conn_LocalAddr := ip |}) r
    else r in
  set_servers (init_servers config w)
    (mk_slice RootServers_addr 0 (length RootServers))
    (IterativeTimeout config) (MaxDepth config) (zdns.make_clients config r).

Definition init_world (config : ResolverConfig) (w : World) (ip : IP) : World :=
  {| oracle := oracle w;
     heap := heap w ++ init_arrays config w;
     caches := caches_after config w;
     rand_pos := rand_pos w;
     next_conn := (if ShouldRecycleSockets config then 2 else 1) + next_conn w;
     events := events w ++ init_events config w ip |}.

(** The assignment [config.IsIterative = b] by the caller. *)
Definition with_IsIterative (b : bool) (c : ResolverConfig) : ResolverConfig :=
  {| cfg_Cache := cfg_Cache c; CacheSize := CacheSize c;
     cfg_LookupClient := cfg_LookupClient c; cfg_Blacklist := cfg_Blacklist c;
     LocalAddrs := LocalAddrs c; Retries := Retries c; LogLevel := LogLevel c;
     TransportMode := TransportMode c; IPVersionMode := IPVersionMode c;
     ShouldRecycleSockets := ShouldRecycleSockets c; IsIterative := b;
     IterativeTimeout := IterativeTimeout c; Timeout := Timeout c;
     MaxDepth := MaxDepth c; ExternalNameServers := ExternalNameServers c;
     DNSSecEnabled := DNSSecEnabled c; EdnsOptions := EdnsOptions c;
     CheckingDisabledBit := CheckingDisabledBit c |}.

End construction_vocabulary.

(** The same for the earlier revision of InitResolver. *)
Section earlier_vocabulary.
Context `{D : Declared}.
Import zdns_prev_init.

(** The configuration gives no local address: the test dial is needed. *)
Definition dials (config : ResolverConfig) : bool :=
  bool_decide (length (LocalAddr config) = 0).

(** The configuration names no server. *)
Definition no_servers (config : ResolverConfig) : bool :=
  slice_is_nil (NameServers config) || bool_decide (slice_len (NameServers config) = 0).

(** The OS is asked for its servers. *)
Definition asks_os (config : ResolverConfig) : bool :=
  negb (IsIterative config) && no_servers config.

(** [ip] is the local address of a Resolver for [config] made in [w]. *)
Definition local_address (config : ResolverConfig) (w : World) (ip : IP) : Prop :=
  if dials config
  then Dial_result (oracle w) "udp" googleDNSResolverAddr = inl ip
  else ip = LocalAddr config.

Definition earlier_events (config : ResolverConfig) (w : World) (ip : IP)
    : list Event :=
  EvSetLevel (LogLevel config) ::
  (if dials config then dial_events (oracle w) (next_conn w) else []) ++
  (if ShouldRecycleSockets config then [EvListenUDP ip] else []) ++
  (if asks_os config then os_events (oracle w) else []).

Definition earlier_servers (config : ResolverConfig) (w : World) : slice :=
  if no_servers config then
    if IsIterative config
    then mk_slice RootServers_addr 0 (length RootServers)
    else mk_slice (pred (length (heap w) + length (os_arrays (oracle w)))) 0
           (length (os_servers (oracle w)))
  else NameServers config.

(** The Resolver and the world of a successful InitResolver; [c] is its
    cache and [cs] are the caches that exist. *)
Definition earlier_resolver (config : ResolverConfig) (w : World) (c : CachePtr)
    (ip : IP) : Resolver :=
  let r := set_localAddr ip (Resolver_literal config c) in
  let r :=
    if ShouldRecycleSockets config
    then set_conn
           (Some {| conn_id := (if dials config then 1 else 0) + next_conn w;
                    conn_LocalAddr := ip |}) r
    else r in
  let r := make_clients config r in
  let r :=
    if IsIterative config
    then set_iterative (IterativeTimeout config) (MaxDepth config)
           (LookupAllNameServers config) r
    else r in
  set_nameServers (earlier_servers config w) r.

Definition earlier_world (config : ResolverConfig) (w : World) (cs : list Z)
    (ip : IP) : World :=
  {| oracle := oracle w;
     heap := heap w ++ (if asks_os config then os_arrays (oracle w) else []);
     caches := cs;
     rand_pos := rand_pos w;
     next_conn :=
       (if ShouldRecycleSockets config then 1 else 0) +
       ((if dials config then 1 else 0) + next_conn w);
     events := events w ++ earlier_events config w ip |}.

End earlier_vocabulary.

(** The MX answers among the answers, in order, and the record the MX
    lookups make for one of them, its addresses apart. *)
Fixpoint pref_answers (answers : list AnswerValue) : list PrefAnswer :=
  match answers with
  | [] => []
  | IsPrefAnswer a :: rest => a :: pref_answers rest
  | IsOtherAnswer _ :: rest => pref_answers rest
  end.

Definition record_for (a : PrefAnswer) (rec : MXRecord) : Prop :=
  mx_Name rec = TrimSuffix (ans_Answer (pref_Answer a)) "." ∧
  mx_Type rec = ans_Type (pref_Answer a) ∧
  mx_Class rec = ans_Class (pref_Answer a) ∧
  mx_Preference rec = Preference a ∧
  mx_TTL rec = ans_TTL (pref_Answer a).

(** ** More sample data *)

Module MoreSamples.

(** A second Resolver for the caller's two servers, made after the first. *)
Definition init2b : Outcome (option Resolver * error) :=
  Eval vm_compute in
    zdns.InitResolver (D := Sample.decls) Sample.config2 Sample.world2.

Definition resolver2b : Resolver :=
  Sample.resolver_of init2b Sample.resolver2.
Definition world2b : World := Sample.world_of init2b Sample.world2.



(** A configuration of the earlier revision: the local address 10.0.0.1,
    the servers [ns], iterative or not. *)
Definition earlier_config (addr : IP) (ns : slice) (iterative : bool)
    : zdns_prev_init.ResolverConfig :=
  {| zdns_prev_init.cfg_Cache := Some 0;
     zdns_prev_init.CacheSize := 0;
     zdns_prev_init.cfg_LookupClient := LookupClient;
     zdns_prev_init.cfg_Blacklist := Some 0;
     zdns_prev_init.BlMutex := Some 0;
     zdns_prev_init.LocalAddr := addr;
     zdns_prev_init.Retries := defaultRetries;
     zdns_prev_init.ShouldTrace := false;
     zdns_prev_init.LogLevel := defaultLogVerbosity;
     zdns_prev_init.TransportMode := 0;
     zdns_prev_init.IPVersionMode := 2;
     zdns_prev_init.ShouldRecycleSockets := defaultShouldRecycleSockets;
     zdns_prev_init.IsIterative := iterative;
     zdns_prev_init.IterativeTimeout := defaultIterativeTimeout;
     zdns_prev_init.Timeout := defaultTimeout;
     zdns_prev_init.MaxDepth := defaultMaxDepth;
     zdns_prev_init.NameServers := ns;
     zdns_prev_init.LookupAllNameServers := true;
     zdns_prev_init.DNSSecEnabled := defaultDNSSECEnabled;
     zdns_prev_init.EdnsOptions := [];
     zdns_prev_init.CheckingDisabledBit := defaultCheckingDisabledBit |}.

Definition local_10_0_0_1 : IP := [Byte.x0a; Byte.x00; Byte.x00; Byte.x01].
Definition local_192_168_1_5 : IP := [Byte.xc0; Byte.xa8; Byte.x01; Byte.x05].

(** A Resolver of the earlier revision as its Lookup reads it. *)
Definition earlier_resolver2 : zdns_prev.Resolver :=
  {| zdns_prev.lookupClient := LookupClient;
     zdns_prev.nameServers := Sample.callers_servers;
     zdns_prev.lookupAllNameServers := false;
     zdns_prev.isIterative := false |}.

(** The answers for the MX records of example.com: two exchanges around an
    answer of another kind. *)
Definition mx_answer (name : string) (pref : Z) : AnswerValue :=
  IsPrefAnswer
    {| pref_Answer :=
         {| ans_TTL := 300; ans_Type := "MX"; ans_Class := "IN";
            ans_Name := "example.com"; ans_Answer := name |};
       Preference := pref |}.

Definition mx_result : SingleQueryResult :=
  {| Answers :=
       [mx_answer "mx1.example.com." 10;
        IsOtherAnswer {| ans_TTL := 300; ans_Type := "TXT"; ans_Class := "IN";
                         ans_Name := "example.com"; ans_Answer := "v=spf1 -all" |};
        mx_answer "mx2.example.com." 20];
     Additional := [];
     Authorities := [] |}.

(** As [Sample.outside], with a server that answers the MX query. *)
Definition outside_mx : Oracle :=
  {| rand_draw := λ k, k;
     Dial_result := λ _ _, inl local_192_168_1_5;
     Close_result := λ _, None;
     ListenUDP_result := λ _, None;
     GetDNSServers_result := λ _, (["192.0.2.53:53"], None);
     GetDefaultResolvers_result := ["8.8.8.8:53"; "1.1.1.1:53"];
     DoSingleDstServerLookup_result := λ _ _ _ _ _ _,
       (Some mx_result, [], StatusNoError, None);
     DoTargetedLookup_result := λ _ _ _ _ _ _ _, Sample.noAddresses;
     modules_DoTargetedLookup_result := λ _ _ _ _ _ _, Sample.noAddresses |}.

Definition world_mx : World :=
  {| oracle := outside_mx;
     heap := heap Sample.world2;
     caches := caches Sample.world2;
     rand_pos := 0;
     next_conn := next_conn Sample.world2;
     events := [] |}.

(** The world after the primary query of the MX lookup. *)
Definition world_mx1 : World :=
  with_events
    [EvSingleDstServerLookup LookupClient Sample.question "192.0.2.53:53" false]
    world_mx.

(** An older MX module with neither lookup flag set. *)
Definition older_mx : modules.MXLookup :=
  {| modules.IPv4Lookup := false;
     modules.IPv6Lookup := false;
     modules.MXCacheSize := 1;
     modules.CacheHash := Some (cachehash.Init 1) |}.

End MoreSamples.

(** * Properties *)

#[local] Arguments copy_strings : simpl never.
#[local] Arguments slice_elems : simpl never.
#[local] Arguments String.append : simpl never.
#[local] Arguments String.concat : simpl never.

(** Projections of a world out of an updated world. *)
Ltac wsimpl :=
  cbn [heap oracle caches rand_pos next_conn events with_heap with_caches
       with_rand_pos with_next_conn with_events fst snd mret M_ret when].

(** Running a bind whose first computation is known. *)
Lemma bind_Done {A B : Type} (m : M A) (f : A → M B) (w w' : World) (a : A) :
  m w = Done a w' → (m ≫= f) w = f a w'.
Proof. unfold mbind, M_bind. by intros ->. Qed.

Lemma bind_Fatal {A B : Type} (m : M A) (f : A → M B) (w : World) (msg : string) :
  m w = Fatal msg → (m ≫= f) w = Fatal msg.
Proof. unfold mbind, M_bind. by intros ->. Qed.

Lemma bind_Done_inv {A B : Type} (m : M A) (f : A → M B) (w w' : World) (b : B) :
  (m ≫= f) w = Done b w' → ∃ a w1, m w = Done a w1 ∧ f a w1 = Done b w'.
Proof. unfold mbind, M_bind. destruct (m w); [eauto|done|done]. Qed.

(** ** Slices and the heap *)

Example TrimSuffix_dot : TrimSuffix "mail.example.com." "." = "mail.example.com".
Proof. reflexivity. Qed.

Example TrimSuffix_no_dot : TrimSuffix "mail.example.com" "." = "mail.example.com".
Proof. reflexivity. Qed.

Example TrimSuffix_one_dot_only : TrimSuffix "mail.example.com.." "." = "mail.example.com.".
Proof. reflexivity. Qed.

(** A slice of the heap shows as many elements as its length says, and
    shows the same in a heap that has grown. *)
Lemma slice_elems_length (h : Heap) (s : slice) :
  slice_wf h s → length (slice_elems h s) = slice_len s.
Proof.
  unfold slice_elems.
  destruct s as [|a o n]; simpl; [done|].
  intros (arr & -> & Hle). simpl.
  rewrite length_take, length_drop. lia.
Qed.

Lemma slice_elems_app (h t : Heap) (s : slice) :
  slice_wf h s → slice_elems (h ++ t) s = slice_elems h s.
Proof.
  unfold slice_elems.
  destruct s as [|a o n]; simpl; [done|].
  intros (arr & Ha & _). by rewrite (lookup_app_l_Some _ _ _ _ Ha), Ha.
Qed.

Lemma slice_wf_addr (h : Heap) (a o n : nat) :
  slice_wf h (mk_slice a o n) → a < length h.
Proof. intros (arr & Ha & _). by eapply lookup_lt_Some. Qed.

(** Writing a run of values into an array leaves other arrays alone and
    replaces exactly the run. *)
Lemma store_all_other (vs : list string) (h : Heap) (a o b : nat) :
  a ≠ b → store_all h a o vs !! b = h !! b.
Proof.
  revert h o. induction vs as [|v vs IH]; intros h o Hne; simpl; [done|].
  rewrite IH by done. by rewrite list_lookup_insert_ne.
Qed.

Lemma store_all_same (vs : list string) (h : Heap) (a o : nat) (arr : list string) :
  h !! a = Some arr →
  o + length vs ≤ length arr →
  store_all h a o vs !! a = Some (take o arr ++ vs ++ drop (o + length vs) arr).
Proof.
  revert h o arr. induction vs as [|v vs IH]; intros h o arr Ha Hle; simpl in *.
  - by rewrite Nat.add_0_r, take_drop.
  - rewrite Ha. simpl.
    assert (Hlt : a < length h) by (by eapply lookup_lt_Some).
    erewrite IH; [| by rewrite list_lookup_insert_eq | rewrite length_insert; lia].
    f_equal.
    rewrite (take_S_r _ o v) by (rewrite list_lookup_insert_eq; [done|lia]).
    rewrite take_insert_ge by lia.
    rewrite <- app_assoc. simpl. do 3 f_equal.
    rewrite drop_insert_lt by lia. f_equal. lia.
Qed.

(** [copy] into a whole new array of the right length: the new array holds
    what the source showed, and the older arrays are as they were. *)
Lemma copy_into_new_array (h : Heap) (src : slice) :
  slice_wf h src →
  copy_strings (mk_slice (length h) 0 (slice_len src)) src
    (h ++ [replicate (slice_len src) ""])
  = (slice_len src, h ++ [slice_elems h src]).
Proof.
  intros Hwf. unfold copy_strings. simpl.
  rewrite Nat.min_id. f_equal.
  rewrite (slice_elems_app h _ src Hwf).
  rewrite firstn_all2 by (by rewrite slice_elems_length).
  pose proof (slice_elems_length h src Hwf) as Hlen.
  apply list_eq. intros b.
  destruct (decide (b = length h)) as [->|Hne].
  - rewrite (store_all_same _ _ _ _ (replicate (slice_len src) "")).
    + rewrite lookup_app_r by done. rewrite Nat.sub_diag. simpl.
      rewrite drop_ge by (rewrite length_replicate; lia).
      by rewrite app_nil_r.
    + rewrite lookup_app_r by done. by rewrite Nat.sub_diag.
    + rewrite length_replicate. lia.
  - rewrite store_all_other by done.
    destruct (decide (b < length h)).
    + by rewrite !lookup_app_l by done.
    + rewrite !lookup_app_r by lia.
      destruct (b - length h) as [|k] eqn:E; [lia|done].
Qed.

(** ** Construction *)

Section construction.
Context `{D : Declared}.

Lemma default_name_servers_spec (r : Resolver) (w : World) :
  ∃ (a : nat) (t : Heap) (evs : list Event),
    zdns.default_name_servers r w =
      Done (set_externalNameServers (mk_slice a 0 (length (os_servers (oracle w)))) r)
           (with_events (events w ++ evs) (with_heap (heap w ++ t) w)) ∧
    length (heap w) ≤ a ∧
    (heap w ++ t) !! a = Some (os_servers (oracle w)).
Proof.
  unfold zdns.default_name_servers, os_servers, mbind, M_bind, GetDNSServers,
    GetDefaultResolvers, mbind, M_bind, emit, go_alloc_strings, alloc_strings,
    strings_Join.
  wsimpl.
  destruct (GetDNSServers_result (oracle w) defaultNameServerConfigFile)
    as [ns [e|]]; wsimpl.
  - eexists (S (length (heap w))), [ns; GetDefaultResolvers_result (oracle w)], [_; _; _].
    rewrite length_app. simpl length. rewrite Nat.add_1_r.
    rewrite <- !app_assoc. simpl.
    split; [reflexivity|]. split; [lia|].
    rewrite (lookup_app_r (heap w)) by lia.
    by replace (S (length (heap w)) - length (heap w)) with 1 by lia.
  - eexists (length (heap w)), [ns], [_; _].
    rewrite <- !app_assoc. simpl.
    split; [reflexivity|]. split; [lia|].
    rewrite lookup_app_r by lia. by rewrite Nat.sub_diag.
Qed.

(** What [set_name_servers] leaves behind: the heap has only grown, the
    external list is a slice of a new array, the root list is the package's
    table, nothing else of the Resolver has changed. *)
Lemma set_name_servers_spec (config : ResolverConfig) (r : Resolver) (w : World) :
  slice_wf (heap w) (ExternalNameServers config) →
  ∃ (a : nat) (l : list string) (t : Heap) (evs : list Event),
    zdns.set_name_servers config r w =
      Done (set_servers (mk_slice a 0 (length l))
              (mk_slice RootServers_addr 0 (length RootServers))
              (IterativeTimeout config) (MaxDepth config) r)
           (with_events (events w ++ evs) (with_heap (heap w ++ t) w)) ∧
    length (heap w) ≤ a ∧
    (heap w ++ t) !! a = Some l ∧
    l = (if decide (slice_len (ExternalNameServers config) = 0)
         then os_servers (oracle w)
         else slice_elems (heap w) (ExternalNameServers config)).
Proof.
  intros Hwf.
  unfold zdns.set_name_servers, mbind, M_bind, go_make_strings, go_copy_strings,
    make_strings.
  wsimpl.
  rewrite (copy_into_new_array _ _ Hwf). wsimpl.
  rewrite bool_decide_eq_false_2 by (intros ?; done). wsimpl.
  cbn [externalNameServers set_servers slice_is_nil slice_len orb].
  pose proof (slice_elems_length _ _ Hwf) as Hlen.
  destruct (decide (slice_len (ExternalNameServers config) = 0)) as [Hz|Hnz].
  - rewrite bool_decide_eq_true_2 by done.
    destruct (default_name_servers_spec
                (set_servers
                   (mk_slice (length (heap w)) 0 (slice_len (ExternalNameServers config)))
                   (mk_slice RootServers_addr 0 (length RootServers))
                   (IterativeTimeout config) (MaxDepth config) r)
                (with_heap (heap w ++ [slice_elems (heap w) (ExternalNameServers config)])
                   (with_heap
                      (heap w ++ [replicate (slice_len (ExternalNameServers config)) ""])
                      w)))
      as (a & t & evs & -> & Ha & Hl).
    revert Ha Hl. wsimpl. rewrite length_app. simpl length. intros Ha Hl.
    exists a, (os_servers (oracle w)),
      (slice_elems (heap w) (ExternalNameServers config) :: t), evs.
    rewrite <- app_assoc in Hl |- *. simpl in Hl |- *.
    split; [reflexivity|]. split; [lia|]. done.
  - rewrite bool_decide_eq_false_2 by done.
    exists (length (heap w)), (slice_elems (heap w) (ExternalNameServers config)),
      [slice_elems (heap w) (ExternalNameServers config)], [].
    rewrite Hlen, app_nil_r.
    split; [reflexivity|]. split; [lia|]. split; [|done].
    rewrite lookup_app_r by lia. by rewrite Nat.sub_diag.
Qed.

Lemma isValid_false (rc : ResolverConfig) :
  fst (zdns.isValid rc) = false ↔ config_invalid rc.
Proof.
  unfold zdns.isValid, config_invalid.
  destruct (transportMode_isValid (TransportMode rc)) as [[] ?]; simpl;
    [|by intuition].
  destruct (IPVersionMode_IsValid (IPVersionMode rc)) as [[] ?]; simpl;
    [|by intuition].
  repeat case_bool_decide; simpl; intuition congruence.
Qed.

Lemma isValid_true (rc : ResolverConfig) :
  fst (zdns.isValid rc) = true ↔ ¬ config_invalid rc.
Proof.
  rewrite <- isValid_false. destruct (fst (zdns.isValid rc)); intuition congruence.
Qed.

Lemma isValid_true_reason (rc : ResolverConfig) :
  fst (zdns.isValid rc) = true → zdns.isValid rc = (true, "").
Proof.
  unfold zdns.isValid.
  destruct (transportMode_isValid (TransportMode rc)) as [[] ?]; simpl; [|done].
  destruct (IPVersionMode_IsValid (IPVersionMode rc)) as [[] ?]; simpl; [|done].
  by destruct (_ && _).
Qed.

(** InitResolver on an invalid configuration. *)
Lemma InitResolver_invalid (config : ResolverConfig) (w : World) :
  fst (zdns.isValid config) = false →
  zdns.InitResolver config w =
    Done (None, Some ("invalid resolver config: " +:+ snd (zdns.isValid config))) w.
Proof.
  unfold zdns.InitResolver. destruct (zdns.isValid config) as [ok reason].
  simpl. by intros ->.
Qed.

(** Two worlds are equal when their components are. *)
Lemma world_eq (w1 w2 : World) :
  oracle w1 = oracle w2 → heap w1 = heap w2 → caches w1 = caches w2 →
  rand_pos w1 = rand_pos w2 → next_conn w1 = next_conn w2 →
  events w1 = events w2 → w1 = w2.
Proof. destruct w1, w2; simpl; by intros -> -> -> -> -> ->. Qed.

Lemma choose_cache_spec (config : ResolverConfig) (w : World) :
  ∃ c cs, zdns.choose_cache config w = Done c (with_caches cs w).
Proof.
  unfold zdns.choose_cache. case_bool_decide; [by eexists _, _|].
  destruct (cfg_Cache config) as [p|]; [|by eexists _, _].
  exists (Some p), (caches w). wsimpl. f_equal. by destruct w.
Qed.

(** The local address: the zero value of the literal is empty, so the test
    dial always runs and the address it learns is the one kept. *)
Lemma find_localAddr_spec (config : ResolverConfig) (r : Resolver) (w : World) :
  localAddr r = [] →
  match Dial_result (oracle w) "udp" googleDNSResolverAddr with
  | inl ip =>
      ∃ evs,
        zdns.find_localAddr config r w =
          Done (inl (set_localAddr ip r))
            (with_next_conn (S (next_conn w))
               (with_events
                  (events w ++
                   [EvDial "udp" googleDNSResolverAddr; EvClose (next_conn w)] ++ evs)
                  w))
  | inr e =>
      zdns.find_localAddr config r w =
        Done (inr ("unable to find default IP address to open socket: " +:+ e))
          (with_events (events w ++ [EvDial "udp" googleDNSResolverAddr]) w)
  end.
Proof.
  intros Hl. unfold zdns.find_localAddr. rewrite Hl.
  rewrite bool_decide_eq_true_2 by done.
  unfold mbind, M_bind, net_Dial, Conn_Close, emit. wsimpl.
  destruct (Dial_result (oracle w) "udp" googleDNSResolverAddr) as [ip|e];
    wsimpl; [|done].
  cbn [conn_id conn_LocalAddr].
  destruct (Close_result (oracle w) (next_conn w)) as [e|]; wsimpl.
  - eexists [_]. f_equal. apply world_eq; wsimpl; try done.
    by rewrite <- !app_assoc.
  - exists []. f_equal. apply world_eq; wsimpl; try done.
    by rewrite <- !app_assoc.
Qed.

Lemma recycle_socket_spec (r : Resolver) (w : World) :
  match (if shouldRecycleSockets r
         then ListenUDP_result (oracle w) (localAddr r) else None) with
  | Some e =>
      ∃ w', zdns.recycle_socket r w =
        Done (inr ("unable to create UDP connection: " +:+ e)) w'
  | None =>
      ∃ n evs,
        zdns.recycle_socket r w =
          Done (inl (if shouldRecycleSockets r
                     then set_conn (Some {| conn_id := next_conn w;
                                            conn_LocalAddr := localAddr r |}) r
                     else r))
               (with_next_conn n (with_events (events w ++ evs) w))
  end.
Proof.
  unfold zdns.recycle_socket.
  destruct (shouldRecycleSockets r).
  - unfold mbind, M_bind, net_ListenUDP. wsimpl.
    destruct (ListenUDP_result (oracle w) (localAddr r)) as [e|]; wsimpl.
    + by eexists.
    + by eexists _, [_].
  - exists (next_conn w), []. wsimpl. f_equal.
    apply world_eq; wsimpl; try done. by rewrite app_nil_r.
Qed.

(** InitResolver on a valid configuration: it always returns, and fails
    exactly when the test dial fails or, with socket recycling, when the
    socket cannot be opened. *)
Lemma InitResolver_valid (config : ResolverConfig) (w : World) :
  fst (zdns.isValid config) = true →
  slice_wf (heap w) (ExternalNameServers config) →
  match Dial_result (oracle w) "udp" googleDNSResolverAddr with
  | inr e =>
      ∃ w', zdns.InitResolver config w =
        Done (None, Some ("unable to find default IP address to open socket: " +:+ e)) w'
  | inl ip =>
      match (if ShouldRecycleSockets config then ListenUDP_result (oracle w) ip else None) with
      | Some e =>
          ∃ w', zdns.InitResolver config w =
            Done (None, Some ("unable to create UDP connection: " +:+ e)) w'
      | None =>
          ∃ r w', zdns.InitResolver config w = Done (Some r, None) w' ∧
                  built config w ip r w'
      end
  end.
Proof.
  intros Hv Hwf.
  assert (Hrun : ∀ c cs,
    zdns.InitResolver config w =
    (x ← zdns.find_localAddr config (zdns.Resolver_literal config c);
     match x with
     | inr err => mret (None, Some err)
     | inl r =>
         x ← zdns.recycle_socket r;
         match x with
         | inr err => mret (None, Some err)
         | inl r =>
             r ← zdns.set_name_servers config (zdns.make_clients config r);
             mret (Some r, None)
         end
     end)
      (with_events (events w ++ [EvSetLevel (LogLevel config)]) (with_caches cs w)) →
    match Dial_result (oracle w) "udp" googleDNSResolverAddr with
    | inr e =>
        ∃ w', zdns.InitResolver config w =
          Done (None, Some ("unable to find default IP address to open socket: " +:+ e)) w'
    | inl ip =>
        match (if ShouldRecycleSockets config then ListenUDP_result (oracle w) ip else None) with
        | Some e =>
            ∃ w', zdns.InitResolver config w =
              Done (None, Some ("unable to create UDP connection: " +:+ e)) w'
        | None =>
            ∃ r w', zdns.InitResolver config w = Done (Some r, None) w' ∧
                    built config w ip r w'
        end
    end).
  { intros c cs ->.
    pose proof (find_localAddr_spec config (zdns.Resolver_literal config c)
      (with_events (events w ++ [EvSetLevel (LogLevel config)]) (with_caches cs w))
      eq_refl) as Hf.
    revert Hf. wsimpl.
    destruct (Dial_result (oracle w) "udp" googleDNSResolverAddr) as [ip|e].
    2:{ intros Hf. rewrite (bind_Done _ _ _ _ _ Hf). by eexists. }
    intros [evs1 Hf]. rewrite (bind_Done _ _ _ _ _ Hf). clear Hf.
    match goal with |- context [zdns.recycle_socket ?r] =>
      match goal with |- context [(_ ≫= _) ?w1] =>
        pose proof (recycle_socket_spec r w1) as Hr end end.
    revert Hr. wsimpl.
    cbn [shouldRecycleSockets localAddr set_localAddr zdns.Resolver_literal].
    destruct (if ShouldRecycleSockets config then ListenUDP_result (oracle w) ip else None)
      as [e|].
    { intros [w' Hr]. rewrite (bind_Done _ _ _ _ _ Hr). by eexists. }
    intros (n & evs2 & Hr). rewrite (bind_Done _ _ _ _ _ Hr). clear Hr.
    match goal with |- context [zdns.set_name_servers config ?r] =>
      match goal with |- context [(_ ≫= _) ?w1] =>
        destruct (set_name_servers_spec config r w1 Hwf)
          as (a & l & t & evs3 & Hs & Ha & Hl & Hl') end end.
    rewrite (bind_Done _ _ _ _ _ Hs). clear Hs.
    eexists _, _. split; [reflexivity|].
    revert Ha Hl Hl'. wsimpl. intros Ha Hl Hl'.
    constructor; wsimpl.
    1-7: destruct (ShouldRecycleSockets config); unfold zdns.make_clients;
         cbn -[RootServers bool_decide]; repeat case_bool_decide;
         cbn -[RootServers bool_decide]; try done.
    - by exists a, l, t.
    - done.
    - done.
    - exists (evs1 ++ evs2 ++ evs3). by rewrite <- !app_assoc. }
  destruct (choose_cache_spec config w) as (c & cs & Hc).
  apply (Hrun c cs).
  unfold zdns.InitResolver.
  rewrite (isValid_true_reason _ Hv). cbn [negb].
  rewrite (bind_Done _ _ _ _ _ Hc).
  by erewrite bind_Done by reflexivity.
Qed.

(** The address a constructed Resolver keeps is the one the test dial
    learned, whatever [LocalAddrs] holds. *)
Lemma InitResolver_localAddr_from_dial (config : ResolverConfig) (w w' : World)
    (r : Resolver) (err : error) :
  slice_wf (heap w) (ExternalNameServers config) →
  zdns.InitResolver config w = Done (Some r, err) w' →
  ∃ ip, Dial_result (oracle w) "udp" googleDNSResolverAddr = inl ip ∧
        built config w ip r w'.
Proof.
  intros Hwf Hinit.
  destruct (fst (zdns.isValid config)) eqn:Hv.
  - pose proof (InitResolver_valid config w Hv Hwf) as H.
    destruct (Dial_result (oracle w) "udp" googleDNSResolverAddr) as [ip|e].
    + exists ip. split; [done|].
      destruct (if ShouldRecycleSockets config then _ else _).
      * destruct H as [w'' H]. congruence.
      * destruct H as (r' & w'' & H & Hb). congruence.
    + destruct H as [w'' H]. congruence.
  - rewrite (InitResolver_invalid config w Hv) in Hinit. congruence.
Qed.

End construction.

(** ** Operations of a constructed Resolver *)

Section operations.
Context `{D : Declared}.

Lemma keeps_heap_bind {A B : Type} (m : M A) (f : A → M B) :
  keeps_heap m → (∀ a, keeps_heap (f a)) → keeps_heap (m ≫= f).
Proof.
  intros Hm Hf w b w' Hrun.
  apply bind_Done_inv in Hrun as (a & w1 & H1 & H2).
  destruct (Hm _ _ _ H1) as [E1 E2]. destruct (Hf _ _ _ _ H2) as [E3 E4].
  split; congruence.
Qed.

Lemma keeps_heap_ret {A : Type} (a : A) : keeps_heap (mret a).
Proof. intros w a' w' [= <- <-]. done. Qed.

Lemma keeps_heap_when (b : bool) (m : M unit) : keeps_heap m → keeps_heap (when b m).
Proof. destruct b; [done|]. intros _. apply keeps_heap_ret. Qed.

Lemma keeps_heap_Fatal {A : Type} (msg : string) : keeps_heap (log_Fatal (A := A) msg).
Proof. by intros w a w'. Qed.

Lemma keeps_heap_emit (e : Event) : keeps_heap (emit e).
Proof. intros w a w' [= <- <-]. done. Qed.

Lemma keeps_heap_rand_Intn (n : nat) : keeps_heap (rand_Intn n).
Proof.
  intros w a w'. unfold rand_Intn. case_decide; [done|]. by intros [= <- <-].
Qed.

Lemma keeps_heap_index_strings (s : slice) (i : nat) : keeps_heap (index_strings s i).
Proof.
  intros w a w'. unfold index_strings.
  destruct (_ !! i); [|done]. by intros [= <- <-].
Qed.

Lemma keeps_heap_DoSingleDstServerLookup lc r q dst it :
  keeps_heap (DoSingleDstServerLookup lc r q dst it).
Proof. intros w a w' [= <- <-]. done. Qed.

Lemma keeps_heap_Conn_Close (c : Conn) : keeps_heap (Conn_Close c).
Proof. intros w a w' [= <- <-]. done. Qed.

Create HintDb keeps.

#[local] Hint Resolve keeps_heap_ret keeps_heap_when keeps_heap_Fatal
  keeps_heap_emit keeps_heap_rand_Intn keeps_heap_index_strings
  keeps_heap_DoSingleDstServerLookup keeps_heap_Conn_Close : keeps.

Lemma keeps_heap_randomExternalNameServer (r : Resolver) :
  keeps_heap (zdns.randomExternalNameServer r).
Proof.
  unfold zdns.randomExternalNameServer.
  repeat (apply keeps_heap_bind; [auto with keeps|intros ?]). auto with keeps.
Qed.

Lemma keeps_heap_randomRootNameServer (r : Resolver) :
  keeps_heap (zdns.randomRootNameServer r).
Proof.
  unfold zdns.randomRootNameServer.
  repeat (apply keeps_heap_bind; [auto with keeps|intros ?]). auto with keeps.
Qed.

#[local] Hint Resolve keeps_heap_randomExternalNameServer
  keeps_heap_randomRootNameServer : keeps.

(** No operation of a Resolver writes to the heap. *)
Lemma keeps_heap_run_op (r : Resolver) (op : Op) : keeps_heap (run_op r op).
Proof.
  destruct op as [q dst|q| | |]; unfold run_op, zdns.ExternalLookup,
    zdns.IterativeLookup, zdns.Close.
  - repeat (apply keeps_heap_bind; [|intros ?]); auto with keeps.
    case_bool_decide; auto with keeps.
  - repeat (apply keeps_heap_bind; [|intros ?]); auto with keeps.
  - destruct (conn r); [|auto with keeps].
    apply keeps_heap_bind; [auto with keeps|]. intros [e|]; auto with keeps.
  - repeat (apply keeps_heap_bind; [|intros ?]); auto with keeps.
  - repeat (apply keeps_heap_bind; [|intros ?]); auto with keeps.
Qed.

(** A store through the configuration's slice changes its array only, and
    not the length of that array. *)
Lemma slice_store_frame (h h' : Heap) (s : slice) (i : nat) (v : string) :
  slice_store h s i v = Some h' →
  length h' = length h ∧
  (∀ a, slice_array s ≠ Some a → h' !! a = h !! a) ∧
  (∀ a, length <$> h' !! a = length <$> h !! a).
Proof.
  destruct s as [|b o n]; simpl; [done|].
  case_decide; [|done].
  destruct (h !! b) as [arr|] eqn:Hb; simpl; [|done].
  intros [= <-]. split; [by rewrite length_insert|]. split.
  - intros a Ha. apply list_lookup_insert_ne. congruence.
  - intros a. destruct (decide (b = a)) as [->|Hne].
    + rewrite list_lookup_insert_eq by (by eapply lookup_lt_Some).
      rewrite Hb. simpl. by rewrite length_insert.
    + by rewrite list_lookup_insert_ne.
Qed.

(** Along the life of a Resolver, the arrays other than the configuration's
    are never written, and no array changes its length. *)
Lemma evolves_frame (config : ResolverConfig) (r : Resolver) (w1 w : World) :
  evolves config r w1 w →
  oracle w = oracle w1 ∧
  length (heap w) = length (heap w1) ∧
  (∀ a, slice_array (ExternalNameServers config) ≠ Some a →
        heap w !! a = heap w1 !! a) ∧
  (∀ a, length <$> heap w !! a = length <$> heap w1 !! a).
Proof.
  induction 1 as [w|w1 w2 w3 op _ IH Hop|w1 w2 i v h _ IH Hst].
  - done.
  - apply keeps_heap_run_op in Hop as [E1 E2]. rewrite E1, E2. done.
  - destruct IH as (Ho & Hlen & Hfr & Hal).
    apply slice_store_frame in Hst as (Hlen' & Hfr' & Hal').
    wsimpl. split; [done|]. split; [congruence|]. split.
    + intros a Ha. rewrite Hfr' by done. by apply Hfr.
    + intros a. by rewrite Hal'.
Qed.

Lemma pick_server_empty (s : slice) (msg : string) (w : World) :
  slice_is_nil s = true ∨ slice_len s = 0 →
  pick_server s msg w = Fatal msg.
Proof.
  intros Hs. unfold pick_server.
  assert (slice_is_nil s || bool_decide (slice_len s = 0) = true) as ->; [|done].
  destruct Hs as [->| ->]; [done|]. by rewrite orb_true_r.
Qed.

Lemma pick_server_nonempty (s : slice) (msg : string) (w : World) :
  slice_wf (heap w) s →
  slice_len s ≠ 0 →
  ∃ v,
    slice_elems (heap w) s !! (rand_draw (oracle w) (rand_pos w) `mod` slice_len s)
      = Some v ∧
    pick_server s msg w = Done v (with_rand_pos (S (rand_pos w)) w).
Proof.
  intros Hwf Hn. unfold pick_server.
  assert (slice_is_nil s || bool_decide (slice_len s = 0) = false) as ->.
  { destruct s; [done|]. simpl in *. by rewrite bool_decide_eq_false_2. }
  unfold mbind, M_bind, rand_Intn, index_strings. wsimpl.
  destruct (decide (slice_len s = 0)); [done|]. wsimpl.
  pose proof (slice_elems_length _ _ Hwf) as Hlen.
  destruct (lookup_lt_is_Some_2 (slice_elems (heap w) s)
              (rand_draw (oracle w) (rand_pos w) `mod` slice_len s)) as [v Hv].
  { rewrite Hlen. by apply Nat.mod_upper_bound. }
  exists v. by rewrite Hv.
Qed.

(** What is known of a constructed Resolver in any later world: its lists
    are slices of the heap, and the root list is the slice of the whole of
    the package's table, which shows the declared root servers unless the
    caller has written to the table through the configuration's slice. *)
Lemma constructed_lists (config : ResolverConfig) (r : Resolver) (w : World) :
  constructed config r w →
  slice_wf (heap w) (externalNameServers r) ∧
  slice_wf (heap w) (rootNameServers r) ∧
  rootNameServers r = mk_slice RootServers_addr 0 (length RootServers) ∧
  (slice_array (ExternalNameServers config) ≠ Some RootServers_addr →
     slice_elems (heap w) (rootNameServers r) = RootServers).
Proof.
  intros (w0 & w1 & err & (Hroot & Hwf) & Hinit & Hev).
  destruct (InitResolver_localAddr_from_dial _ _ _ _ _ Hwf Hinit) as (ip & _ & Hb).
  destruct (evolves_frame _ _ _ _ Hev) as (_ & Hlen & Hfr & Hal).
  destruct (built_external _ _ _ _ _ Hb) as (a & l & t & Hext & Ha & Hh & Hl & _).
  assert (Hcfg : slice_array (ExternalNameServers config) ≠ Some a).
  { destruct (ExternalNameServers config) as [|b o n]; [done|].
    apply slice_wf_addr in Hwf. simpl. intros [= ->]. lia. }
  rewrite (built_root _ _ _ _ _ Hb), Hext.
  assert (Hr1 : heap w1 !! RootServers_addr = Some RootServers).
  { rewrite Hh. by apply lookup_app_l_Some. }
  split; [|split; [|split]].
  - exists l. rewrite Hfr by done. split; [done|lia].
  - pose proof (Hal RootServers_addr) as Hlr. rewrite Hr1 in Hlr.
    destruct (heap w !! RootServers_addr) as [arr|] eqn:Harr; [|done].
    simpl in Hlr. injection Hlr as Hlr. exists arr. split; [done|lia].
  - done.
  - intros Hne. unfold slice_elems. rewrite Hfr, Hr1 by done. simpl.
    by rewrite firstn_all.
Qed.

Lemma randomExternalNameServer_pick (r : Resolver) :
  zdns.randomExternalNameServer r =
  pick_server (externalNameServers r) "no external name servers specified".
Proof. done. Qed.

Lemma randomRootNameServer_pick (r : Resolver) :
  zdns.randomRootNameServer r =
  pick_server (rootNameServers r) "no root name servers specified".
Proof. done. Qed.

(** C2, as amended.  For a constructed Resolver and any question,
    ExternalLookup with a non-empty [dstServer] hands the question to the
    lookup client for exactly that server; with an empty [dstServer] and a
    non-empty external list it hands it over for the server at the index the
    random source draws, an element of that list, and every element of the
    list is picked for some draw; in both cases once, with the iterative
    flag false.  With an empty [dstServer] and an empty external list
    nothing is dispatched: the call is fatal. *)
Theorem ExternalLookup_dispatch (config : ResolverConfig) (r : Resolver)
    (w : World) (q : Question) (dstServer : string) :
  constructed config r w →
  let servers := slice_elems (heap w) (externalNameServers r) in
  let answer s :=
    DoSingleDstServerLookup_result (oracle w) (events w) (lookupClient r) r q s false in
  let sent s := EvSingleDstServerLookup (lookupClient r) q s false in
  (dstServer ≠ "" →
     zdns.ExternalLookup r q dstServer w =
       Done (answer dstServer) (with_events (events w ++ [sent dstServer]) w)) ∧
  (dstServer = "" → servers ≠ [] →
     ∃ s,
       servers !! (rand_draw (oracle w) (rand_pos w) `mod` length servers) = Some s ∧
       s ∈ servers ∧
       zdns.ExternalLookup r q dstServer w =
         Done (answer s)
           (with_events (events w ++ [sent s]) (with_rand_pos (S (rand_pos w)) w))) ∧
  (dstServer = "" →
     ∀ i s, servers !! i = Some s → rand_draw (oracle w) (rand_pos w) = i →
       zdns.ExternalLookup r q dstServer w =
         Done (answer s)
           (with_events (events w ++ [sent s]) (with_rand_pos (S (rand_pos w)) w))) ∧
  (dstServer = "" → servers = [] →
     zdns.ExternalLookup r q dstServer w = Fatal "no external name servers specified").
Proof.
  intros Hc servers answer sent.
  destruct (constructed_lists _ _ _ Hc) as (Hwf & _).
  pose proof (slice_elems_length _ _ Hwf) as Hlen. fold servers in Hlen.
  assert (Hpick : dstServer = "" → servers ≠ [] →
     ∃ s,
       servers !! (rand_draw (oracle w) (rand_pos w) `mod` length servers) = Some s ∧
       s ∈ servers ∧
       zdns.ExternalLookup r q dstServer w =
         Done (answer s)
           (with_events (events w ++ [sent s]) (with_rand_pos (S (rand_pos w)) w))).
  { intros -> Hs. unfold zdns.ExternalLookup.
    rewrite bool_decide_eq_true_2 by done.
    rewrite randomExternalNameServer_pick.
    destruct (pick_server_nonempty (externalNameServers r)
                "no external name servers specified" w Hwf) as (s & Hs1 & Hs2).
    { rewrite <- Hlen. by destruct servers. }
    exists s. fold servers in Hs1. rewrite Hlen. split; [done|].
    split; [by eapply list_elem_of_lookup_2|].
    by rewrite (bind_Done _ _ _ _ _ Hs2). }
  split; [|split; [done|split]].
  - intros Hne. unfold zdns.ExternalLookup.
    rewrite bool_decide_eq_false_2 by done. done.
  - intros Hd i s Hi Hdraw.
    destruct Hpick as (s' & Hs' & _ & Hrun); [done|by intros E; rewrite E in Hi|].
    rewrite Hdraw, Nat.mod_small in Hs' by (by eapply lookup_lt_Some).
    congruence.
  - intros -> Hs. unfold zdns.ExternalLookup.
    rewrite bool_decide_eq_true_2 by done.
    rewrite randomExternalNameServer_pick.
    apply bind_Fatal, pick_server_empty. right.
    rewrite <- Hlen, Hs. done.
Qed.

(** C3.  For a constructed Resolver and any question, IterativeLookup hands
    the question to the lookup client once, with the iterative flag true,
    for the server that the root list shows at the index the random source
    draws.  The root list is the slice of the whole of the package's table
    of 13 root servers: InitResolver leaves it showing the declared root
    servers, and it shows them in every later world unless the caller has
    written to that table.  Each of the 13 entries is picked for some
    draw, and the server picked is the same whatever the external list
    is. *)
Theorem IterativeLookup_starts_at_random_root (config : ResolverConfig)
    (r : Resolver) (w : World) (q : Question) :
  constructed config r w →
  rootNameServers r = mk_slice RootServers_addr 0 13 ∧
  (∀ w0 w1 err,
     starts_ok w0 config →
     zdns.InitResolver config w0 = Done (Some r, err) w1 →
     slice_elems (heap w1) (rootNameServers r) = RootServers) ∧
  (slice_array (ExternalNameServers config) ≠ Some RootServers_addr →
     slice_elems (heap w) (rootNameServers r) = RootServers) ∧
  ∃ s,
    slice_elems (heap w) (rootNameServers r)
      !! (rand_draw (oracle w) (rand_pos w) `mod` 13) = Some s ∧
    s ∈ slice_elems (heap w) (rootNameServers r) ∧
    zdns.IterativeLookup r q w =
      Done (DoSingleDstServerLookup_result (oracle w) (events w) (lookupClient r)
              r q s true)
        (with_events (events w ++ [EvSingleDstServerLookup (lookupClient r) q s true])
           (with_rand_pos (S (rand_pos w)) w)) ∧
    (∀ i, i < 13 → rand_draw (oracle w) (rand_pos w) = i →
          slice_elems (heap w) (rootNameServers r) !! i = Some s) ∧
    ∀ ext,
      zdns.randomRootNameServer (set_externalNameServers ext r) w =
        Done s (with_rand_pos (S (rand_pos w)) w).
Proof.
  intros Hc.
  destruct (constructed_lists _ _ _ Hc) as (_ & Hwf & Hroot & Hel).
  split; [by rewrite Hroot, RootServers_count|].
  split.
  { intros w0 w1 err [Ht Hwf0] Hinit.
    destruct (InitResolver_localAddr_from_dial _ _ _ _ _ Hwf0 Hinit) as (ip & _ & Hb).
    destruct (built_external _ _ _ _ _ Hb) as (a & l & t & _ & _ & Hh & _).
    rewrite Hroot. unfold slice_elems. rewrite Hh.
    rewrite (lookup_app_l_Some _ _ _ _ Ht). simpl. by rewrite firstn_all. }
  split; [done|].
  destruct (pick_server_nonempty (rootNameServers r)
              "no root name servers specified" w Hwf) as (s & Hs1 & Hs2).
  { rewrite Hroot. simpl. by rewrite RootServers_count. }
  assert (Hlen : slice_len (rootNameServers r) = 13).
  { rewrite Hroot. simpl. apply RootServers_count. }
  rewrite Hlen in Hs1.
  exists s. split; [done|]. split; [by eapply list_elem_of_lookup_2|].
  unfold zdns.IterativeLookup. rewrite randomRootNameServer_pick.
  split; [by rewrite (bind_Done _ _ _ _ _ Hs2)|].
  split; [|intros ext; by rewrite randomRootNameServer_pick].
  intros i Hi Hdraw. by rewrite Hdraw, Nat.mod_small in Hs1.
Qed.

(** C6.  A lookup on a Resolver whose server list is nil or empty ends the
    process ([log.Fatal]) instead of returning a status and an error:
    ExternalLookup with an empty server argument when the external list is
    empty, IterativeLookup when the root list is empty, and Lookup of the
    earlier revision when its one list is empty. *)
Theorem lookup_on_empty_server_list_is_fatal (r : Resolver) (q : Question)
    (w : World) :
  (slice_is_nil (externalNameServers r) = true ∨
   slice_len (externalNameServers r) = 0 →
     zdns.ExternalLookup r q "" w = Fatal "no external name servers specified") ∧
  (slice_is_nil (rootNameServers r) = true ∨ slice_len (rootNameServers r) = 0 →
     zdns.IterativeLookup r q w = Fatal "no root name servers specified") ∧
  (∀ all single (r' : zdns_prev.Resolver),
     slice_is_nil (zdns_prev.nameServers r') = true ∨
     slice_len (zdns_prev.nameServers r') = 0 →
     zdns_prev.Lookup all single r' q w = Fatal "No name servers specified").
Proof.
  repeat split.
  - intros H. unfold zdns.ExternalLookup. rewrite bool_decide_eq_true_2 by done.
    rewrite randomExternalNameServer_pick. by apply bind_Fatal, pick_server_empty.
  - intros H. unfold zdns.IterativeLookup.
    rewrite randomRootNameServer_pick. by apply bind_Fatal, pick_server_empty.
  - intros all single r' H. unfold zdns_prev.Lookup.
    apply bind_Fatal. unfold zdns_prev.randomNameServer.
    apply bind_Fatal.
    assert (slice_is_nil (zdns_prev.nameServers r')
            || bool_decide (slice_len (zdns_prev.nameServers r') = 0) = true) as ->;
      [|done].
    destruct H as [->| ->]; [done|]. by rewrite orb_true_r.
Qed.

(** C5, as amended.  The server lists of a constructed Resolver are fixed
    at construction.  In every later world, reached by operations of the
    Resolver and by the caller's stores through the configuration's slice,
    the external list shows what it showed when InitResolver returned.  It
    is a slice of an array of its own, never the configuration's: it holds
    a copy of the elements the configuration's slice had at construction
    when that slice named a server, and the OS's servers when it named
    none.  The root list is unchanged as well, as long as the
    configuration's slice is not a slice of the package's root table, and
    no operation of the Resolver writes to the heap at all. *)
Theorem server_lists_fixed_after_construction (config : ResolverConfig)
    (w0 w1 w : World) (r : Resolver) (err : error) :
  slice_wf (heap w0) (ExternalNameServers config) →
  zdns.InitResolver config w0 = Done (Some r, err) w1 →
  evolves config r w1 w →
  slice_elems (heap w) (externalNameServers r) =
    slice_elems (heap w1) (externalNameServers r) ∧
  slice_array (externalNameServers r) ≠ slice_array (ExternalNameServers config) ∧
  slice_elems (heap w1) (externalNameServers r) =
    (if decide (slice_len (ExternalNameServers config) = 0)
     then os_servers (oracle w0)
     else slice_elems (heap w0) (ExternalNameServers config)) ∧
  (slice_array (ExternalNameServers config) ≠ Some RootServers_addr →
     slice_elems (heap w) (rootNameServers r) =
       slice_elems (heap w1) (rootNameServers r)) ∧
  (∀ op w', run_op r op w = Done () w' → heap w' = heap w).
Proof.
  intros Hwf Hinit Hev.
  destruct (InitResolver_localAddr_from_dial _ _ _ _ _ Hwf Hinit) as (ip & _ & Hb).
  destruct (evolves_frame _ _ _ _ Hev) as (_ & Hlen & Hfr & _).
  destruct (built_external _ _ _ _ _ Hb) as (a & l & t & Hext & Ha & Hh & Hl & Hl').
  assert (Hcfg : slice_array (ExternalNameServers config) ≠ Some a).
  { destruct (ExternalNameServers config) as [|b o n]; [done|].
    apply slice_wf_addr in Hwf. simpl. intros [= ->]. lia. }
  rewrite Hext, (built_root _ _ _ _ _ Hb).
  repeat split.
  - unfold slice_elems. by rewrite Hfr.
  - simpl. congruence.
  - unfold slice_elems at 1. rewrite Hl. simpl. by rewrite firstn_all.
  - intros Hne. unfold slice_elems. by rewrite Hfr.
  - intros op w' Hop. by apply keeps_heap_run_op in Hop as [? _].
Qed.

(** C1, as amended.  InitResolver returns an error and no Resolver whenever
    the configuration is invalid, that is when the transport mode is
    invalid, the IP version mode is invalid, or both a Cache and a nonzero
    CacheSize are given; it then does nothing else.  On a valid
    configuration it always returns, and it returns an error and no
    Resolver exactly when the test dial fails or, with socket recycling,
    the UDP socket cannot be opened.  Every Resolver it returns comes with
    a nil error, from a valid configuration, and carries that
    configuration's valid modes, so no invalid configuration reaches a
    lookup. *)
Theorem InitResolver_validates_config (config : ResolverConfig) (w : World) :
  slice_wf (heap w) (ExternalNameServers config) →
  (config_invalid config →
     ∃ reason,
       zdns.InitResolver config w =
         Done (None, Some ("invalid resolver config: " +:+ reason)) w) ∧
  (cfg_Cache config ≠ None → CacheSize config ≠ 0%Z →
     ∃ e, zdns.InitResolver config w = Done (None, Some e) w) ∧
  (¬ config_invalid config →
     match Dial_result (oracle w) "udp" googleDNSResolverAddr with
     | inr e =>
         ∃ w', zdns.InitResolver config w =
           Done (None,
                 Some ("unable to find default IP address to open socket: " +:+ e)) w'
     | inl ip =>
         match (if ShouldRecycleSockets config
                then ListenUDP_result (oracle w) ip else None) with
         | Some e =>
             ∃ w', zdns.InitResolver config w =
               Done (None, Some ("unable to create UDP connection: " +:+ e)) w'
         | None =>
             ∃ r w', zdns.InitResolver config w = Done (Some r, None) w'
         end
     end) ∧
  (∀ r err w',
     zdns.InitResolver config w = Done (Some r, err) w' →
     err = None ∧ ¬ config_invalid config ∧
     fst (transportMode_isValid (transportMode r)) = true ∧
     fst (IPVersionMode_IsValid (ipVersionMode r)) = true).
Proof.
  intros Hwf.
  assert (Hinv : config_invalid config →
    zdns.InitResolver config w =
      Done (None, Some ("invalid resolver config: " +:+ snd (zdns.isValid config))) w).
  { intros H. by apply InitResolver_invalid, isValid_false. }
  repeat split.
  - intros H. eexists. by apply Hinv.
  - intros Hc Hs. eexists. apply Hinv. right. by right.
  - intros Hv. apply isValid_true in Hv.
    pose proof (InitResolver_valid config w Hv Hwf) as H.
    destruct (Dial_result (oracle w) "udp" googleDNSResolverAddr) as [ip|e]; [|done].
    destruct (if ShouldRecycleSockets config then _ else _); [done|].
    destruct H as (r & w' & H & _). by exists r, w'.
  - destruct (fst (zdns.isValid config)) eqn:Hv.
    + pose proof (InitResolver_valid config w Hv Hwf) as H'.
      destruct (Dial_result (oracle w) "udp" googleDNSResolverAddr) as [ip|e].
      * destruct (if ShouldRecycleSockets config then _ else _).
        -- destruct H' as [w'' H']. congruence.
        -- destruct H' as (r' & w'' & H' & _). congruence.
      * destruct H' as [w'' H']. congruence.
    + rewrite (InitResolver_invalid config w Hv) in H. congruence.
  - intros Hi. apply Hinv in Hi. congruence.
  - destruct (InitResolver_localAddr_from_dial _ _ _ _ _ Hwf H) as (ip & _ & Hb).
    destruct (built_modes _ _ _ _ _ Hb) as [-> _].
    destruct (fst (transportMode_isValid (TransportMode config))) eqn:E; [done|].
    assert (Hi : config_invalid config) by (by left).
    apply Hinv in Hi. congruence.
  - destruct (InitResolver_localAddr_from_dial _ _ _ _ _ Hwf H) as (ip & _ & Hb).
    destruct (built_modes _ _ _ _ _ Hb) as [_ ->].
    destruct (fst (IPVersionMode_IsValid (IPVersionMode config))) eqn:E; [done|].
    assert (Hi : config_invalid config) by (right; by left).
    apply Hinv in Hi. congruence.
Qed.

(** The local address of every Resolver that InitResolver returns is the
    address the test dial learned; the connection of that dial is closed
    right after; the clients and the recycled socket are bound to that
    address.  [LocalAddrs] is never read and the random source is not
    consulted: the literal leaves [localAddr] empty, so the branch that
    would choose among [LocalAddrs] is dead. *)
Lemma InitResolver_localAddr_is_dial_address (config : ResolverConfig)
    (w w' : World) (r : Resolver) (err : error) :
  slice_wf (heap w) (ExternalNameServers config) →
  zdns.InitResolver config w = Done (Some r, err) w' →
  Dial_result (oracle w) "udp" googleDNSResolverAddr = inl (localAddr r) ∧
  rand_pos w' = rand_pos w ∧
  (∃ evs, events w' =
     events w ++ [EvSetLevel (LogLevel config); EvDial "udp" googleDNSResolverAddr;
                  EvClose (next_conn w)] ++ evs) ∧
  (∀ c, udpClient r = Some c → Dialer_LocalAddr c = localAddr r) ∧
  (∀ c, tcpClient r = Some c → Dialer_LocalAddr c = localAddr r) ∧
  (∀ c, conn r = Some c → conn_LocalAddr c = localAddr r).
Proof.
  intros Hwf Hinit.
  destruct (InitResolver_localAddr_from_dial _ _ _ _ _ Hwf Hinit) as (ip & Hd & Hb).
  rewrite (built_localAddr _ _ _ _ _ Hb).
  repeat split; try done.
  - by apply (built_rand _ _ _ _ _ Hb).
  - by apply (built_events _ _ _ _ _ Hb).
  - intros c. rewrite (built_udpClient _ _ _ _ _ Hb).
    destruct (_ || _); [|done]. by intros [= <-].
  - intros c. rewrite (built_tcpClient _ _ _ _ _ Hb).
    destruct (_ || _); [|done]. by intros [= <-].
  - intros c. rewrite (built_conn _ _ _ _ _ Hb).
    destruct (ShouldRecycleSockets config); [|done]. by intros [= <-].
Qed.

End operations.

(** ** The name-to-address cache *)

Section cache_properties.
Context {V : Type}.
Implicit Types (c : cachehash.CacheHash V) (es : list (string * V)).

Lemma assoc_remove_ne (k k' : string) es :
  k' ≠ k → cachehash.assoc k' (cachehash.remove k es) = cachehash.assoc k' es.
Proof.
  intros Hne. unfold cachehash.remove.
  induction es as [|[k'' v] es IH]; [done|].
  rewrite filter_cons. simpl. case_decide as Hk; simpl.
  - by rewrite IH.
  - rewrite IH. rewrite decide_False; [done|]. congruence.
Qed.


(** [Get] returns what [find] finds and changes the order only. *)
Lemma Get_fst (k : string) c : fst (cachehash.Get k c) = cachehash.find k c.
Proof. unfold cachehash.Get. by destruct (cachehash.find k c). Qed.

Lemma Get_find (k k' : string) c :
  cachehash.find k' (snd (cachehash.Get k c)) = cachehash.find k' c.
Proof.
  unfold cachehash.Get. destruct (cachehash.find k c) as [v|] eqn:Hf; [|done].
  unfold cachehash.find in *. simpl. case_decide as Hk.
  - by subst.
  - by apply assoc_remove_ne.
Qed.

Lemma Get_maxLen (k : string) c :
  cachehash.maxLen (snd (cachehash.Get k c)) = cachehash.maxLen c.
Proof. unfold cachehash.Get. by destruct (cachehash.find k c). Qed.

(** After [Upsert], the key is found with the new value, unless the cache
    holds nothing at all. *)
Lemma Upsert_find_eq (k : string) (v : V) c :
  (0 < cachehash.maxLen c)%Z →
  cachehash.find k (cachehash.Upsert k v c) = Some v.
Proof.
  intros Hpos. unfold cachehash.find, cachehash.Upsert. simpl.
  destruct (Z.to_nat (cachehash.maxLen c)) as [|n] eqn:Hn; [lia|].
  simpl. by rewrite decide_True.
Qed.



(** The cache never holds more than [maxLen] entries once something has
    been inserted. *)
Lemma Upsert_bounded (k : string) (v : V) c :
  length (cachehash.entries (cachehash.Upsert k v c)) ≤ Z.to_nat (cachehash.maxLen c).
Proof. unfold cachehash.Upsert. simpl. rewrite length_take. lia. Qed.

(** Removing another key does not push [k] back. *)
Lemma rank_remove (k k' : string) es (i : nat) :
  k' ≠ k → rank k es = Some i →
  ∃ j, rank k (cachehash.remove k' es) = Some j ∧ j ≤ i.
Proof.
  intros Hne. unfold cachehash.remove. revert i.
  induction es as [|[k'' v] es IH]; intros i; simpl; [done|].
  rewrite filter_cons. simpl. case_decide as Hk.
  - intros [= <-]. subst k''. rewrite decide_True by done. simpl.
    rewrite decide_True by done. exists 0. split; [done|lia].
  - destruct (rank k es) as [j|] eqn:Hr; [|done]. simpl. intros [= <-].
    destruct (IH j eq_refl) as (j' & Hj' & Hle).
    case_decide as Hk'; simpl.
    + rewrite decide_False by done. rewrite Hj'. simpl. exists (S j'). split; [done|lia].
    + exists j'. split; [done|lia].
Qed.

(** Trimming keeps the entries of rank below the bound. *)
Lemma rank_take (k : string) es (i n : nat) :
  rank k es = Some i → i < n →
  rank k (take n es) = Some i ∧ cachehash.assoc k (take n es) = cachehash.assoc k es.
Proof.
  revert i n. induction es as [|[k' v] es IH]; intros i [|n]; simpl; try done;
    try lia.
  case_decide; [done|].
  destruct (rank k es) as [j|] eqn:Hr; [|done]. simpl. intros [= <-] Hlt.
  destruct (IH j n eq_refl) as [-> ->]; [lia|]. done.
Qed.

(** [Get] and [Upsert] for another key push [k] back by one place at
    most, and keep its value as long as it stays within the capacity. *)
Lemma Get_rank (k k' : string) c (i : nat) :
  rank k (cachehash.entries c) = Some i →
  ∃ j, rank k (cachehash.entries (snd (cachehash.Get k' c))) = Some j ∧ j ≤ S i.
Proof.
  intros Hr. unfold cachehash.Get.
  destruct (cachehash.find k' c) as [v|]; simpl; [|exists i; split; [done|lia]].
  case_decide as Hk; [exists 0; split; [done|lia]|].
  destruct (rank_remove k k' _ i Hk Hr) as (j & -> & Hle).
  exists (S j). split; [done|lia].
Qed.

Lemma Upsert_rank (k k' : string) (v : V) c (i : nat) :
  rank k (cachehash.entries c) = Some i →
  S i < Z.to_nat (cachehash.maxLen c) →
  ∃ j, rank k (cachehash.entries (cachehash.Upsert k' v c)) = Some j ∧ j ≤ S i ∧
       (k' ≠ k → cachehash.find k (cachehash.Upsert k' v c) = cachehash.find k c).
Proof.
  intros Hr Hlt. unfold cachehash.Upsert, cachehash.find. simpl.
  destruct (decide (k' = k)) as [->|Hk].
  - exists 0. destruct (Z.to_nat (cachehash.maxLen c)) as [|n]; [lia|].
    simpl. rewrite decide_True by done. split; [done|]. split; [lia|done].
  - destruct (rank_remove k k' _ i Hk Hr) as (j & Hj & Hle).
    assert (Hr' : rank k ((k', v) :: cachehash.remove k' (cachehash.entries c))
                  = Some (S j)).
    { simpl. rewrite decide_False by done. by rewrite Hj. }
    destruct (rank_take k _ (S j) (Z.to_nat (cachehash.maxLen c)) Hr') as [-> ->];
      [lia|].
    exists (S j). split; [done|]. split; [lia|]. intros _.
    simpl. rewrite decide_False by done. by apply assoc_remove_ne.
Qed.

End cache_properties.

(** ** The MX module *)

Lemma addresses_of_failed (ret : TargetedReturn) :
  failed ret → addresses_of (ret_status ret) (ret_result ret) = no_addresses.
Proof.
  unfold failed, addresses_of. intros [Hs|Hr].
  - destruct (ret_result ret); [|done]. by rewrite bool_decide_eq_false_2.
  - by rewrite Hr.
Qed.

Section mx_properties.
Context `{D : Declared}.
Implicit Types (mxMod : mxlookup.MXLookupModule)
  (c : cachehash.CacheHash CachedAddresses).

(** A name in the cache: the cached addresses, an empty trace, the world
    untouched. *)
Lemma lookupIPs_hit mxMod c (r : Resolver) (name nameServer : string)
    (ipMode : Z) (w : World) (v : CachedAddresses) :
  mxlookup.CacheHash mxMod = Some c →
  cachehash.find name c = Some v →
  mxlookup.lookupIPs mxMod r name nameServer ipMode w =
    Done (v, [], mxlookup.set_CacheHash (Some (snd (cachehash.Get name c))) mxMod) w.
Proof.
  intros Hc Hf. unfold mxlookup.lookupIPs. rewrite Hc.
  pose proof (Get_fst name c) as H1. rewrite Hf in H1.
  destruct (cachehash.Get name c) as [res c']. simpl in H1. subst res. done.
Qed.

(** A name not in the cache: one targeted lookup, its trace, and the
    outcome stored under the name. *)
Lemma lookupIPs_miss mxMod c (r : Resolver) (name nameServer : string)
    (ipMode : Z) (w : World) :
  mxlookup.CacheHash mxMod = Some c →
  cachehash.find name c = None →
  let ret := told mxMod r name nameServer w in
  let retv := addresses_of (ret_status ret) (ret_result ret) in
  mxlookup.lookupIPs mxMod r name nameServer ipMode w =
    Done (retv, ret_trace ret,
          mxlookup.set_CacheHash (Some (cachehash.Upsert name retv c)) mxMod)
         (with_events (events w ++ [asked mxMod name nameServer]) w).
Proof.
  intros Hc Hf. unfold mxlookup.lookupIPs. rewrite Hc.
  pose proof (Get_fst name c) as H1. rewrite Hf in H1.
  unfold cachehash.Get in *. rewrite Hf. simpl.
  unfold mbind, M_bind, DoTargetedLookup, told, asked. wsimpl.
  by destruct (DoTargetedLookup_result _ _ _ _ _ _ _ _) as [[[result trace] status] err].
Qed.

Lemma set_CacheHash_id mxMod c :
  mxlookup.CacheHash mxMod = Some c → mxlookup.set_CacheHash (Some c) mxMod = mxMod.
Proof. destruct mxMod. simpl. by intros ->. Qed.

Lemma with_events_id (w : World) : with_events (events w ++ []) w = w.
Proof. apply world_eq; wsimpl; try done. by rewrite app_nil_r. Qed.









(** One call of lookupIPs, for whatever name, keeps an entry that is not
    yet the last the capacity allows, and pushes it back by one place at
    most. *)
Lemma lookupIPs_keeps_entry mxMod c (r : Resolver) (name nameServer : string)
    (ipMode : Z) (w w' : World) (k : string) (v ips : CachedAddresses) (i : nat)
    (trace : Trace) mxMod' :
  mxlookup.CacheHash mxMod = Some c →
  cachehash.find k c = Some v →
  rank k (cachehash.entries c) = Some i →
  S i < Z.to_nat (cachehash.maxLen c) →
  mxlookup.lookupIPs mxMod r name nameServer ipMode w = Done (ips, trace, mxMod') w' →
  ∃ c' j,
    mxlookup.CacheHash mxMod' = Some c' ∧
    cachehash.find k c' = Some v ∧
    rank k (cachehash.entries c') = Some j ∧ j ≤ S i ∧
    cachehash.maxLen c' = cachehash.maxLen c.
Proof.
  intros Hc Hf Hr Hlt Hrun.
  destruct (cachehash.find name c) as [found|] eqn:Hn.
  - rewrite (lookupIPs_hit mxMod c r name nameServer ipMode w found Hc Hn) in Hrun.
    injection Hrun as _ _ <- _.
    destruct (Get_rank k name c i Hr) as (j & Hj & Hle).
    exists (snd (cachehash.Get name c)), j.
    split; [done|]. split; [by rewrite Get_find|]. split; [done|].
    split; [done|]. apply Get_maxLen.
  - rewrite (lookupIPs_miss mxMod c r name nameServer ipMode w Hc Hn) in Hrun.
    injection Hrun as _ _ <- _.
    set (retv := addresses_of _ _).
    destruct (Upsert_rank k name retv c i Hr Hlt) as (j & Hj & Hle & Hfind).
    exists (cachehash.Upsert name retv c), j.
    split; [done|]. split; [|done].
    rewrite Hfind; [done|]. intros ->. congruence.
Qed.

(** An entry that has just been used outlasts any number of further
    calls below the capacity. *)
Lemma later_calls_keep_entry (r : Resolver) (n : nat) mxMod1 (w1 : World) mxMod2
    (w2 : World) :
  later_calls r n mxMod1 w1 mxMod2 w2 →
  ∀ c1 (k : string) (v : CachedAddresses),
    mxlookup.CacheHash mxMod1 = Some c1 →
    cachehash.find k c1 = Some v →
    rank k (cachehash.entries c1) = Some 0 →
    n < Z.to_nat (cachehash.maxLen c1) →
    ∃ c2 j,
      mxlookup.CacheHash mxMod2 = Some c2 ∧
      cachehash.find k c2 = Some v ∧
      rank k (cachehash.entries c2) = Some j ∧ j ≤ n ∧
      cachehash.maxLen c2 = cachehash.maxLen c1.
Proof.
  induction 1 as [mxMod w|n mxMod w mxMod1 w1 name nameServer ipMode ips trace
                    mxMod2 w2 _ IH Hrun]; intros c1 k v Hc Hf Hr Hlt.
  - exists c1, 0. by repeat split.
  - destruct (IH c1 k v Hc Hf Hr) as (c2 & j & Hc2 & Hf2 & Hr2 & Hle & Hmax); [lia|].
    destruct (lookupIPs_keeps_entry mxMod1 c2 r name nameServer ipMode w1 w2 k v ips
                j trace mxMod2 Hc2 Hf2 Hr2) as (c3 & j' & Hc3 & Hf3 & Hr3 & Hle3 & Hmax3);
      [rewrite Hmax; lia|done|].
    exists c3, j'. split; [done|]. split; [done|]. split; [done|].
    split; [lia|congruence].
Qed.

(** C9, as amended.  A failed secondary lookup is cached without expiry,
    for as long as the bounded cache keeps the entry.  When the targeted
    lookup for a name that is not in the cache returns a non-success status
    or a nil result, lookupIPs (and LookupIPs of the older module) stores
    the name with empty address lists; with a positive capacity the entry
    is in the cache when the call returns, and it is still there after any
    number of further lookupIPs calls below the capacity.  Every later call
    for that name that finds the entry, in whatever world, returns the
    empty addresses with an empty trace and without a call into the
    Resolver, and leaves the entry in the cache. *)
Theorem failed_lookup_is_cached_while_entry_lasts mxMod c (r : Resolver)
    (name nameServer : string) (ipMode : Z) (w : World) :
  mxlookup.CacheHash mxMod = Some c →
  cachehash.find name c = None →
  failed (told mxMod r name nameServer w) →
  (∃ trace w1,
     mxlookup.lookupIPs mxMod r name nameServer ipMode w =
       Done (no_addresses, trace,
             mxlookup.set_CacheHash (Some (cachehash.Upsert name no_addresses c)) mxMod)
            w1 ∧
     ((0 < cachehash.maxLen c)%Z →
        cachehash.find name (cachehash.Upsert name no_addresses c) = Some no_addresses)) ∧
  (∀ (old : modules.MXLookup) (v4 v6 : bool),
     modules.CacheHash old = Some c →
     failed (modules_DoTargetedLookup_result (oracle w) (events w) r name
               nameServer v4 v6) →
     ∃ trace w1,
       modules.LookupIPs (Some old) r name nameServer v4 v6 w =
         Done (no_addresses, trace,
               modules.set_CacheHash (Some (cachehash.Add name no_addresses c)) old)
              w1) ∧
  (∀ (n : nat) (w1 : World) mxMod2 (w2 : World),
     later_calls r n
       (mxlookup.set_CacheHash (Some (cachehash.Upsert name no_addresses c)) mxMod)
       w1 mxMod2 w2 →
     n < Z.to_nat (cachehash.maxLen c) →
     ∃ c2, mxlookup.CacheHash mxMod2 = Some c2 ∧
           cachehash.find name c2 = Some no_addresses) ∧
  (∀ mxMod2 c2 (r2 : Resolver) (nameServer2 : string) (ipMode2 : Z) (w2 : World),
     mxlookup.CacheHash mxMod2 = Some c2 →
     cachehash.find name c2 = Some no_addresses →
     ∃ mxMod3 c3,
       mxlookup.lookupIPs mxMod2 r2 name nameServer2 ipMode2 w2 =
         Done (no_addresses, [], mxMod3) w2 ∧
       mxlookup.CacheHash mxMod3 = Some c3 ∧
       cachehash.find name c3 = Some no_addresses).
Proof.
  intros Hc Hf Hfail. split; [|split; [|split]]; cycle 2.
  - intros n w1 mxMod2 w2 Hlater Hn.
    destruct (later_calls_keep_entry r n _ w1 mxMod2 w2 Hlater
                (cachehash.Upsert name no_addresses c) name no_addresses eq_refl)
      as (c2 & j & Hc2 & Hf2 & _); [apply Upsert_find_eq; lia| |done|by exists c2].
    unfold cachehash.Upsert. simpl.
    destruct (Z.to_nat (cachehash.maxLen c)) as [|m]; [lia|].
    simpl. by rewrite decide_True.
  - intros mxMod2 c2 r2 nameServer2 ipMode2 w2 Hc2 Hf2.
    eexists _, _. split; [by apply lookupIPs_hit|]. split; [done|].
    by rewrite Get_find.
  - eexists _, _.
    rewrite (lookupIPs_miss mxMod c r name nameServer ipMode w Hc Hf).
    rewrite (addresses_of_failed _ Hfail). split; [done|].
    apply Upsert_find_eq.
  - intros old v4 v6 Hold Hfail'.
    unfold modules.LookupIPs. rewrite Hold.
    unfold cachehash.Get. rewrite Hf.
    unfold mbind, M_bind, modules_DoTargetedLookup.
    pose proof (addresses_of_failed _ Hfail') as Ha. revert Ha.
    unfold ret_status, ret_result.
    destruct (modules_DoTargetedLookup_result _ _ _ _ _ _ _)
      as [[[result trace] status] err].
    simpl. intros ->. by eexists _, _.
Qed.

(** C10.  Init ends the process unless one of IPv4Lookup and IPv6Lookup is
    true and MXCacheSize is positive, and otherwise installs an empty cache
    of that capacity.  CLIInit never ends with the message about the two
    lookup flags: when both are false it sets IPv4Lookup before calling
    Init, so a module that CLIInit returns has IPv4Lookup set whenever
    neither flag was, has a positive MXCacheSize and an initialised cache,
    and asks the Resolver for IPv4 addresses in lookupIPs. *)
Theorem Init_requires_lookup_flag_and_cache_size mxMod (w : World)
    (CLIConf : Type)
    (BasicLookupModule_CLIInit :
       CLIConf → ResolverConfig → mxlookup.BasicLookupModule →
       mxlookup.BasicLookupModule * error)
    (gc : CLIConf) (rc : ResolverConfig) :
  (mxlookup.IPv4Lookup mxMod = false → mxlookup.IPv6Lookup mxMod = false →
     mxlookup.Init mxMod w =
       Fatal "At least one of ipv4-lookup or ipv6-lookup must be true") ∧
  (mxlookup.IPv4Lookup mxMod || mxlookup.IPv6Lookup mxMod = true →
   (mxlookup.MXCacheSize mxMod ≤ 0)%Z →
     mxlookup.Init mxMod w =
       Fatal ("mxCacheSize must be greater than 0, got " +:+
              pretty (mxlookup.MXCacheSize mxMod))) ∧
  (mxlookup.IPv4Lookup mxMod || mxlookup.IPv6Lookup mxMod = true →
   (0 < mxlookup.MXCacheSize mxMod)%Z →
     mxlookup.Init mxMod w =
       Done (mxlookup.set_CacheHash
               (Some (cachehash.Init (mxlookup.MXCacheSize mxMod))) mxMod) w) ∧
  mxlookup.CLIInit CLIConf BasicLookupModule_CLIInit gc rc mxMod w ≠
    Fatal "At least one of ipv4-lookup or ipv6-lookup must be true" ∧
  (∀ mxMod' err w',
     mxlookup.CLIInit CLIConf BasicLookupModule_CLIInit gc rc mxMod w =
       Done (mxMod', err) w' →
     (mxlookup.IPv4Lookup mxMod = false → mxlookup.IPv6Lookup mxMod = false →
        mxlookup.IPv4Lookup mxMod' = true) ∧
     mxlookup.IPv4Lookup mxMod' || mxlookup.IPv6Lookup mxMod' = true ∧
     (0 < mxlookup.MXCacheSize mxMod')%Z ∧
     mxlookup.CacheHash mxMod' = Some (cachehash.Init (mxlookup.MXCacheSize mxMod)) ∧
     ∀ (r : Resolver) (name nameServer : string) (ipMode : Z) (w2 : World),
       mxlookup.IPv4Lookup mxMod = false → mxlookup.IPv6Lookup mxMod = false →
       ∃ ips trace mxMod'' it v6,
         mxlookup.lookupIPs mxMod' r name nameServer ipMode w2 =
           Done (ips, trace, mxMod'')
             (with_events (events w2 ++ [EvTargetedLookup name nameServer it true v6])
                w2)).
Proof.
  assert (HInit : ∀ m : mxlookup.MXLookupModule,
    mxlookup.IPv4Lookup m || mxlookup.IPv6Lookup m = true →
    mxlookup.Init m w =
      if bool_decide (mxlookup.MXCacheSize m ≤ 0)%Z
      then Fatal ("mxCacheSize must be greater than 0, got " +:+
                  pretty (mxlookup.MXCacheSize m))
      else Done (mxlookup.set_CacheHash
                   (Some (cachehash.Init (mxlookup.MXCacheSize m))) m) w).
  { intros m Hm. unfold mxlookup.Init.
    assert (negb (mxlookup.IPv4Lookup m) && negb (mxlookup.IPv6Lookup m) = false) as ->.
    { by destruct (mxlookup.IPv4Lookup m), (mxlookup.IPv6Lookup m). }
    unfold mbind, M_bind. wsimpl. by case_bool_decide. }
  split; [|split; [|split; [|split]]].
  - intros H4 H6. unfold mxlookup.Init. by rewrite H4, H6.
  - intros Hm Hs. rewrite (HInit _ Hm). by rewrite bool_decide_eq_true_2.
  - intros Hm Hs. rewrite (HInit _ Hm). rewrite bool_decide_eq_false_2; [done|lia].
  - unfold mxlookup.CLIInit.
    set (m1 := if negb (mxlookup.IPv4Lookup mxMod) && negb (mxlookup.IPv6Lookup mxMod)
               then mxlookup.set_IPv4Lookup true mxMod else mxMod).
    assert (Hm1 : mxlookup.IPv4Lookup m1 || mxlookup.IPv6Lookup m1 = true).
    { unfold m1.
      destruct (mxlookup.IPv4Lookup mxMod) eqn:E4, (mxlookup.IPv6Lookup mxMod) eqn:E6;
        simpl; by rewrite ?E4, ?E6. }
    unfold mbind, M_bind. rewrite (HInit _ Hm1).
    case_bool_decide; [by intros [=]|].
    destruct (BasicLookupModule_CLIInit _ _ _) as [b [e|]]; by intros [=].
  - intros mxMod' err w'. unfold mxlookup.CLIInit.
    set (m1 := if negb (mxlookup.IPv4Lookup mxMod) && negb (mxlookup.IPv6Lookup mxMod)
               then mxlookup.set_IPv4Lookup true mxMod else mxMod).
    assert (Hm1 : mxlookup.IPv4Lookup m1 || mxlookup.IPv6Lookup m1 = true).
    { unfold m1.
      destruct (mxlookup.IPv4Lookup mxMod) eqn:E4, (mxlookup.IPv6Lookup mxMod) eqn:E6;
        simpl; by rewrite ?E4, ?E6. }
    assert (Hsz : mxlookup.MXCacheSize m1 = mxlookup.MXCacheSize mxMod).
    { unfold m1. by destruct (_ && _). }
    unfold mbind, M_bind. rewrite (HInit _ Hm1).
    case_bool_decide as Hs; [done|].
    assert (Hres : ∀ b, let m' := mxlookup.set_Basic b
        (mxlookup.set_CacheHash (Some (cachehash.Init (mxlookup.MXCacheSize m1))) m1) in
      (mxlookup.IPv4Lookup mxMod = false → mxlookup.IPv6Lookup mxMod = false →
         mxlookup.IPv4Lookup m' = true) ∧
      mxlookup.IPv4Lookup m' || mxlookup.IPv6Lookup m' = true ∧
      (0 < mxlookup.MXCacheSize m')%Z ∧
      mxlookup.CacheHash m' = Some (cachehash.Init (mxlookup.MXCacheSize mxMod)) ∧
      ∀ (r : Resolver) (name nameServer : string) (ipMode : Z) (w2 : World),
        mxlookup.IPv4Lookup mxMod = false → mxlookup.IPv6Lookup mxMod = false →
        ∃ ips trace mxMod'' it v6,
          mxlookup.lookupIPs m' r name nameServer ipMode w2 =
            Done (ips, trace, mxMod'')
              (with_events (events w2 ++ [EvTargetedLookup name nameServer it true v6])
                 w2)).
    { intros b m'.
      assert (H4 : mxlookup.IPv4Lookup mxMod = false → mxlookup.IPv6Lookup mxMod = false →
                   mxlookup.IPv4Lookup m' = true).
      { intros H4 H6. unfold m', m1. by rewrite H4, H6. }
      split; [done|]. split; [done|]. split; [simpl; lia|].
      split; [simpl; by rewrite Hsz|].
      intros r name nameServer ipMode w2 H4' H6'.
      eexists _, _, _, _, _.
      erewrite lookupIPs_miss; [|reflexivity|done].
      unfold asked. by rewrite (H4 H4' H6'). }
    destruct (BasicLookupModule_CLIInit gc rc _) as [b [e|]];
      intros [= <- <- <-]; apply Hres.
Qed.

End mx_properties.

(** ** The properties at work on the sample data *)

Lemma sample_starts_ok (o : Oracle) (ext : slice) (addrs : list IP) :
  ext = nil_slice ∨ ext = Sample.callers_servers →
  starts_ok (D := Sample.decls) (Sample.world o) (Sample.config ext addrs).
Proof.
  intros Hext. split; [done|].
  destruct Hext as [-> | ->]; simpl; [done|].
  eexists. split; [reflexivity|]. simpl. lia.
Qed.

Lemma sample_constructed2 :
  constructed (D := Sample.decls) Sample.config2 Sample.resolver2 Sample.world2.
Proof.
  exists (Sample.world Sample.outside), Sample.world2, None.
  split; [apply sample_starts_ok; by right|].
  split; [by vm_compute|]. constructor.
Qed.

Lemma sample_constructed0 :
  constructed (D := Sample.decls) Sample.config0 Sample.resolver0 Sample.world0.
Proof.
  exists (Sample.world Sample.outside_empty_resolv_conf), Sample.world0, None.
  split; [apply sample_starts_ok; by left|].
  split; [by vm_compute|]. constructor.
Qed.

(** C1 does not hold as written.  On a machine without a route for the
    test dial, InitResolver returns an error and no Resolver for a valid
    configuration. *)
Lemma InitResolver_error_for_valid_config :
  ¬ (∀ (config : ResolverConfig) (w : World),
       slice_wf (heap w) (ExternalNameServers config) →
       (∃ e w', zdns.InitResolver (D := Sample.decls) config w = Done (None, Some e) w')
       ↔ config_invalid (D := Sample.decls) config).
Proof.
  intros H.
  destruct (H Sample.config2 (Sample.world Sample.outside_no_route)) as [H1 _].
  { eexists. split; [reflexivity|]. simpl. lia. }
  destruct H1 as [Ht|[Hi|[_ Hs]]].
  - eexists _, _. vm_compute. reflexivity.
  - vm_compute in Ht. discriminate.
  - vm_compute in Hi. discriminate.
  - by apply Hs.
Qed.

Lemma sample_slice_wf (o : Oracle) :
  slice_wf (heap (Sample.world o)) Sample.callers_servers.
Proof. eexists. split; [reflexivity|]. simpl. lia. Qed.

Lemma InitResolver_validates_config_witness :
  slice_wf (heap (Sample.world Sample.outside))
    (ExternalNameServers Sample.config_both) ∧
  ∃ e,
    zdns.InitResolver (D := Sample.decls) Sample.config_both
      (Sample.world Sample.outside)
    = Done (None, Some e) (Sample.world Sample.outside).
Proof.
  split; [apply sample_slice_wf|].
  apply (InitResolver_validates_config (D := Sample.decls) Sample.config_both
           (Sample.world Sample.outside) (sample_slice_wf Sample.outside));
    simpl; [discriminate|lia].
Defined.

(** C2 does not hold as written.  A Resolver constructed on a machine
    whose resolver file names no server, from a configuration that names
    none, has an empty external list; ExternalLookup with an empty server
    argument then dispatches nothing. *)
Lemma ExternalLookup_no_dispatch_on_empty_list :
  ¬ (∀ (config : ResolverConfig) (r : Resolver) (w : World) (q : Question),
       constructed (D := Sample.decls) config r w →
       ∃ s ret w',
         s ∈ slice_elems (heap w) (externalNameServers r) ∧
         zdns.ExternalLookup r q "" w = Done ret w').
Proof.
  intros H.
  destruct (H _ _ _ Sample.question sample_constructed0) as (s & ret & w' & _ & Hrun).
  vm_compute in Hrun. discriminate.
Qed.

Lemma ExternalLookup_dispatch_witness :
  constructed (D := Sample.decls) Sample.config2 Sample.resolver2 Sample.world2 ∧
  zdns.ExternalLookup Sample.resolver2 Sample.question "198.51.100.7:53" Sample.world2
  = Done Sample.noResult
      (with_events
         (events Sample.world2 ++
          [EvSingleDstServerLookup LookupClient Sample.question "198.51.100.7:53" false])
         Sample.world2).
Proof.
  split; [exact sample_constructed2|].
  apply (ExternalLookup_dispatch (D := Sample.decls) Sample.config2 Sample.resolver2
           Sample.world2 Sample.question "198.51.100.7:53" sample_constructed2).
  discriminate.
Defined.

Lemma IterativeLookup_starts_at_random_root_witness :
  constructed (D := Sample.decls) Sample.config2 Sample.resolver2 Sample.world2 ∧
  slice_elems (heap Sample.world2) (rootNameServers Sample.resolver2)
  = RootServers (Declared := Sample.decls).
Proof.
  split; [exact sample_constructed2|].
  apply (IterativeLookup_starts_at_random_root (D := Sample.decls) Sample.config2
           Sample.resolver2 Sample.world2 Sample.question sample_constructed2).
  discriminate.
Defined.

Lemma lookup_on_empty_server_list_is_fatal_witness :
  slice_len (externalNameServers Sample.resolver0) = 0 ∧
  zdns.ExternalLookup Sample.resolver0 Sample.question "" Sample.world0
  = Fatal "no external name servers specified".
Proof.
  split; [reflexivity|].
  apply (lookup_on_empty_server_list_is_fatal Sample.resolver0 Sample.question
           Sample.world0).
  right. reflexivity.
Defined.

(** C5 does not hold as written.  For a configuration that names no
    server, the external list of the Resolver is not a copy of the
    configuration's (empty) slice: it holds the server of the OS's resolver
    file. *)
Lemma external_list_is_not_a_copy_of_empty_config :
  ¬ (∀ (config : ResolverConfig) (w0 w1 : World) (r : Resolver) (err : error),
       slice_wf (heap w0) (ExternalNameServers config) →
       zdns.InitResolver (D := Sample.decls) config w0 = Done (Some r, err) w1 →
       slice_elems (heap w1) (externalNameServers r) =
         slice_elems (heap w0) (ExternalNameServers config)).
Proof.
  intros H.
  assert (Hrun : ∃ r w1,
    zdns.InitResolver (D := Sample.decls) Sample.config0 (Sample.world Sample.outside)
      = Done (Some r, None) w1 ∧
    slice_elems (heap w1) (externalNameServers r) = ["192.0.2.53:53"]).
  { eexists _, _. split; [vm_compute; reflexivity|]. reflexivity. }
  destruct Hrun as (r & w1 & Hrun & Hl).
  specialize (H Sample.config0 (Sample.world Sample.outside) w1 r None I Hrun).
  rewrite Hl in H. discriminate.
Qed.

Lemma server_lists_fixed_after_construction_witness :
  ∃ h,
    slice_store (heap Sample.world2) Sample.callers_servers 0 "192.0.2.66:53" = Some h ∧
    slice_elems h (externalNameServers Sample.resolver2)
    = ["203.0.113.1:53"; "203.0.113.2:53"] ∧
    slice_elems h Sample.callers_servers = ["192.0.2.66:53"; "203.0.113.2:53"].
Proof.
  pose (h := <[1 := <[0 := "192.0.2.66:53"]> ["203.0.113.1:53"; "203.0.113.2:53"]]>
               (heap Sample.world2)).
  exists h. split; [reflexivity|]. split; [|reflexivity].
  etrans.
  - apply (server_lists_fixed_after_construction (D := Sample.decls) Sample.config2
             (Sample.world Sample.outside) Sample.world2
             (with_heap h Sample.world2) Sample.resolver2 None
             (sample_slice_wf Sample.outside)).
    + by vm_compute.
    + apply (evolves_config_store _ _ _ _ 0 "192.0.2.66:53"); [constructor|].
      reflexivity.
  - reflexivity.
Defined.

(** C4: the code at the failing input.  The configuration asks for the
    local address 10.0.0.1; the Resolver that InitResolver returns has the
    address the test dial learned, 192.168.1.5, which is none of the
    configured ones, and the random source has not been consulted. *)
Theorem InitResolver_ignores_LocalAddrs :
  ∃ r w',
    zdns.InitResolver (D := Sample.decls) Sample.config_local
      (Sample.world Sample.outside) = Done (Some r, None) w' ∧
    LocalAddrs Sample.config_local = [[Byte.x0a; Byte.x00; Byte.x00; Byte.x01]] ∧
    localAddr r = [Byte.xc0; Byte.xa8; Byte.x01; Byte.x05] ∧
    (localAddr r ∉ LocalAddrs Sample.config_local) ∧
    rand_pos w' = rand_pos (Sample.world Sample.outside).
Proof.
  eexists _, _. split; [vm_compute; reflexivity|].
  split; [done|]. split; [done|]. split; [|done].
  simpl. intros Hin. apply list_elem_of_singleton in Hin. discriminate.
Qed.

(** C9 does not hold as written.  The module has room for one name.  The
    lookup for mx1.example.com fails and is cached; a lookup for
    mx2.example.com follows and takes the place; the next lookup for
    mx1.example.com asks the Resolver again. *)
Lemma failed_lookup_is_repeated_after_eviction :
  ¬ (∀ (mxMod mxMod1 mxMod2 : mxlookup.MXLookupModule)
       (c : cachehash.CacheHash CachedAddresses) (r : Resolver)
       (name nameServer : string) (ipMode : Z) (w w1 w2 : World) (trace : Trace)
       (n : nat),
       mxlookup.CacheHash mxMod = Some c →
       cachehash.find name c = None →
       failed (told mxMod r name nameServer w) →
       mxlookup.lookupIPs mxMod r name nameServer ipMode w =
         Done (no_addresses, trace, mxMod1) w1 →
       later_calls r n mxMod1 w1 mxMod2 w2 →
       ∃ mxMod3,
         mxlookup.lookupIPs mxMod2 r name nameServer ipMode w2 =
           Done (no_addresses, [], mxMod3) w2).
Proof.
  intros H.
  epose proof (H Sample.mx _ _ (cachehash.Init 1) Sample.resolver2
                 "mx1.example.com" "" 0%Z Sample.world2 _ _ _ 1) as H'.
  edestruct H' as [mxMod3 Hrun].
  - reflexivity.
  - reflexivity.
  - right. reflexivity.
  - vm_compute. reflexivity.
  - eapply (later_call _ _ _ _ _ _ "mx2.example.com" "" 0%Z); [apply later_now|].
    vm_compute. reflexivity.
  - vm_compute in Hrun. discriminate.
Qed.



Lemma failed_lookup_is_cached_while_entry_lasts_witness :
  mxlookup.CacheHash Sample.mx = Some (cachehash.Init 1) ∧
  cachehash.find "mx1.example.com" (cachehash.Init (V := CachedAddresses) 1) = None ∧
  ∃ trace w1,
    mxlookup.lookupIPs Sample.mx Sample.resolver2 "mx1.example.com" "" 0 Sample.world2 =
      Done (no_addresses, trace,
            mxlookup.set_CacheHash
              (Some (cachehash.Upsert "mx1.example.com" no_addresses (cachehash.Init 1)))
              Sample.mx)
           w1.
Proof.
  split; [reflexivity|]. split; [reflexivity|].
  destruct (failed_lookup_is_cached_while_entry_lasts Sample.mx (cachehash.Init 1)
              Sample.resolver2 "mx1.example.com" "" 0 Sample.world2 eq_refl eq_refl)
    as [(trace & w1 & H & _) _].
  - right. reflexivity.
  - by exists trace, w1.
Defined.

Lemma Init_requires_lookup_flag_and_cache_size_witness :
  mxlookup.Init Sample.mx_unset Sample.world2 =
    Fatal "At least one of ipv4-lookup or ipv6-lookup must be true" ∧
  ∃ mxMod' w',
    mxlookup.CLIInit unit (λ _ _ b, (b, None)) () Sample.config2 Sample.mx_unset
      Sample.world2 = Done (mxMod', None) w' ∧
    mxlookup.IPv4Lookup mxMod' = true.
Proof.
  destruct (Init_requires_lookup_flag_and_cache_size Sample.mx_unset Sample.world2
              unit (λ _ _ b, (b, None)) () Sample.config2)
    as (H1 & _ & _ & _ & H5).
  split; [by apply H1|].
  eexists _, _. split; [vm_compute; reflexivity|].
  eapply H5; [vm_compute; reflexivity|reflexivity|reflexivity].
Defined.

(** * Further properties *)

(** ** Construction, step by step *)

Section construction_run.
Context `{D : Declared}.

(** A slice over a whole new array shows the array. *)
Lemma slice_elems_new_array (h t : Heap) (l : list string) (a : nat) :
  a = length h →
  slice_elems (h ++ l :: t) (mk_slice a 0 (length l)) = l.
Proof.
  intros ->. unfold slice_elems. rewrite lookup_app_r by lia.
  rewrite Nat.sub_diag. simpl. by rewrite firstn_all.
Qed.

Lemma choose_cache_run (config : ResolverConfig) (w : World) :
  zdns.choose_cache config w =
    Done (cache_of config w) (with_caches (caches_after config w) w).
Proof.
  unfold zdns.choose_cache, cache_of, caches_after.
  case_bool_decide; [done|].
  destruct (cfg_Cache config) as [p|]; [|done].
  wsimpl. f_equal. by destruct w.
Qed.

Lemma find_localAddr_run (config : ResolverConfig) (r : Resolver) (w : World) (ip : IP) :
  localAddr r = [] →
  Dial_result (oracle w) "udp" googleDNSResolverAddr = inl ip →
  zdns.find_localAddr config r w =
    Done (inl (set_localAddr ip r))
      (with_next_conn (S (next_conn w))
         (with_events (events w ++ dial_events (oracle w) (next_conn w)) w)).
Proof.
  intros Hl Hd. unfold zdns.find_localAddr, dial_events. rewrite Hl.
  rewrite bool_decide_eq_true_2 by done.
  unfold mbind, M_bind, net_Dial, Conn_Close, emit. wsimpl. rewrite Hd. wsimpl.
  cbn [conn_id conn_LocalAddr].
  destruct (Close_result (oracle w) (next_conn w)) as [e|]; wsimpl;
    f_equal; apply world_eq; wsimpl; try done; by rewrite <- !app_assoc.
Qed.

Lemma recycle_socket_run (r : Resolver) (w : World) :
  (if shouldRecycleSockets r
   then ListenUDP_result (oracle w) (localAddr r) else None) = None →
  zdns.recycle_socket r w =
    Done (inl (if shouldRecycleSockets r
               then set_conn (Some {| conn_id := next_conn w;
                                      conn_LocalAddr := localAddr r |}) r
               else r))
      (with_next_conn ((if shouldRecycleSockets r then 1 else 0) + next_conn w)
         (with_events
            (events w ++
             (if shouldRecycleSockets r then [EvListenUDP (localAddr r)] else []))
            w)).
Proof.
  unfold zdns.recycle_socket.
  destruct (shouldRecycleSockets r); intros Hl.
  - unfold mbind, M_bind, net_ListenUDP. wsimpl. by rewrite Hl.
  - wsimpl. f_equal. apply world_eq; wsimpl; try done. by rewrite app_nil_r.
Qed.

Lemma default_name_servers_run (r : Resolver) (w : World) :
  zdns.default_name_servers r w =
    Done (set_externalNameServers
            (mk_slice (pred (length (heap w) + length (os_arrays (oracle w)))) 0
               (length (os_servers (oracle w)))) r)
      (with_events (events w ++ os_events (oracle w))
         (with_heap (heap w ++ os_arrays (oracle w)) w)).
Proof.
  unfold zdns.default_name_servers, os_servers, os_events, os_arrays, os_servers,
    mbind, M_bind, GetDNSServers, GetDefaultResolvers, mbind, M_bind, emit,
    go_alloc_strings, alloc_strings, strings_Join.
  wsimpl.
  destruct (GetDNSServers_result (oracle w) defaultNameServerConfigFile)
    as [ns [e|]]; wsimpl;
    cbn [externalNameServers set_externalNameServers set_servers];
    rewrite ?length_app; simpl length;
    rewrite !slice_elems_new_array by (rewrite ?length_app; simpl; lia);
    f_equal.
  - f_equal. f_equal. lia.
  - apply world_eq; wsimpl; try done; by rewrite <- !app_assoc.
  - f_equal. f_equal. lia.
  - apply world_eq; wsimpl; try done; by rewrite <- !app_assoc.
Qed.

Lemma set_name_servers_run (config : ResolverConfig) (r : Resolver) (w : World) :
  slice_wf (heap w) (ExternalNameServers config) →
  zdns.set_name_servers config r w =
    Done (set_servers (init_servers config w)
            (mk_slice RootServers_addr 0 (length RootServers))
            (IterativeTimeout config) (MaxDepth config) r)
      (with_events
         (events w ++ (if names_no_server config then os_events (oracle w) else []))
         (with_heap (heap w ++ init_arrays config w) w)).
Proof.
  intros Hwf.
  unfold zdns.set_name_servers, mbind, M_bind, go_make_strings, go_copy_strings,
    make_strings, init_servers, init_arrays, names_no_server.
  wsimpl.
  rewrite (copy_into_new_array _ _ Hwf). wsimpl.
  rewrite bool_decide_eq_false_2 by (intros ?; done). wsimpl.
  cbn [externalNameServers set_servers slice_is_nil slice_len orb].
  case_bool_decide as Hz.
  - rewrite default_name_servers_run. wsimpl.
    rewrite length_app. simpl length.
    replace (pred (length (heap w) + 1 + length (os_arrays (oracle w))))
      with (length (heap w) + length (os_arrays (oracle w))) by lia.
    f_equal. apply world_eq; wsimpl; try done. by rewrite <- app_assoc.
  - wsimpl. f_equal. apply world_eq; wsimpl; try done. by rewrite app_nil_r.
Qed.

(** InitResolver on a valid configuration, when the test dial and the
    socket succeed. *)
Lemma InitResolver_run (config : ResolverConfig) (w : World) (ip : IP) :
  fst (zdns.isValid config) = true →
  slice_wf (heap w) (ExternalNameServers config) →
  Dial_result (oracle w) "udp" googleDNSResolverAddr = inl ip →
  (if ShouldRecycleSockets config then ListenUDP_result (oracle w) ip else None) = None →
  zdns.InitResolver config w =
    Done (Some (init_resolver config w ip), None) (init_world config w ip).
Proof.
  intros Hv Hwf Hd Hl.
  unfold zdns.InitResolver.
  rewrite (isValid_true_reason _ Hv). cbn [negb].
  rewrite (bind_Done _ _ _ _ _ (choose_cache_run config w)).
  erewrite bind_Done by reflexivity.
  erewrite bind_Done by (by apply (find_localAddr_run _ _ _ ip)).
  cbv beta iota. wsimpl.
  erewrite bind_Done.
  2:{ apply recycle_socket_run. by wsimpl. }
  cbv beta iota. wsimpl.
  erewrite bind_Done.
  2:{ apply set_name_servers_run. by wsimpl. }
  wsimpl. unfold init_resolver, init_world, init_events.
  cbn [shouldRecycleSockets localAddr set_localAddr zdns.Resolver_literal].
  f_equal. apply world_eq; wsimpl; try done.
  - by destruct (ShouldRecycleSockets config).
  - by rewrite <- !app_assoc.
Qed.

(** A Resolver from InitResolver is the one of [InitResolver_run]. *)
Lemma InitResolver_success (config : ResolverConfig) (w w' : World)
    (r : Resolver) (err : error) :
  slice_wf (heap w) (ExternalNameServers config) →
  zdns.InitResolver config w = Done (Some r, err) w' →
  ∃ ip,
    fst (zdns.isValid config) = true ∧
    Dial_result (oracle w) "udp" googleDNSResolverAddr = inl ip ∧
    (if ShouldRecycleSockets config then ListenUDP_result (oracle w) ip else None)
      = None ∧
    r = init_resolver config w ip ∧ err = None ∧ w' = init_world config w ip.
Proof.
  intros Hwf Hinit.
  destruct (fst (zdns.isValid config)) eqn:Hv.
  2:{ rewrite (InitResolver_invalid config w Hv) in Hinit. congruence. }
  pose proof (InitResolver_valid config w Hv Hwf) as H.
  destruct (Dial_result (oracle w) "udp" googleDNSResolverAddr) as [ip|e] eqn:Hd.
  2:{ destruct H as [w'' H]. congruence. }
  destruct (if ShouldRecycleSockets config then _ else _) eqn:Hl.
  { destruct H as [w'' H]. congruence. }
  clear H. rewrite (InitResolver_run config w ip Hv Hwf Hd Hl) in Hinit.
  exists ip. by simplify_eq.
Qed.



Lemma slice_wf_app (h t : Heap) (s : slice) : slice_wf h s → slice_wf (h ++ t) s.
Proof.
  destruct s as [|a o n]; [done|]. intros (arr & Ha & Hle).
  exists arr. split; [|done]. by apply lookup_app_l_Some.
Qed.

Lemma init_resolver_cache (config : ResolverConfig) (w : World) (ip : IP) :
  cache (init_resolver config w ip) = cache_of config w.
Proof.
  unfold init_resolver, zdns.make_clients.
  destruct (ShouldRecycleSockets config); cbn -[RootServers bool_decide];
    repeat case_bool_decide; done.
Qed.

Lemma cache_of_given (config : ResolverConfig) (w : World) :
  ¬ config_invalid config → cfg_Cache config ≠ None →
  CacheSize config = 0%Z ∧
  cache_of config w = cfg_Cache config ∧ caches_after config w = caches w.
Proof.
  intros Hv Hn.
  assert (Hz : CacheSize config = 0%Z).
  { destruct (decide (CacheSize config = 0%Z)); [done|].
    exfalso. apply Hv. right. by right. }
  unfold cache_of, caches_after.
  rewrite bool_decide_eq_false_2 by (intros ?; done).
  by destruct (cfg_Cache config).
Qed.

Lemma cache_of_new (config : ResolverConfig) (w : World) :
  cfg_Cache config = None →
  cache_of config w = Some (length (caches w)) ∧
  caches_after config w =
    caches w ++ [if bool_decide (CacheSize config ≠ 0%Z)
                 then CacheSize config else defaultCacheSize].
Proof.
  intros Hn. unfold cache_of, caches_after. rewrite Hn. by case_bool_decide.
Qed.

(** X1. The cache of a new Resolver: a new cache of [CacheSize] entries
    when the configuration gives a size (it then gives no cache), the
    configuration's own cache when it gives one, and a new cache of the
    default size when it gives neither.  Only a new cache adds to the caches
    that exist. *)
Theorem InitResolver_cache_choice (config : ResolverConfig) (w w' : World)
    (r : Resolver) (err : error) :
  slice_wf (heap w) (ExternalNameServers config) →
  zdns.InitResolver config w = Done (Some r, err) w' →
  (CacheSize config ≠ 0%Z →
     cfg_Cache config = None ∧
     cache r = Some (length (caches w)) ∧
     caches w' = caches w ++ [CacheSize config]) ∧
  (CacheSize config = 0%Z → cfg_Cache config ≠ None →
     cache r = cfg_Cache config ∧ caches w' = caches w) ∧
  (CacheSize config = 0%Z → cfg_Cache config = None →
     cache r = Some (length (caches w)) ∧
     caches w' = caches w ++ [defaultCacheSize]).
Proof.
  intros Hwf Hinit.
  destruct (InitResolver_success _ _ _ _ _ Hwf Hinit)
    as (ip & Hv & _ & _ & -> & _ & ->).
  apply isValid_true in Hv.
  rewrite init_resolver_cache. unfold init_world. wsimpl.
  split; [|split].
  - intros Hs.
    assert (Hn : cfg_Cache config = None).
    { destruct (cfg_Cache config) eqn:E; [|done].
      destruct (cache_of_given config w Hv) as [? _]; [by rewrite E|done]. }
    destruct (cache_of_new config w Hn) as [-> ->].
    by rewrite bool_decide_eq_true_2.
  - intros _ Hn. by destruct (cache_of_given config w Hv Hn) as (_ & -> & ->).
  - intros Hs Hn. destruct (cache_of_new config w Hn) as [-> ->].
    by rewrite bool_decide_eq_false_2 by (intros ?; done).
Qed.

(** X2. Two Resolvers made from one configuration, one after the other:
    they share the configuration's cache when it gives one, and have each a
    cache of their own otherwise. *)
Theorem resolvers_of_one_config_share_its_cache (config : ResolverConfig)
    (w0 w1 w2 : World) (r1 r2 : Resolver) (e1 e2 : error) :
  slice_wf (heap w0) (ExternalNameServers config) →
  zdns.InitResolver config w0 = Done (Some r1, e1) w1 →
  zdns.InitResolver config w1 = Done (Some r2, e2) w2 →
  (cfg_Cache config ≠ None →
     cache r1 = cfg_Cache config ∧ cache r2 = cfg_Cache config ∧
     caches w2 = caches w0) ∧
  (cfg_Cache config = None →
     cache r1 ≠ cache r2 ∧ length (caches w2) = 2 + length (caches w0)).
Proof.
  intros Hwf H1 H2.
  destruct (InitResolver_success _ _ _ _ _ Hwf H1)
    as (ip1 & Hv & _ & _ & -> & _ & ->).
  set (w1 := init_world config w0 ip1) in *.
  assert (Hwf1 : slice_wf (heap w1) (ExternalNameServers config)).
  { unfold w1, init_world. wsimpl. by apply slice_wf_app. }
  destruct (InitResolver_success _ _ _ _ _ Hwf1 H2)
    as (ip2 & _ & _ & _ & -> & _ & ->).
  apply isValid_true in Hv.
  rewrite !init_resolver_cache.
  change (caches (init_world config w1 ip2)) with (caches_after config w1).
  assert (Hc1 : caches w1 = caches_after config w0) by done.
  split; intros Hn.
  - destruct (cache_of_given config w0 Hv Hn) as (_ & -> & E0).
    destruct (cache_of_given config w1 Hv Hn) as (_ & -> & ->).
    by rewrite Hc1.
  - destruct (cache_of_new config w0 Hn) as [-> E0].
    destruct (cache_of_new config w1 Hn) as [-> ->].
    rewrite Hc1, E0, !length_app. simpl. split; [|lia]. intros [= E]. lia.
Qed.

Lemma orb_decide (P Q : Prop) `{!Decision P, !Decision Q} :
  bool_decide P || bool_decide Q = true ↔ P ∨ Q.
Proof. by rewrite orb_true_iff, !bool_decide_eq_true. Qed.

(** Fields of [init_resolver]. *)
Ltac init_fields :=
  unfold init_resolver, zdns.make_clients, zdns.Resolver_literal;
  destruct (ShouldRecycleSockets _); cbn -[RootServers bool_decide];
  repeat case_bool_decide; cbn -[RootServers bool_decide].

(** X3. A new Resolver has the configuration's settings; it is never set
    to look up all name servers, and the configuration's [IsIterative] has
    no part in its construction. *)
Theorem InitResolver_copies_settings (config : ResolverConfig) (w w' : World)
    (r : Resolver) (err : error) :
  slice_wf (heap w) (ExternalNameServers config) →
  zdns.InitResolver config w = Done (Some r, err) w' →
  lookupClient r = cfg_LookupClient config ∧
  blacklist r = cfg_Blacklist config ∧
  retries r = Retries config ∧
  logLevel r = LogLevel config ∧
  transportMode r = TransportMode config ∧
  ipVersionMode r = IPVersionMode config ∧
  shouldRecycleSockets r = ShouldRecycleSockets config ∧
  timeout r = Timeout config ∧
  iterativeTimeout r = IterativeTimeout config ∧
  maxDepth r = MaxDepth config ∧
  dnsSecEnabled r = DNSSecEnabled config ∧
  ednsOptions r = EdnsOptions config ∧
  checkingDisabledBit r = CheckingDisabledBit config ∧
  lookupAllNameServers r = false ∧
  ∀ b, zdns.InitResolver (with_IsIterative b config) w = Done (Some r, err) w'.
Proof.
  intros Hwf Hinit.
  destruct (InitResolver_success _ _ _ _ _ Hwf Hinit)
    as (ip & _ & _ & _ & -> & _ & ->).
  repeat (split; [by init_fields|]).
  intros b. by rewrite <- Hinit.
Qed.

(** X4. The clients of a new Resolver: a UDP client exactly in the modes
    UDPOrTCP and UDPOnly, a TCP client exactly in the modes UDPOrTCP and
    TCPOnly, both with the configuration's timeout and bound to the
    Resolver's local address. *)
Theorem InitResolver_clients_by_transport_mode (config : ResolverConfig)
    (w w' : World) (r : Resolver) (err : error) :
  slice_wf (heap w) (ExternalNameServers config) →
  zdns.InitResolver config w = Done (Some r, err) w' →
  (is_Some (udpClient r) ↔
     TransportMode config = UDPOrTCP ∨ TransportMode config = UDPOnly) ∧
  (is_Some (tcpClient r) ↔
     TransportMode config = UDPOrTCP ∨ TransportMode config = TCPOnly) ∧
  (∀ c, udpClient r = Some c →
     Net c = "" ∧ client_Timeout c = Timeout config ∧
     Dialer_Timeout c = Timeout config ∧ Dialer_LocalAddr c = localAddr r) ∧
  (∀ c, tcpClient r = Some c →
     Net c = "tcp" ∧ client_Timeout c = Timeout config ∧
     Dialer_Timeout c = Timeout config ∧ Dialer_LocalAddr c = localAddr r).
Proof.
  intros Hwf Hinit.
  destruct (InitResolver_localAddr_from_dial _ _ _ _ _ Hwf Hinit)
    as (ip & _ & [Hip _ Hu Ht _ _ _ _ _ _ _]).
  rewrite Hu, Ht, Hip. clear Hu Ht.
  split; [|split; [|split]].
  - rewrite is_Some_alt. destruct (_ || _) eqn:E; simpl.
    + by apply orb_decide in E.
    + split; [done|]. intros Hx. pose proof (proj2 (orb_decide _ _) Hx). congruence.
  - rewrite is_Some_alt. destruct (_ || _) eqn:E; simpl.
    + by apply orb_decide in E.
    + split; [done|]. intros Hx. pose proof (proj2 (orb_decide _ _) Hx). congruence.
  - intros c. destruct (_ || _); [|done]. by intros [= <-].
  - intros c. destruct (_ || _); [|done]. by intros [= <-].
Qed.

(** X5. Close after construction.  Without socket recycling the Resolver
    holds no connection and Close does nothing.  With it, Close closes the
    socket that construction opened, which is not the test connection, and
    returns; an error of the close is logged only. *)
Theorem Close_closes_the_recycled_socket (config : ResolverConfig)
    (w0 w1 w : World) (r : Resolver) (err : error) :
  slice_wf (heap w0) (ExternalNameServers config) →
  zdns.InitResolver config w0 = Done (Some r, err) w1 →
  (ShouldRecycleSockets config = false →
     conn r = None ∧ zdns.Close r w = Done () w) ∧
  (ShouldRecycleSockets config = true →
     let k := S (next_conn w0) in
     conn r = Some {| conn_id := k; conn_LocalAddr := localAddr r |} ∧
     zdns.Close r w =
       Done ()
         (with_events
            (events w ++
             EvClose k ::
             match Close_result (oracle w) k with
             | Some e => [EvLogError ("error closing connection: " +:+ e)]
             | None => []
             end) w)).
Proof.
  intros Hwf Hinit.
  destruct (InitResolver_success _ _ _ _ _ Hwf Hinit)
    as (ip & _ & _ & _ & -> & _ & ->).
  unfold zdns.Close.
  split; intros Hs.
  - assert (conn (init_resolver config w0 ip) = None) as ->; [|done].
    unfold init_resolver, zdns.make_clients. rewrite Hs.
    cbn -[RootServers bool_decide]. by repeat case_bool_decide.
  - assert (Hl : localAddr (init_resolver config w0 ip) = ip) by by init_fields.
    assert (conn (init_resolver config w0 ip) =
            Some {| conn_id := S (next_conn w0); conn_LocalAddr := ip |}) as ->.
    { unfold init_resolver, zdns.make_clients. rewrite Hs.
      cbn -[RootServers bool_decide]. by repeat case_bool_decide. }
    cbv zeta. rewrite Hl. split; [done|].
    unfold mbind, M_bind, Conn_Close, emit. wsimpl. cbn [conn_id].
    destruct (Close_result (oracle w) (S (next_conn w0))); wsimpl; [|done].
    f_equal. apply world_eq; wsimpl; try done. by rewrite <- app_assoc.
Qed.

(** The events of the parts of a construction. *)
Lemma elem_of_dial_events (e : Event) (o : Oracle) (k : nat) :
  e ∈ dial_events o k →
  e = EvDial "udp" googleDNSResolverAddr ∨ e = EvClose k ∨ ∃ msg, e = EvLogError msg.
Proof.
  unfold dial_events. rewrite elem_of_app, !elem_of_cons, elem_of_nil.
  intros [[->|[->|[]]]|Hin]; [by left|by right; left|].
  destruct (Close_result o k); [|by apply elem_of_nil in Hin].
  apply list_elem_of_singleton in Hin. right. right. by eexists.
Qed.

Lemma elem_of_os_events (e : Event) (o : Oracle) :
  e ∈ os_events o →
  e = EvGetDNSServers defaultNameServerConfigFile ∨
  (∃ msg, e = EvLogWarn msg ∧
          snd (GetDNSServers_result o defaultNameServerConfigFile) ≠ None) ∨
  ∃ msg, e = EvLogInfo msg.
Proof.
  unfold os_events. rewrite elem_of_cons, elem_of_app.
  intros [->|[Hin|Hin]]; [by left| |].
  - destruct (GetDNSServers_result o defaultNameServerConfigFile) as [ns [err|]];
      [|by apply elem_of_nil in Hin].
    apply list_elem_of_singleton in Hin. right. left. by eexists.
  - apply list_elem_of_singleton in Hin. right. right. by eexists.
Qed.





(** What NewResolverConfig returns. *)
Lemma NewResolverConfig_run (w : World) :
  ∃ config,
    zdns_config.NewResolverConfig w =
      Done config (with_caches (caches w ++ [defaultCacheSize]) w) ∧
    cfg_Cache config = Some (length (caches w)) ∧
    CacheSize config = 0%Z ∧
    TransportMode config = UDPOrTCP ∧
    IPVersionMode config = IPv4OrIPv6 ∧
    ShouldRecycleSockets config = true ∧
    Timeout config = (15 * Second)%Z ∧
    ExternalNameServers config = nil_slice ∧
    LocalAddrs config = [].
Proof. eexists. split; [reflexivity|]. by repeat split. Qed.

(** X8. The configuration of NewResolverConfig comes with a cache; giving
    it a cache size as well makes InitResolver refuse it, with nothing
    done. *)
Theorem NewResolverConfig_with_CacheSize_is_refused (w : World) :
  fst (transportMode_isValid UDPOrTCP) = true →
  fst (IPVersionMode_IsValid IPv4OrIPv6) = true →
  ∃ config w1,
    zdns_config.NewResolverConfig w = Done config w1 ∧
    cfg_Cache config ≠ None ∧
    ∀ n, n ≠ 0%Z →
      zdns.InitResolver (zdns_config.with_CacheSize n config) w1 =
        Done (None,
              Some "invalid resolver config: cannot use both cache and cacheSize")
             w1.
Proof.
  intros Ht Hi.
  destruct (NewResolverConfig_run w) as (config & Hrun & Hc & _ & Hm & Hv & _).
  eexists _, _. split; [exact Hrun|]. split; [by rewrite Hc|].
  intros n Hn. unfold zdns.InitResolver, zdns.isValid.
  cbn [TransportMode IPVersionMode cfg_Cache CacheSize zdns_config.with_CacheSize].
  rewrite Hm, Hv, Hc.
  destruct (transportMode_isValid UDPOrTCP) as [ok1 r1].
  destruct (IPVersionMode_IsValid IPv4OrIPv6) as [ok2 r2].
  simpl in Ht, Hi. subst ok1 ok2. cbn [negb].
  rewrite bool_decide_eq_true_2 by done.
  by rewrite bool_decide_eq_true_2 by done.
Qed.

(** X9. A Resolver made from the configuration of NewResolverConfig as it
    is: it uses the cache that came with the configuration and makes no
    other, its servers are the OS's, and it has a UDP client, a TCP client
    and a socket of its own, all on the address the test dial learned. *)
Theorem NewResolverConfig_then_InitResolver (w : World) (ip : IP) :
  fst (transportMode_isValid UDPOrTCP) = true →
  fst (IPVersionMode_IsValid IPv4OrIPv6) = true →
  Dial_result (oracle w) "udp" googleDNSResolverAddr = inl ip →
  ListenUDP_result (oracle w) ip = None →
  ∃ config w1 r w2,
    zdns_config.NewResolverConfig w = Done config w1 ∧
    zdns.InitResolver config w1 = Done (Some r, None) w2 ∧
    cache r = cfg_Cache config ∧
    caches w2 = caches w ++ [defaultCacheSize] ∧
    slice_elems (heap w2) (externalNameServers r) = os_servers (oracle w) ∧
    localAddr r = ip ∧
    (∃ c, udpClient r = Some c ∧ Dialer_LocalAddr c = ip) ∧
    (∃ c, tcpClient r = Some c ∧ Dialer_LocalAddr c = ip) ∧
    (∃ c, conn r = Some c ∧ conn_LocalAddr c = ip).
Proof.
  intros Ht Hi Hd Hl.
  destruct (NewResolverConfig_run w)
    as (config & Hrun & Hc & Hs & Hm & Hv & Hr & _ & He & _).
  set (w1 := with_caches (caches w ++ [defaultCacheSize]) w) in *.
  assert (Hvalid : fst (zdns.isValid config) = true).
  { apply isValid_true. unfold config_invalid. rewrite Hm, Hv, Ht, Hi, Hs.
    intros [?|[?|[_ ?]]]; done. }
  assert (Hwf : slice_wf (heap w1) (ExternalNameServers config)) by by rewrite He.
  assert (Hinit : zdns.InitResolver config w1 =
                    Done (Some (init_resolver config w1 ip), None)
                         (init_world config w1 ip)).
  { apply InitResolver_run; try done. by rewrite Hr. }
  exists config, w1, (init_resolver config w1 ip), (init_world config w1 ip).
  split; [done|]. split; [done|].
  destruct (InitResolver_localAddr_from_dial _ _ _ _ _ Hwf Hinit)
    as (ip' & Hd' & [Hip Hconn Hu Htc _ _ _ Hext _ _ _]).
  assert (ip' = ip) as -> by (unfold w1 in Hd'; simpl in Hd'; congruence).
  apply isValid_true in Hvalid.
  split; [|split; [|split; [|split; [|split; [|split]]]]].
  - rewrite init_resolver_cache.
    destruct (cache_of_given config w1 Hvalid) as (_ & ? & _); [by rewrite Hc|done].
  - unfold init_world. wsimpl.
    destruct (cache_of_given config w1 Hvalid) as (_ & _ & ->); [by rewrite Hc|done].
  - destruct Hext as (a & l & t & -> & _ & _ & Ha & ->).
    unfold slice_elems. rewrite Ha. simpl.
    rewrite He. simpl.
    by rewrite firstn_all.
  - done.
  - rewrite Hu, Hm. rewrite bool_decide_eq_true_2 by done. by eexists.
  - rewrite Htc, Hm. rewrite bool_decide_eq_true_2 by done. by eexists.
  - rewrite Hconn, Hr. by eexists.
Qed.

End construction_run.

(** ** The earlier revision: construction *)

Section earlier_construction.
Context `{D : Declared}.
Import zdns_prev_init.

Lemma earlier_isValid_true_reason (rc : ResolverConfig) :
  fst (isValid rc) = true → isValid rc = (true, "").
Proof.
  unfold isValid.
  destruct (transportMode_isValid (TransportMode rc)) as [[] ?]; simpl; [|done].
  destruct (IPVersionMode_IsValid (IPVersionMode rc)) as [[] ?]; simpl; [|done].
  by destruct (_ && _).
Qed.

Lemma earlier_choose_cache_spec (config : ResolverConfig) (w : World) :
  ∃ c cs, choose_cache config w = Done c (with_caches cs w) ∧
          (cfg_Cache config ≠ None → CacheSize config = 0%Z →
             c = cfg_Cache config ∧ cs = caches w).
Proof.
  unfold choose_cache. case_bool_decide as Hz.
  { eexists _, _. split; [done|]. intros _ ?. done. }
  destruct (cfg_Cache config) as [p|].
  - exists (Some p), (caches w). split; [|done]. wsimpl. f_equal. by destruct w.
  - eexists _, _. split; [done|]. done.
Qed.

Lemma earlier_find_localAddr_run (r : Resolver) (w : World) (ip : IP) :
  (if bool_decide (length (localAddr r) = 0)
   then Dial_result (oracle w) "udp" googleDNSResolverAddr = inl ip
   else ip = localAddr r) →
  find_localAddr r w =
    Done (inl (if bool_decide (length (localAddr r) = 0)
               then set_localAddr ip r else r))
      (with_next_conn
         ((if bool_decide (length (localAddr r) = 0) then 1 else 0) + next_conn w)
         (with_events
            (events w ++
             (if bool_decide (length (localAddr r) = 0)
              then dial_events (oracle w) (next_conn w) else []))
            w)).
Proof.
  unfold find_localAddr, dial_events.
  case_bool_decide as Hl.
  - intros Hd.
    unfold mbind, M_bind, net_Dial, Conn_Close, emit. wsimpl. rewrite Hd. wsimpl.
    cbn [conn_id conn_LocalAddr].
    destruct (Close_result (oracle w) (next_conn w)) as [e|]; wsimpl;
      f_equal; apply world_eq; wsimpl; try done; by rewrite <- !app_assoc.
  - intros _. wsimpl. f_equal. apply world_eq; wsimpl; try done.
    by rewrite app_nil_r.
Qed.

Lemma earlier_recycle_socket_run (r : Resolver) (w : World) :
  (if shouldRecycleSockets r
   then ListenUDP_result (oracle w) (localAddr r) else None) = None →
  recycle_socket r w =
    Done (inl (if shouldRecycleSockets r
               then set_conn (Some {| conn_id := next_conn w;
                                      conn_LocalAddr := localAddr r |}) r
               else r))
      (with_next_conn ((if shouldRecycleSockets r then 1 else 0) + next_conn w)
         (with_events
            (events w ++
             (if shouldRecycleSockets r then [EvListenUDP (localAddr r)] else []))
            w)).
Proof.
  unfold recycle_socket.
  destruct (shouldRecycleSockets r); intros Hl.
  - unfold mbind, M_bind, net_ListenUDP. wsimpl. by rewrite Hl.
  - wsimpl. f_equal. apply world_eq; wsimpl; try done. by rewrite app_nil_r.
Qed.

Lemma set_nameServers_id (r : Resolver) : set_nameServers (nameServers r) r = r.
Proof. by destruct r. Qed.

Lemma earlier_default_name_servers_run (r : Resolver) (w : World) :
  ('(ns, err) ← GetDNSServers defaultNameServerConfigFile;
   ns ← match err with
        | Some e =>
            ns ← GetDefaultResolvers;
            joined ← strings_Join ns ", ";
            _ ← emit (EvLogWarn
                  ("Unable to parse resolvers file with error %w. Using ZDNS defaults: "
                   +:+ e +:+ joined));
            mret ns
        | None => mret ns
        end;
   let r := set_nameServers ns r in
   joined ← strings_Join (nameServers r) ", ";
   _ ← emit (EvLogInfo ("No name servers specified. will use: " +:+ joined));
   mret r) w =
    Done (set_nameServers
            (mk_slice (pred (length (heap w) + length (os_arrays (oracle w)))) 0
               (length (os_servers (oracle w)))) r)
      (with_events (events w ++ os_events (oracle w))
         (with_heap (heap w ++ os_arrays (oracle w)) w)).
Proof.
  unfold os_servers, os_events, os_arrays, os_servers,
    mbind, M_bind, GetDNSServers, GetDefaultResolvers, mbind, M_bind, emit,
    go_alloc_strings, alloc_strings, strings_Join.
  wsimpl.
  destruct (GetDNSServers_result (oracle w) defaultNameServerConfigFile)
    as [ns [e|]]; wsimpl;
    cbn [nameServers set_nameServers];
    rewrite ?length_app; simpl length;
    rewrite !slice_elems_new_array by (rewrite ?length_app; simpl; lia);
    f_equal.
  - f_equal. f_equal. lia.
  - apply world_eq; wsimpl; try done; by rewrite <- !app_assoc.
  - f_equal. f_equal. lia.
  - apply world_eq; wsimpl; try done; by rewrite <- !app_assoc.
Qed.

Lemma earlier_set_name_servers_run (config : ResolverConfig) (r : Resolver)
    (w : World) :
  isIterative r = IsIterative config →
  nameServers r = NameServers config →
  set_name_servers config r w =
    Done (set_nameServers (earlier_servers config w)
            (if IsIterative config
             then set_iterative (IterativeTimeout config) (MaxDepth config)
                    (LookupAllNameServers config) r
             else r))
      (with_events
         (events w ++ (if asks_os config then os_events (oracle w) else []))
         (with_heap (heap w ++ (if asks_os config then os_arrays (oracle w) else []))
            w)).
Proof.
  intros Hi Hn.
  assert (Hid : ∀ w : World, with_events (events w ++ []) (with_heap (heap w ++ []) w) = w).
  { intros w0. apply world_eq; wsimpl; try done; by rewrite app_nil_r. }
  unfold set_name_servers, earlier_servers, asks_os, no_servers.
  rewrite Hi. destruct (IsIterative config); cbn [negb andb].
  - cbn [nameServers set_iterative]. rewrite Hn.
    destruct (slice_is_nil (NameServers config)
              || bool_decide (slice_len (NameServers config) = 0)) eqn:E.
    + wsimpl. by rewrite Hid.
    + wsimpl. rewrite Hid. f_equal.
      rewrite <- Hn at 1.
      by destruct r.
  - rewrite Hn.
    destruct (slice_is_nil (NameServers config)
              || bool_decide (slice_len (NameServers config) = 0)) eqn:E.
    + apply earlier_default_name_servers_run.
    + wsimpl. rewrite Hid. f_equal. rewrite <- Hn. by rewrite set_nameServers_id.
Qed.

Lemma earlier_make_clients_keeps (config : ResolverConfig) (r : Resolver) :
  isIterative (make_clients config r) = isIterative r ∧
  nameServers (make_clients config r) = nameServers r.
Proof.
  unfold make_clients.
  destruct (bool_decide (transportMode r = UDPOrTCP)
            || bool_decide (transportMode r = UDPOnly));
    cbn [transportMode set_udpClient];
    by destruct (_ || _).
Qed.

(** InitResolver of the earlier revision on a valid configuration, when
    the local address is known and the socket succeeds. *)
Lemma earlier_InitResolver_run (config : ResolverConfig) (w : World) (ip : IP) :
  fst (isValid config) = true →
  local_address config w ip →
  (if ShouldRecycleSockets config then ListenUDP_result (oracle w) ip else None) = None →
  ∃ c cs,
    choose_cache config w = Done c (with_caches cs w) ∧
    InitResolver config w =
      Done (Some (earlier_resolver config w c ip), None)
           (earlier_world config w cs ip).
Proof.
  intros Hv Ha Hl.
  destruct (earlier_choose_cache_spec config w) as (c & cs & Hc & _).
  exists c, cs. split; [done|].
  unfold InitResolver.
  rewrite (earlier_isValid_true_reason _ Hv). cbn [negb].
  rewrite (bind_Done _ _ _ _ _ Hc).
  erewrite bind_Done by reflexivity.
  erewrite bind_Done.
  2:{ apply (earlier_find_localAddr_run _ _ ip). exact Ha. }
  cbv beta iota. wsimpl. cbn [localAddr Resolver_literal].
  fold (dials config).
  assert (Hr1 : (if dials config
                 then set_localAddr ip (Resolver_literal config c)
                 else Resolver_literal config c)
                = set_localAddr ip (Resolver_literal config c)).
  { unfold local_address in Ha. destruct (dials config); [done|]. by subst ip. }
  rewrite Hr1. clear Hr1.
  erewrite bind_Done.
  2:{ apply earlier_recycle_socket_run. by wsimpl. }
  cbv beta iota. wsimpl.
  erewrite bind_Done.
  2:{ apply earlier_set_name_servers_run.
      - rewrite (proj1 (earlier_make_clients_keeps _ _)).
        cbn [shouldRecycleSockets set_localAddr Resolver_literal].
        by destruct (ShouldRecycleSockets config).
      - rewrite (proj2 (earlier_make_clients_keeps _ _)).
        cbn [shouldRecycleSockets set_localAddr Resolver_literal].
        by destruct (ShouldRecycleSockets config). }
  wsimpl. unfold earlier_resolver, earlier_world, earlier_events.
  cbn [shouldRecycleSockets localAddr set_localAddr Resolver_literal].
  f_equal. apply world_eq; wsimpl; try done.
  by rewrite <- !app_assoc.
Qed.

Lemma earlier_resolver_fields (config : ResolverConfig) (w : World) (c : CachePtr)
    (ip : IP) :
  let r := earlier_resolver config w c ip in
  localAddr r = ip ∧
  nameServers r = earlier_servers config w ∧
  isIterative r = IsIterative config ∧
  lookupClient r = cfg_LookupClient config ∧
  conn r = (if ShouldRecycleSockets config
            then Some {| conn_id := (if dials config then 1 else 0) + next_conn w;
                         conn_LocalAddr := ip |}
            else None) ∧
  udpClient r = (if bool_decide (TransportMode config = UDPOrTCP)
                    || bool_decide (TransportMode config = UDPOnly)
                 then Some {| Net := ""; client_Timeout := Timeout config;
                              Dialer_Timeout := Timeout config;
                              Dialer_LocalAddr := ip |}
                 else None) ∧
  tcpClient r = (if bool_decide (TransportMode config = UDPOrTCP)
                    || bool_decide (TransportMode config = TCPOnly)
                 then Some {| Net := "tcp"; client_Timeout := Timeout config;
                              Dialer_Timeout := Timeout config;
                              Dialer_LocalAddr := ip |}
                 else None) ∧
  iterativeTimeout r = (if IsIterative config then IterativeTimeout config else 0%Z) ∧
  maxDepth r = (if IsIterative config then MaxDepth config else 0%Z) ∧
  lookupAllNameServers r =
    (if IsIterative config then LookupAllNameServers config else false).
Proof.
  unfold earlier_resolver, make_clients, Resolver_literal.
  destruct (ShouldRecycleSockets config), (IsIterative config);
    cbn -[RootServers bool_decide];
    repeat case_bool_decide; cbn -[RootServers bool_decide]; done.
Qed.

(** Storing through a slice shows in what the slice shows. *)
Lemma slice_store_lookup (h h' : Heap) (s : slice) (i : nat) (v : string) :
  slice_wf h s →
  slice_store h s i v = Some h' →
  slice_elems h' s !! i = Some v.
Proof.
  destruct s as [|a o n]; [done|]. simpl.
  intros (arr & Ha & Hle). case_decide as Hi; [|done].
  rewrite Ha. simpl. intros [= <-].
  unfold slice_elems.
  rewrite list_lookup_insert_eq by (by eapply lookup_lt_Some). simpl.
  rewrite lookup_take_lt by done. rewrite lookup_drop.
  apply list_lookup_insert_eq. lia.
Qed.

Lemma elem_of_earlier_events (e : Event) (config : ResolverConfig) (w : World)
    (ip : IP) :
  e ∈ earlier_events config w ip ↔
  e = EvSetLevel (LogLevel config) ∨
  (dials config = true ∧ e ∈ dial_events (oracle w) (next_conn w)) ∨
  (ShouldRecycleSockets config = true ∧ e = EvListenUDP ip) ∨
  (asks_os config = true ∧ e ∈ os_events (oracle w)).
Proof.
  unfold earlier_events.
  rewrite elem_of_cons, !elem_of_app.
  destruct (dials config), (ShouldRecycleSockets config), (asks_os config);
    rewrite ?list_elem_of_singleton, ?elem_of_nil; intuition congruence.
Qed.

(** X10. The earlier InitResolver with a local address in the
    configuration: the Resolver, its clients and its socket are bound to
    that address, and no test connection is dialled, so that construction
    does not depend on a route to the outside. *)
Theorem earlier_InitResolver_uses_given_LocalAddr (config : ResolverConfig)
    (w : World) :
  fst (isValid config) = true →
  LocalAddr config ≠ [] →
  (if ShouldRecycleSockets config
   then ListenUDP_result (oracle w) (LocalAddr config) else None) = None →
  ∃ r w' evs,
    InitResolver config w = Done (Some r, None) w' ∧
    localAddr r = LocalAddr config ∧
    (∀ c, udpClient r = Some c → Dialer_LocalAddr c = LocalAddr config) ∧
    (∀ c, tcpClient r = Some c → Dialer_LocalAddr c = LocalAddr config) ∧
    (∀ c, conn r = Some c → conn_LocalAddr c = LocalAddr config) ∧
    events w' = events w ++ evs ∧
    (∀ network address, EvDial network address ∉ evs) ∧
    next_conn w' = (if ShouldRecycleSockets config then 1 else 0) + next_conn w.
Proof.
  intros Hv Hn Hl.
  assert (Hd : dials config = false).
  { unfold dials. apply bool_decide_eq_false_2.
    by destruct (LocalAddr config). }
  destruct (earlier_InitResolver_run config w (LocalAddr config) Hv)
    as (c & cs & _ & Hrun); [by unfold local_address; rewrite Hd|done|].
  pose proof (earlier_resolver_fields config w c (LocalAddr config))
    as (Hip & _ & _ & _ & Hconn & Hu & Ht & _).
  eexists _, _, _. split; [exact Hrun|].
  split; [done|].
  split; [|split; [|split; [|split; [|split]]]].
  - intros cl. rewrite Hu. clear. destruct (_ || _); [|done]. by intros [= <-].
  - intros cl. rewrite Ht. clear. destruct (_ || _); [|done]. by intros [= <-].
  - intros cn. rewrite Hconn. clear.
    destruct (ShouldRecycleSockets config); [|done]. by intros [= <-].
  - done.
  - intros network address Hin.
    apply elem_of_earlier_events in Hin as [?|[[? _]|[[_ ?]|[_ Hin]]]];
      try done; [congruence|].
    apply elem_of_os_events in Hin as [?|[(? & ? & _)|[? ?]]]; done.
  - unfold earlier_world. wsimpl. by rewrite Hd.
Qed.

(** X11. The earlier InitResolver keeps the configuration's server list
    itself, not a copy: the Resolver's list is the caller's slice, nothing
    is allocated, and what the caller stores through the configuration
    afterwards is what the Resolver sees. *)
Theorem earlier_nameServers_are_the_callers_slice (config : ResolverConfig)
    (w : World) (ip : IP) :
  fst (isValid config) = true →
  local_address config w ip →
  (if ShouldRecycleSockets config then ListenUDP_result (oracle w) ip else None)
    = None →
  slice_wf (heap w) (NameServers config) →
  slice_len (NameServers config) ≠ 0 →
  ∃ r w',
    InitResolver config w = Done (Some r, None) w' ∧
    nameServers r = NameServers config ∧
    heap w' = heap w ∧
    ∀ i v h,
      slice_store (heap w') (NameServers config) i v = Some h →
      slice_elems h (nameServers r) !! i = Some v.
Proof.
  intros Hv Ha Hl Hwf Hlen.
  destruct (earlier_InitResolver_run config w ip Hv Ha Hl) as (c & cs & _ & Hrun).
  pose proof (earlier_resolver_fields config w c ip) as (_ & Hns & _).
  assert (Hno : no_servers config = false).
  { unfold no_servers. destruct (NameServers config); [done|].
    simpl in *. by rewrite bool_decide_eq_false_2. }
  assert (Hos : asks_os config = false).
  { unfold asks_os. rewrite Hno. by destruct (IsIterative config). }
  eexists _, _. split; [exact Hrun|].
  rewrite Hns. unfold earlier_servers, earlier_world. rewrite Hno, Hos. wsimpl.
  rewrite app_nil_r.
  split; [done|]. split; [done|].
  intros i v h. by apply slice_store_lookup.
Qed.

(** X12. The earlier InitResolver for a configuration that names no
    server.  An iterative Resolver gets the package's root servers and the
    OS is not asked; a Resolver that is not iterative gets the OS's
    servers. *)
Theorem earlier_default_servers_by_mode (config : ResolverConfig) (w : World)
    (ip : IP) :
  fst (isValid config) = true →
  local_address config w ip →
  (if ShouldRecycleSockets config then ListenUDP_result (oracle w) ip else None)
    = None →
  slice_len (NameServers config) = 0 →
  ∃ r w' evs,
    InitResolver config w = Done (Some r, None) w' ∧
    events w' = events w ++ evs ∧
    (IsIterative config = true →
       nameServers r = mk_slice RootServers_addr 0 13 ∧
       heap w' = heap w ∧
       (heap w !! RootServers_addr = Some RootServers →
          slice_elems (heap w') (nameServers r) = RootServers) ∧
       ∀ path, EvGetDNSServers path ∉ evs) ∧
    (IsIterative config = false →
       slice_elems (heap w') (nameServers r) = os_servers (oracle w) ∧
       EvGetDNSServers defaultNameServerConfigFile ∈ evs).
Proof.
  intros Hv Ha Hl Hlen.
  destruct (earlier_InitResolver_run config w ip Hv Ha Hl) as (c & cs & _ & Hrun).
  pose proof (earlier_resolver_fields config w c ip) as (_ & Hns & _).
  assert (Hno : no_servers config = true).
  { unfold no_servers. rewrite (bool_decide_eq_true_2 _ Hlen).
    by destruct (slice_is_nil _). }
  eexists _, _, _. split; [exact Hrun|]. split; [done|].
  rewrite Hns. unfold earlier_servers, earlier_world, asks_os.
  rewrite Hno. wsimpl.
  split; intros Hit; rewrite Hit; cbn [negb andb].
  - rewrite app_nil_r, RootServers_count.
    split; [done|]. split; [done|]. split.
    + intros Hroot. unfold slice_elems. rewrite Hroot. simpl.
      rewrite <- RootServers_count. by rewrite firstn_all.
    + intros path Hin.
      apply elem_of_earlier_events in Hin as [?|[[_ Hin]|[[_ ?]|[Hos _]]]];
        try done.
      * apply elem_of_dial_events in Hin as [?|[?|[? ?]]]; done.
      * unfold asks_os in Hos. by rewrite Hit in Hos.
  - split.
    + unfold slice_elems, os_arrays, os_servers.
      destruct (GetDNSServers_result (oracle w) defaultNameServerConfigFile)
        as [ns [e|]]; simpl length.
      * replace (pred (length (heap w) + 2)) with (S (length (heap w))) by lia.
        rewrite lookup_app_r by lia.
        replace (S (length (heap w)) - length (heap w)) with 1 by lia.
        simpl. by rewrite firstn_all.
      * replace (pred (length (heap w) + 1)) with (length (heap w)) by lia.
        rewrite lookup_app_r by lia. rewrite Nat.sub_diag.
        simpl. by rewrite firstn_all.
    + apply elem_of_earlier_events. right. right. right.
      split; [unfold asks_os; by rewrite Hit, Hno|].
      unfold os_events. apply elem_of_cons. by left.
Qed.

(** X13. The settings of iterative resolution in the earlier revision are
    taken from the configuration for an iterative Resolver only.  A
    Resolver that is not iterative keeps their zero values, whatever the
    configuration says: in particular it is never set to look up all name
    servers, and its Lookup asks a single server. *)
Theorem earlier_iterative_settings_by_mode (config : ResolverConfig) (w : World)
    (ip : IP) :
  fst (isValid config) = true →
  local_address config w ip →
  (if ShouldRecycleSockets config then ListenUDP_result (oracle w) ip else None)
    = None →
  ∃ r w',
    InitResolver config w = Done (Some r, None) w' ∧
    isIterative r = IsIterative config ∧
    (IsIterative config = true →
       iterativeTimeout r = IterativeTimeout config ∧
       maxDepth r = MaxDepth config ∧
       lookupAllNameServers r = LookupAllNameServers config) ∧
    (IsIterative config = false →
       iterativeTimeout r = 0%Z ∧ maxDepth r = 0%Z ∧
       lookupAllNameServers r = false ∧
       ∀ all all' single q w2,
         zdns_prev.Lookup all single (lookup_view r) q w2 =
         zdns_prev.Lookup all' single (lookup_view r) q w2).
Proof.
  intros Hv Ha Hl.
  destruct (earlier_InitResolver_run config w ip Hv Ha Hl) as (c & cs & _ & Hrun).
  pose proof (earlier_resolver_fields config w c ip)
    as (_ & _ & Hi & _ & _ & _ & _ & Hit & Hmd & Hall).
  eexists _, _. split; [exact Hrun|]. split; [done|].
  split; intros Hmode; rewrite Hmode in Hit, Hmd, Hall; [done|].
  split; [done|]. split; [done|]. split; [done|].
  intros all all' single q w2.
  assert (Hone : zdns_prev.lookupAllNameServers
                   (lookup_view (earlier_resolver config w c ip)) = false)
    by exact Hall.
  unfold zdns_prev.Lookup, mbind, M_bind.
  destruct (zdns_prev.randomNameServer _ w2); [|done|done].
  by rewrite Hone.
Qed.

End earlier_construction.

(** ** The earlier revision: Lookup *)

Section earlier_lookup.
Variable doLookupAllNameservers_result :
  list Event → zdns_prev.Resolver → Question → string → LookupReturn.
Variable DoSingleNameserverLookup_result :
  list Event → Lookuper → zdns_prev.Resolver → Question → string → LookupReturn.

Lemma randomNameServer_pick (r : zdns_prev.Resolver) (w : World) :
  slice_wf (heap w) (zdns_prev.nameServers r) →
  slice_len (zdns_prev.nameServers r) ≠ 0 →
  ∃ ns,
    slice_elems (heap w) (zdns_prev.nameServers r)
      !! (rand_draw (oracle w) (rand_pos w) `mod` slice_len (zdns_prev.nameServers r))
      = Some ns ∧
    zdns_prev.randomNameServer r w = Done ns (with_rand_pos (S (rand_pos w)) w).
Proof.
  intros Hwf Hlen.
  pose proof (slice_elems_length _ _ Hwf) as Hl.
  destruct (lookup_lt_is_Some_2 (slice_elems (heap w) (zdns_prev.nameServers r))
              (rand_draw (oracle w) (rand_pos w) `mod` slice_len (zdns_prev.nameServers r)))
    as [ns Hns].
  { rewrite Hl. by apply Nat.mod_upper_bound. }
  exists ns. split; [done|].
  unfold zdns_prev.randomNameServer.
  assert (slice_is_nil (zdns_prev.nameServers r) = false) as ->.
  { by destruct (zdns_prev.nameServers r). }
  rewrite (bool_decide_eq_false_2 _ Hlen).
  unfold mbind, M_bind, rand_Intn, index_strings. cbn [orb]. wsimpl.
  destruct (decide (slice_len (zdns_prev.nameServers r) = 0)); [done|].
  wsimpl. by rewrite Hns.
Qed.

(** X14. Lookup of the earlier revision on a Resolver with servers: one
    server is drawn, one lookup is made with it, through all name servers
    or through the single one as the Resolver is set.  An error of that
    lookup comes back wrapped, with no Result; without an error the Result
    carries the data, the trace and the status as they came, whatever the
    status is. *)
Theorem earlier_Lookup_result_or_wrapped_error (r : zdns_prev.Resolver)
    (q : Question) (w : World) :
  slice_wf (heap w) (zdns_prev.nameServers r) →
  slice_len (zdns_prev.nameServers r) ≠ 0 →
  ∃ ns,
    slice_elems (heap w) (zdns_prev.nameServers r)
      !! (rand_draw (oracle w) (rand_pos w) `mod` slice_len (zdns_prev.nameServers r))
      = Some ns ∧
    let ret :=
      if zdns_prev.lookupAllNameServers r
      then doLookupAllNameservers_result (events w) r q ns
      else DoSingleNameserverLookup_result (events w) (zdns_prev.lookupClient r) r q ns in
    let ev :=
      if zdns_prev.lookupAllNameServers r
      then EvLookupAllNameservers q ns
      else EvSingleNameserverLookup (zdns_prev.lookupClient r) q ns in
    let how :=
      if zdns_prev.lookupAllNameServers r
      then " for all name servers based on initial server "
      else " for a single name server " in
    zdns_prev.Lookup doLookupAllNameservers_result DoSingleNameserverLookup_result
      r q w =
      Done
        match ret.2 with
        | Some e =>
            (None,
             Some ("error resolving name " +:+ Name q +:+ how +:+ ns +:+ ": " +:+ e))
        | None =>
            (Some {| zdns_prev.Data := ret.1.1.1;
                     zdns_prev.res_Trace := ret.1.1.2;
                     zdns_prev.res_Status := ret.1.2 |}, None)
        end
        (with_events (events w ++ [ev]) (with_rand_pos (S (rand_pos w)) w)).
Proof.
  intros Hwf Hlen.
  destruct (randomNameServer_pick r w Hwf Hlen) as (ns & Hns & Hpick).
  exists ns. split; [done|]. cbv zeta.
  unfold zdns_prev.Lookup.
  rewrite (bind_Done _ _ _ _ _ Hpick).
  destruct (zdns_prev.lookupAllNameServers r).
  - unfold mbind, M_bind, zdns_prev.doLookupAllNameservers. wsimpl.
    by destruct (doLookupAllNameservers_result (events w) r q ns)
      as [[[res trace] status] [e|]].
  - unfold mbind, M_bind, zdns_prev.DoSingleNameserverLookup. wsimpl.
    by destruct (DoSingleNameserverLookup_result (events w) _ r q ns)
      as [[[res trace] status] [e|]].
Qed.

End earlier_lookup.

(** ** The MX lookups: records and secondary queries *)

Lemma append_cons (a : Ascii.ascii) (s t : string) :
  String a s +:+ t = String a (s +:+ t).
Proof. reflexivity. Qed.

Lemma length_append_dot (s : string) :
  String.length (s +:+ ".") = S (String.length s).
Proof.
  induction s as [|a s IH]; [done|]. rewrite append_cons. simpl. by rewrite IH.
Qed.

Lemma substring_append_dot_tail (s : string) :
  String.substring (String.length s) 1 (s +:+ ".") = ".".
Proof. induction s as [|a s IH]; [done|]. rewrite append_cons. simpl. exact IH. Qed.

Lemma substring_append_dot_head (s : string) :
  String.substring 0 (String.length s) (s +:+ ".") = s.
Proof.
  induction s as [|a s IH]; [done|]. rewrite append_cons. simpl. by rewrite IH.
Qed.

(** [TrimSuffix] takes the dot off a name that ends in one. *)
Lemma TrimSuffix_append_dot (s : string) : TrimSuffix (s +:+ ".") "." = s.
Proof.
  unfold TrimSuffix, HasSuffix. rewrite length_append_dot.
  change (String.length ".") with 1.
  replace (S (String.length s) - 1) with (String.length s) by lia.
  rewrite substring_append_dot_tail, substring_append_dot_head.
  rewrite bool_decide_eq_true_2 by lia.
  by rewrite bool_decide_eq_true_2.
Qed.

Section mx_records.
Context `{D : Declared}.
Implicit Types (mxMod : mxlookup.MXLookupModule)
  (c : cachehash.CacheHash CachedAddresses).

(** The loop of Lookup: one record for each MX answer, in order, and
    secondary queries for exchange names only, all put to the caller's
    server with the module's settings. *)
Lemma lookup_answers_records (r : Resolver) (nameServer : string) (ipMode : Z)
    (answers : list AnswerValue) :
  ∀ mxMod c (servers : list MXRecord) (trace : Trace) (w : World),
    mxlookup.CacheHash mxMod = Some c →
    ∃ added trace' c' new,
      mxlookup.lookup_answers mxMod r nameServer ipMode answers servers trace w =
        Done (servers ++ added, trace', mxlookup.set_CacheHash (Some c') mxMod)
             (with_events (events w ++ new) w) ∧
      Forall2 record_for (pref_answers answers) added ∧
      Forall (λ e, ∃ n, n ∈ exchange_names answers ∧ e = asked mxMod n nameServer)
        new.
Proof.
  induction answers as [|[mxAns|other] rest IH]; intros mxMod c servers trace w Hc.
  - exists [], trace, c, []. simpl.
    rewrite with_events_id, !app_nil_r, (set_CacheHash_id _ _ Hc).
    split; [done|]. split; constructor.
  - cbn [mxlookup.lookup_answers pref_answers exchange_names].
    set (name := TrimSuffix (ans_Answer (pref_Answer mxAns)) ".").
    destruct (cachehash.find name c) as [v|] eqn:Hf.
    + rewrite (bind_Done _ _ _ _ _
                 (lookupIPs_hit mxMod c r name nameServer ipMode w v Hc Hf)).
      cbn beta iota.
      edestruct (IH (mxlookup.set_CacheHash (Some (snd (cachehash.Get name c))) mxMod))
        as (added & trace' & c' & new & -> & Hrec & Hnew); [done|].
      eexists (_ :: added), trace', c', new. rewrite <- app_assoc. simpl.
      split; [reflexivity|]. split.
      * constructor; [|done]. by repeat split.
      * eapply Forall_impl; [exact Hnew|].
        intros e (n & Hin & ->). exists n. split; [|done].
        apply elem_of_cons. by right.
    + rewrite (bind_Done _ _ _ _ _
                 (lookupIPs_miss mxMod c r name nameServer ipMode w Hc Hf)).
      cbn beta iota.
      set (ret := told mxMod r name nameServer w).
      set (retv := addresses_of (ret_status ret) (ret_result ret)).
      edestruct (IH (mxlookup.set_CacheHash (Some (cachehash.Upsert name retv c)) mxMod))
        as (added & trace' & c' & new & -> & Hrec & Hnew); [done|].
      eexists (_ :: added), trace', c', (asked mxMod name nameServer :: new).
      wsimpl. rewrite <- !app_assoc. simpl.
      split; [reflexivity|]. split.
      * constructor; [|done]. by repeat split.
      * constructor.
        -- exists name. split; [|done]. apply elem_of_cons. by left.
        -- eapply Forall_impl; [exact Hnew|].
           intros e (n & Hin & ->). exists n. split; [|done].
           apply elem_of_cons. by right.
  - cbn [mxlookup.lookup_answers pref_answers exchange_names]. by apply (IH mxMod c).
Qed.

Lemma Lookup_run mxMod c (r : Resolver) (lookupName nameServer : string)
    (w w1 : World) (res : SingleQueryResult) (trace : Trace) :
  mxlookup.CacheHash mxMod = Some c →
  primary mxMod r lookupName nameServer w =
    Done (Some res, trace, StatusNoError, None) w1 →
  ∃ servers trace' c' new,
    mxlookup.Lookup mxMod r lookupName nameServer w =
      Done (Some {| Servers := servers |}, trace', StatusNoError, None,
            mxlookup.set_CacheHash (Some c') mxMod)
           (with_events (events w1 ++ new) w1) ∧
    Forall2 record_for (pref_answers (Answers res)) servers ∧
    Forall (λ e, ∃ n, n ∈ exchange_names (Answers res) ∧
                      e = asked mxMod n nameServer) new.
Proof.
  intros Hc Hp. unfold mxlookup.Lookup. fold (primary mxMod r lookupName nameServer).
  rewrite (bind_Done _ _ _ _ _ Hp). cbn beta iota.
  rewrite bool_decide_eq_false_2 by (by intros ?).
  rewrite bool_decide_eq_false_2 by (by intros ?). cbn [orb].
  destruct (lookup_answers_records r nameServer
              (GetIPVersionMode (mxlookup.IPv4Lookup mxMod) (mxlookup.IPv6Lookup mxMod))
              (Answers res) mxMod c [] trace w1 Hc)
    as (added & trace' & c' & new & Hrun & Hrec & Hnew).
  rewrite (bind_Done _ _ _ _ _ Hrun). cbn beta iota.
  by exists added, trace', c', new.
Qed.

(** X15. The records of a successful MX lookup follow the MX answers of
    the primary result: one record for each, in the order of the answers,
    with the answer's type, class, preference and TTL, and with its exchange
    name less one trailing dot; answers that are not MX answers give no
    record. *)
Theorem Lookup_records_follow_the_MX_answers mxMod c (r : Resolver)
    (lookupName nameServer : string) (w w1 : World) (res : SingleQueryResult)
    (trace : Trace) :
  mxlookup.CacheHash mxMod = Some c →
  primary mxMod r lookupName nameServer w =
    Done (Some res, trace, StatusNoError, None) w1 →
  ∃ servers trace' mxMod' w',
    mxlookup.Lookup mxMod r lookupName nameServer w =
      Done (Some {| Servers := servers |}, trace', StatusNoError, None, mxMod') w' ∧
    length servers = length (pref_answers (Answers res)) ∧
    Forall2 record_for (pref_answers (Answers res)) servers ∧
    ∀ i a rec s,
      pref_answers (Answers res) !! i = Some a →
      servers !! i = Some rec →
      ans_Answer (pref_Answer a) = s +:+ "." →
      mx_Name rec = s.
Proof.
  intros Hc Hp.
  destruct (Lookup_run mxMod c r lookupName nameServer w w1 res trace Hc Hp)
    as (servers & trace' & c' & new & Hrun & Hrec & _).
  eexists servers, _, _, _. split; [exact Hrun|].
  split; [symmetry; by eapply Forall2_length|]. split; [done|].
  intros i a rec s Ha Hr Hs.
  destruct (Forall2_lookup_lr _ _ _ _ _ _ Hrec Ha Hr) as (-> & _).
  by rewrite Hs, TrimSuffix_append_dot.
Qed.

(** X16. The secondary queries of a successful MX lookup: each is a
    targeted lookup for one of the exchange names of the answers, put to the
    server the caller named, with the module's own iterative and IP version
    settings; nothing else is done after the primary query. *)
Theorem Lookup_secondary_queries_use_the_callers_server mxMod c (r : Resolver)
    (lookupName nameServer : string) (w w1 : World) (res : SingleQueryResult)
    (trace : Trace) :
  mxlookup.CacheHash mxMod = Some c →
  primary mxMod r lookupName nameServer w =
    Done (Some res, trace, StatusNoError, None) w1 →
  ∃ result trace' mxMod' new,
    mxlookup.Lookup mxMod r lookupName nameServer w =
      Done (Some result, trace', StatusNoError, None, mxMod')
           (with_events (events w1 ++ new) w1) ∧
    Forall (λ e, ∃ n,
              n ∈ exchange_names (Answers res) ∧
              e = EvTargetedLookup n nameServer
                    (mxlookup.mod_IsIterative (mxlookup.Basic mxMod))
                    (mxlookup.IPv4Lookup mxMod) (mxlookup.IPv6Lookup mxMod))
      new ∧
    mxlookup.IPv4Lookup mxMod' = mxlookup.IPv4Lookup mxMod ∧
    mxlookup.IPv6Lookup mxMod' = mxlookup.IPv6Lookup mxMod ∧
    mxlookup.Basic mxMod' = mxlookup.Basic mxMod.
Proof.
  intros Hc Hp.
  destruct (Lookup_run mxMod c r lookupName nameServer w w1 res trace Hc Hp)
    as (servers & trace' & c' & new & Hrun & _ & Hnew).
  eexists _, _, _, new. split; [exact Hrun|]. by split.
Qed.

End mx_records.

Section mx_cli.
Context `{D : Declared}.
Variable CLIConf : Type.
Variable BasicLookupModule_CLIInit :
  CLIConf → ResolverConfig → mxlookup.BasicLookupModule →
  mxlookup.BasicLookupModule * error.

(** X17. CLIInit with a positive cache size always returns.  The error
    it returns is the one of the embedded module's CLIInit, wrapped, and
    none when that has none; by then the cache has been set up and the
    embedded module is as its CLIInit left it, error or not. *)
Theorem CLIInit_wraps_the_error_of_the_basic_module (gc : CLIConf)
    (rc : ResolverConfig) (mxMod : mxlookup.MXLookupModule) (w : World) :
  (0 < mxlookup.MXCacheSize mxMod)%Z →
  let basic := BasicLookupModule_CLIInit gc rc (mxlookup.Basic mxMod) in
  ∃ mxMod',
    mxlookup.CLIInit CLIConf BasicLookupModule_CLIInit gc rc mxMod w =
      Done (mxMod',
            (λ e, "failed to initialize BasicLookupModule: " +:+ e) <$> basic.2) w ∧
    mxlookup.CacheHash mxMod' = Some (cachehash.Init (mxlookup.MXCacheSize mxMod)) ∧
    mxlookup.Basic mxMod' = basic.1.
Proof.
  intros Hs. cbv zeta. unfold mxlookup.CLIInit.
  set (m1 := if negb (mxlookup.IPv4Lookup mxMod) && negb (mxlookup.IPv6Lookup mxMod)
             then mxlookup.set_IPv4Lookup true mxMod else mxMod).
  assert (Hm1 : negb (mxlookup.IPv4Lookup m1) && negb (mxlookup.IPv6Lookup m1) = false).
  { unfold m1.
    destruct (mxlookup.IPv4Lookup mxMod) eqn:E4, (mxlookup.IPv6Lookup mxMod) eqn:E6;
      simpl; by rewrite ?E4, ?E6. }
  assert (Hsz : mxlookup.MXCacheSize m1 = mxlookup.MXCacheSize mxMod).
  { unfold m1. by destruct (_ && _). }
  assert (Hb : mxlookup.Basic m1 = mxlookup.Basic mxMod).
  { unfold m1. by destruct (_ && _). }
  unfold mxlookup.Init, mbind, M_bind. rewrite Hm1, Hsz. wsimpl.
  rewrite bool_decide_eq_false_2 by lia. wsimpl.
  cbn [mxlookup.Basic mxlookup.set_CacheHash]. rewrite Hb.
  destruct (BasicLookupModule_CLIInit gc rc (mxlookup.Basic mxMod)) as [b [e|]];
    eexists; (split; [reflexivity|]); by split.
Qed.

End mx_cli.

(** ** The older MX lookup *)

Section older_mx.
Context `{D : Declared}.
Implicit Types (mxLookup : modules.MXLookup)
  (c : cachehash.CacheHash CachedAddresses).

Lemma older_set_CacheHash_id mxLookup c :
  modules.CacheHash mxLookup = Some c → modules.set_CacheHash (Some c) mxLookup = mxLookup.
Proof. destruct mxLookup. simpl. by intros ->. Qed.

(** One call of LookupIPs on an initialised module: it returns, and asks
    the Resolver at most once, for the name and with the arguments given. *)
Lemma older_LookupIPs_run mxLookup c (r : Resolver) (name nameServer : string)
    (v4 v6 : bool) (w : World) :
  modules.CacheHash mxLookup = Some c →
  ∃ ips trace c' new,
    modules.LookupIPs (Some mxLookup) r name nameServer v4 v6 w =
      Done (ips, trace, modules.set_CacheHash (Some c') mxLookup)
           (with_events (events w ++ new) w) ∧
    (new = [] ∨ new = [EvModulesTargetedLookup name nameServer v4 v6]).
Proof.
  intros Hc. unfold modules.LookupIPs. rewrite Hc.
  unfold cachehash.Get.
  destruct (cachehash.find name c) as [v|].
  - eexists _, _, _, []. rewrite with_events_id. split; [reflexivity|]. by left.
  - unfold mbind, M_bind, modules_DoTargetedLookup. wsimpl.
    destruct (modules_DoTargetedLookup_result _ _ _ _ _ _ _)
      as [[[result trace] status] err].
    eexists _, _, _, [_]. split; [reflexivity|]. by right.
Qed.

Lemma older_lookup_answers_records (r : Resolver) (nameServer : string)
    (v4 v6 : bool) (answers : list AnswerValue) :
  ∀ mxLookup c (servers : list MXRecord) (trace : Trace) (w : World),
    modules.CacheHash mxLookup = Some c →
    ∃ added trace' c' new,
      modules.lookup_answers mxLookup r nameServer v4 v6 answers servers trace w =
        Done (servers ++ added, trace', modules.set_CacheHash (Some c') mxLookup)
             (with_events (events w ++ new) w) ∧
      Forall2 record_for (pref_answers answers) added ∧
      Forall (λ e, ∃ n, n ∈ exchange_names answers ∧
                        e = EvModulesTargetedLookup n nameServer v4 v6) new.
Proof.
  induction answers as [|[mxAns|other] rest IH]; intros mxLookup c servers trace w Hc.
  - exists [], trace, c, []. simpl.
    rewrite with_events_id, !app_nil_r, (older_set_CacheHash_id _ _ Hc).
    split; [done|]. split; constructor.
  - cbn [modules.lookup_answers pref_answers exchange_names].
    set (name := TrimSuffix (ans_Answer (pref_Answer mxAns)) ".").
    destruct (older_LookupIPs_run mxLookup c r name nameServer v4 v6 w Hc)
      as (ips & tr & c1 & new1 & Hrun & Hnew1).
    rewrite (bind_Done _ _ _ _ _ Hrun). cbn beta iota.
    edestruct (IH (modules.set_CacheHash (Some c1) mxLookup))
      as (added & trace' & c' & new & -> & Hrec & Hnew); [done|].
    eexists (_ :: added), trace', c', (new1 ++ new).
    wsimpl. rewrite <- !app_assoc. simpl.
    split; [reflexivity|]. split.
    + constructor; [|done]. by repeat split.
    + apply Forall_app. split.
      * destruct Hnew1 as [->| ->]; constructor; [|constructor].
        exists name. split; [|done]. apply elem_of_cons. by left.
      * eapply Forall_impl; [exact Hnew|].
        intros e (n & Hin & ->). exists n. split; [|done].
        apply elem_of_cons. by right.
  - cbn [modules.lookup_answers pref_answers exchange_names]. by apply (IH mxLookup c).
Qed.

(** X18. DoLookup of the older module.  The primary query is an external
    lookup; when it fails, its trace, status and error come back with no
    result and nothing more is done.  When it succeeds there is one record
    for each MX answer, and each secondary query is put to the caller's
    server asking for IPv6 addresses as the module is set, and for IPv4
    addresses when the module is set to, or when it is not set to look up
    IPv6 addresses. *)
Theorem DoLookup_of_the_older_module mxLookup c (r : Resolver)
    (name nameServer : string) (w w1 : World) (res : option SingleQueryResult)
    (trace : Trace) (status : Status) (err : error) :
  modules.CacheHash mxLookup = Some c →
  zdns.ExternalLookup r {| Type_ := TypeMX; Class := ClassINET; Name := name |}
    nameServer w = Done (res, trace, status, err) w1 →
  (status ≠ StatusNoError ∨ err ≠ None →
     modules.DoLookup mxLookup r name nameServer w =
       Done (None, trace, status, err, mxLookup) w1) ∧
  (status = StatusNoError → err = None →
     ∀ res', res = Some res' →
       ∃ servers trace' mxLookup' new,
         modules.DoLookup mxLookup r name nameServer w =
           Done (Some {| Servers := servers |}, trace', StatusNoError, None, mxLookup')
                (with_events (events w1 ++ new) w1) ∧
         Forall2 record_for (pref_answers (Answers res')) servers ∧
         Forall (λ e, ∃ n,
                   n ∈ exchange_names (Answers res') ∧
                   e = EvModulesTargetedLookup n nameServer
                         (modules.IPv4Lookup mxLookup
                          || negb (modules.IPv6Lookup mxLookup))
                         (modules.IPv6Lookup mxLookup))
           new).
Proof.
  intros Hc Hp. unfold modules.DoLookup.
  rewrite (bind_Done _ _ _ _ _ Hp). cbn beta iota.
  split.
  - intros Hfail.
    match goal with |- context [bool_decide ?P || bool_decide ?Q] =>
      assert (bool_decide P || bool_decide Q = true) as ->; [|done] end.
    destruct Hfail as [Hs|He].
    + by rewrite (bool_decide_eq_true_2 _ Hs).
    + rewrite (bool_decide_eq_true_2 _ He). by rewrite orb_true_r.
  - intros -> -> res' ->.
    rewrite bool_decide_eq_false_2 by (by intros ?).
    rewrite bool_decide_eq_false_2 by (by intros ?). cbn [orb].
    destruct (older_lookup_answers_records r nameServer
                (modules.IPv4Lookup mxLookup || negb (modules.IPv6Lookup mxLookup))
                (modules.IPv6Lookup mxLookup)
                (Answers res') mxLookup c [] trace w1 Hc)
      as (added & trace' & c' & new & Hrun & Hrec & Hnew).
    rewrite (bind_Done _ _ _ _ _ Hrun). cbn beta iota.
    by eexists added, trace', _, new.
Qed.


End older_mx.

(** ** The further properties at work on the sample data *)

Lemma sample_init2 :
  zdns.InitResolver (D := Sample.decls) Sample.config2 (Sample.world Sample.outside)
  = Done (Some Sample.resolver2, None) Sample.world2.
Proof. by vm_compute. Qed.

Lemma sample_init2b :
  zdns.InitResolver (D := Sample.decls) Sample.config2 Sample.world2
  = Done (Some MoreSamples.resolver2b, None) MoreSamples.world2b.
Proof. by vm_compute. Qed.

Lemma InitResolver_cache_choice_witness :
  cache Sample.resolver2 = cfg_Cache Sample.config2 ∧
  caches Sample.world2 = caches (Sample.world Sample.outside).
Proof.
  destruct (InitResolver_cache_choice (D := Sample.decls) Sample.config2
              (Sample.world Sample.outside) Sample.world2 Sample.resolver2 None
              (sample_slice_wf Sample.outside) sample_init2) as (_ & H & _).
  apply H; [reflexivity|discriminate].
Defined.

Lemma resolvers_of_one_config_share_its_cache_witness :
  cache Sample.resolver2 = cfg_Cache Sample.config2 ∧
  cache MoreSamples.resolver2b = cfg_Cache Sample.config2 ∧
  caches MoreSamples.world2b = caches (Sample.world Sample.outside).
Proof.
  destruct (resolvers_of_one_config_share_its_cache (D := Sample.decls)
              Sample.config2 (Sample.world Sample.outside) Sample.world2
              MoreSamples.world2b Sample.resolver2 MoreSamples.resolver2b None None
              (sample_slice_wf Sample.outside) sample_init2 sample_init2b)
    as (H & _).
  apply H. discriminate.
Defined.

Lemma InitResolver_copies_settings_witness :
  retries Sample.resolver2 = defaultRetries ∧
  lookupAllNameServers Sample.resolver2 = false ∧
  zdns.InitResolver (D := Sample.decls) (with_IsIterative true Sample.config2)
    (Sample.world Sample.outside) = Done (Some Sample.resolver2, None) Sample.world2.
Proof.
  pose proof (InitResolver_copies_settings (D := Sample.decls) Sample.config2
                (Sample.world Sample.outside) Sample.world2 Sample.resolver2 None
                (sample_slice_wf Sample.outside) sample_init2) as H.
  split; [apply H|]. split; [apply H|]. apply H.
Defined.

Lemma InitResolver_clients_by_transport_mode_witness :
  is_Some (udpClient Sample.resolver2) ∧ is_Some (tcpClient Sample.resolver2).
Proof.
  destruct (InitResolver_clients_by_transport_mode (D := Sample.decls) Sample.config2
              (Sample.world Sample.outside) Sample.world2 Sample.resolver2 None
              (sample_slice_wf Sample.outside) sample_init2) as (Hu & Ht & _).
  split; [apply Hu|apply Ht]; by left.
Defined.

Lemma Close_closes_the_recycled_socket_witness :
  zdns.Close Sample.resolver2 Sample.world2 =
    Done () (with_events (events Sample.world2 ++ [EvClose 1]) Sample.world2).
Proof.
  destruct (Close_closes_the_recycled_socket (D := Sample.decls) Sample.config2
              (Sample.world Sample.outside) Sample.world2 Sample.world2
              Sample.resolver2 None (sample_slice_wf Sample.outside) sample_init2)
    as (_ & H).
  apply H. reflexivity.
Defined.




Lemma NewResolverConfig_with_CacheSize_is_refused_witness :
  ∃ config w1,
    zdns_config.NewResolverConfig (D := Sample.decls) (Sample.world Sample.outside)
      = Done config w1 ∧
    cfg_Cache config ≠ None ∧
    ∀ n, n ≠ 0%Z →
      zdns.InitResolver (D := Sample.decls) (zdns_config.with_CacheSize n config) w1 =
        Done (None,
              Some "invalid resolver config: cannot use both cache and cacheSize")
             w1.
Proof.
  apply (NewResolverConfig_with_CacheSize_is_refused (D := Sample.decls)
           (Sample.world Sample.outside)); reflexivity.
Defined.

Lemma NewResolverConfig_then_InitResolver_witness :
  ∃ config w1 r w2,
    zdns_config.NewResolverConfig (D := Sample.decls) (Sample.world Sample.outside)
      = Done config w1 ∧
    zdns.InitResolver (D := Sample.decls) config w1 = Done (Some r, None) w2 ∧
    cache r = cfg_Cache config ∧
    caches w2 = [defaultCacheSize] ∧
    slice_elems (heap w2) (externalNameServers r) = ["192.0.2.53:53"].
Proof.
  destruct (NewResolverConfig_then_InitResolver (D := Sample.decls)
              (Sample.world Sample.outside) MoreSamples.local_192_168_1_5)
    as (config & w1 & r & w2 & H1 & H2 & H3 & H4 & H5 & _); try reflexivity.
  by exists config, w1, r, w2.
Defined.

Lemma earlier_InitResolver_uses_given_LocalAddr_witness :
  ∃ r w',
    zdns_prev_init.InitResolver (D := Sample.decls)
      (MoreSamples.earlier_config MoreSamples.local_10_0_0_1 Sample.callers_servers
         false)
      (Sample.world Sample.outside_no_route) = Done (Some r, None) w' ∧
    zdns_prev_init.localAddr r = MoreSamples.local_10_0_0_1.
Proof.
  destruct (earlier_InitResolver_uses_given_LocalAddr (D := Sample.decls)
              (MoreSamples.earlier_config MoreSamples.local_10_0_0_1
                 Sample.callers_servers false)
              (Sample.world Sample.outside_no_route))
    as (r & w' & evs & H1 & H2 & _); [reflexivity|discriminate|reflexivity|].
  by exists r, w'.
Defined.

Lemma earlier_nameServers_are_the_callers_slice_witness :
  ∃ r w',
    zdns_prev_init.InitResolver (D := Sample.decls)
      (MoreSamples.earlier_config [] Sample.callers_servers false)
      (Sample.world Sample.outside) = Done (Some r, None) w' ∧
    zdns_prev_init.nameServers r = Sample.callers_servers ∧
    ∀ h,
      slice_store (heap w') Sample.callers_servers 0 "192.0.2.66:53" = Some h →
      slice_elems h (zdns_prev_init.nameServers r) !! 0 = Some "192.0.2.66:53".
Proof.
  destruct (earlier_nameServers_are_the_callers_slice (D := Sample.decls)
              (MoreSamples.earlier_config [] Sample.callers_servers false)
              (Sample.world Sample.outside) MoreSamples.local_192_168_1_5)
    as (r & w' & H1 & H2 & _ & H4);
    [reflexivity|reflexivity|reflexivity|apply sample_slice_wf|discriminate|].
  exists r, w'. split; [done|]. split; [done|]. intros h. apply H4.
Defined.

Lemma earlier_default_servers_by_mode_witness :
  ∃ r w',
    zdns_prev_init.InitResolver (D := Sample.decls)
      (MoreSamples.earlier_config [] nil_slice true)
      (Sample.world Sample.outside) = Done (Some r, None) w' ∧
    slice_elems (heap w') (zdns_prev_init.nameServers r)
      = RootServers (Declared := Sample.decls).
Proof.
  destruct (earlier_default_servers_by_mode (D := Sample.decls)
              (MoreSamples.earlier_config [] nil_slice true)
              (Sample.world Sample.outside) MoreSamples.local_192_168_1_5)
    as (r & w' & evs & H1 & _ & H3 & _); try reflexivity.
  exists r, w'. split; [done|].
  destruct (H3 eq_refl) as (_ & _ & H & _). by apply H.
Defined.

Lemma earlier_iterative_settings_by_mode_witness :
  ∃ r w',
    zdns_prev_init.InitResolver (D := Sample.decls)
      (MoreSamples.earlier_config [] Sample.callers_servers false)
      (Sample.world Sample.outside) = Done (Some r, None) w' ∧
    zdns_prev_init.LookupAllNameServers
      (MoreSamples.earlier_config [] Sample.callers_servers false) = true ∧
    zdns_prev_init.lookupAllNameServers r = false.
Proof.
  destruct (earlier_iterative_settings_by_mode (D := Sample.decls)
              (MoreSamples.earlier_config [] Sample.callers_servers false)
              (Sample.world Sample.outside) MoreSamples.local_192_168_1_5)
    as (r & w' & H1 & _ & _ & H3); try reflexivity.
  exists r, w'. split; [done|]. split; [done|]. by apply H3.
Defined.

Lemma earlier_Lookup_result_or_wrapped_error_witness :
  zdns_prev.Lookup (λ _ _ _ _, Sample.noResult) (λ _ _ _ _ _, Sample.noResult)
    MoreSamples.earlier_resolver2 Sample.question (Sample.world Sample.outside) =
    Done (None,
          Some ("error resolving name example.com for a single name server "
                +:+ "203.0.113.1:53: no network"))
      (with_events
         [EvSingleNameserverLookup LookupClient Sample.question "203.0.113.1:53"]
         (with_rand_pos 1 (Sample.world Sample.outside))).
Proof.
  destruct (earlier_Lookup_result_or_wrapped_error
              (λ _ _ _ _, Sample.noResult) (λ _ _ _ _ _, Sample.noResult)
              MoreSamples.earlier_resolver2 Sample.question
              (Sample.world Sample.outside))
    as (ns & Hns & H); [apply sample_slice_wf|discriminate|].
  injection Hns as <-. exact H.
Defined.

Lemma sample_primary_mx :
  primary Sample.mx Sample.resolver2 "example.com" "192.0.2.53:53"
    MoreSamples.world_mx =
    Done (Some MoreSamples.mx_result, [], StatusNoError, None) MoreSamples.world_mx1.
Proof. reflexivity. Qed.

Lemma Lookup_records_follow_the_MX_answers_witness :
  ∃ servers trace' mxMod' w',
    mxlookup.Lookup (D := Sample.decls) Sample.mx Sample.resolver2 "example.com"
      "192.0.2.53:53" MoreSamples.world_mx =
      Done (Some {| Servers := servers |}, trace', StatusNoError, None, mxMod') w' ∧
    length servers = 2 ∧
    ∀ rec, servers !! 0 = Some rec → mx_Name rec = "mx1.example.com".
Proof.
  destruct (Lookup_records_follow_the_MX_answers (D := Sample.decls) Sample.mx
              (cachehash.Init 1) Sample.resolver2 "example.com" "192.0.2.53:53"
              MoreSamples.world_mx MoreSamples.world_mx1 MoreSamples.mx_result []
              eq_refl sample_primary_mx)
    as (servers & trace' & mxMod' & w' & H1 & H2 & _ & H4).
  exists servers, trace', mxMod', w'. split; [done|]. split; [done|].
  intros rec Hrec. by eapply (H4 0); [reflexivity|exact Hrec|].
Defined.

Lemma Lookup_secondary_queries_use_the_callers_server_witness :
  ∃ result trace' mxMod' new,
    mxlookup.Lookup (D := Sample.decls) Sample.mx Sample.resolver2 "example.com"
      "192.0.2.53:53" MoreSamples.world_mx =
      Done (Some result, trace', StatusNoError, None, mxMod')
           (with_events (events MoreSamples.world_mx1 ++ new) MoreSamples.world_mx1) ∧
    Forall (λ e, ∃ n, e = EvTargetedLookup n "192.0.2.53:53" false true false) new.
Proof.
  destruct (Lookup_secondary_queries_use_the_callers_server (D := Sample.decls)
              Sample.mx (cachehash.Init 1) Sample.resolver2 "example.com"
              "192.0.2.53:53" MoreSamples.world_mx MoreSamples.world_mx1
              MoreSamples.mx_result [] eq_refl sample_primary_mx)
    as (result & trace' & mxMod' & new & H1 & H2 & _).
  exists result, trace', mxMod', new. split; [done|].
  eapply Forall_impl; [exact H2|]. intros e (n & _ & ->). by exists n.
Defined.

Lemma CLIInit_wraps_the_error_of_the_basic_module_witness :
  ∃ mxMod',
    mxlookup.CLIInit unit (λ _ _ b, (b, Some "unknown flag")) () Sample.config2
      Sample.mx_unset Sample.world2 =
      Done (mxMod', Some "failed to initialize BasicLookupModule: unknown flag")
        Sample.world2 ∧
    mxlookup.CacheHash mxMod' = Some (cachehash.Init 1000).
Proof.
  destruct (CLIInit_wraps_the_error_of_the_basic_module unit
              (λ _ _ b, (b, Some "unknown flag")) () Sample.config2
              Sample.mx_unset Sample.world2)
    as (mxMod' & H1 & H2 & _); [reflexivity|].
  by exists mxMod'.
Defined.

Lemma sample_older_primary_mx :
  zdns.ExternalLookup Sample.resolver2
    {| Type_ := TypeMX; Class := ClassINET; Name := "example.com" |}
    "192.0.2.53:53" MoreSamples.world_mx =
    Done (Some MoreSamples.mx_result, [], StatusNoError, None) MoreSamples.world_mx1.
Proof. reflexivity. Qed.

Lemma DoLookup_of_the_older_module_witness :
  ∃ servers trace' mxLookup' new,
    modules.DoLookup MoreSamples.older_mx Sample.resolver2
      "example.com" "192.0.2.53:53" MoreSamples.world_mx =
      Done (Some {| Servers := servers |}, trace', StatusNoError, None, mxLookup')
           (with_events (events MoreSamples.world_mx1 ++ new) MoreSamples.world_mx1) ∧
    Forall (λ e, ∃ n, e = EvModulesTargetedLookup n "192.0.2.53:53" true false) new.
Proof.
  destruct (DoLookup_of_the_older_module MoreSamples.older_mx
              (cachehash.Init 1) Sample.resolver2 "example.com" "192.0.2.53:53"
              MoreSamples.world_mx MoreSamples.world_mx1 _ _ _ _
              eq_refl sample_older_primary_mx) as (_ & H).
  destruct (H eq_refl eq_refl _ eq_refl)
    as (servers & trace' & mxLookup' & new & H1 & _ & H3).
  exists servers, trace', mxLookup', new. split; [done|].
  eapply Forall_impl; [exact H3|]. intros e (n & _ & ->). by exists n.
Defined.
